(** * kr.pasat: the adaptive PASAT trainer of [script.js]

    A shallow embedding of the trial engine of [script.js]: the N-back
    oracle, the presentation cycle with its per-trial deadline callback,
    [processAnswer], the three answer handlers, session start and end, the
    session log and the persisted settings records.

    Conventions of the embedding.
    - The script's globals are the fields of one record [State]; every
      function of the script is a function on [State], written as the chain
      of assignments of its JavaScript body.
    - JavaScript numbers that the engine counts with (digits, counters,
      milliseconds) are integers and are carried as [Z]. A value that may
      also be [null] or [NaN] is a [jsval]. A number that is a fraction (the
      draw of [Math.random()], the beep volume, the playback rate, a
      quotient on its way to [Math.round]) is carried as [Q], and where the
      script computes with fractions in two steps the rounding of each
      double-precision operation is written out.
    - [setTimeout], [setInterval] and the playback promise are entries of
      the pending list [timers]; an event of the host fires one of them.
      Real time only enters through the clock reading [now] that an event
      carries, so every ordering of the pending callbacks is a run of the
      model.
    - [localStorage] holds parsed documents by key:
      [JSON.parse (JSON.stringify d)] is taken to be [d]. The item
      [pasatSessions], which [saveSessions] alone writes, is carried as the
      list of summaries that it is; a stored text that does not parse to such
      a list is outside the embedding.
    - Rendering (screens, colours, the counter dots, the timer circle) and
      the sound output itself are not part of the state. *)

From Stdlib Require Import ZArith QArith Qround Qabs Qpower Lia Lqa Ascii.
From stdpp Require Import base list strings gmap pretty sorting.

Open Scope Z_scope.

(** ** JavaScript values *)

(** A number-or-null slot of the script: [null], an integer, or [NaN]. *)
Inductive jsval : Type :=
| Null
| Num (z : Z)
| NaN.

Definition is_null (v : jsval) : bool :=
  match v with Null => true | _ => false end.

(** [isNaN(v)]; [isNaN(null)] is [false] because [Number(null)] is 0. *)
Definition isNaN (v : jsval) : bool :=
  match v with NaN => true | _ => false end.

(** [Number(v)]. *)
Definition Number (v : jsval) : jsval :=
  match v with Null => Num 0 | _ => v end.

(** [a === b]; [NaN] is not equal to itself. *)
Definition strict_eq (a b : jsval) : bool :=
  match a, b with
  | Null, Null => true
  | Num x, Num y => x =? y
  | _, _ => false
  end.

(** [l[i]] for any integer index; [None] is [undefined]. *)
Definition js_index {A : Type} (l : list A) (i : Z) : option A :=
  if i <? 0 then None else l !! Z.to_nat i.

(** [x || d] on an optional number: [undefined] and [0] are falsy. *)
Definition or_default (x : option Z) (d : Z) : Z :=
  match x with
  | Some v => if v =? 0 then d else v
  | None => d
  end.

Definition or_defaultQ (x : option Q) (d : Q) : Q :=
  match x with
  | Some v => if Qeq_bool v 0 then d else v
  | None => d
  end.

Definition or_false (x : option bool) : bool :=
  match x with Some b => b | None => false end.

(** [Math.min] and [Math.max] on fractions. *)
Definition Math_min (a b : Q) : Q := if Qle_bool b a then b else a.
Definition Math_max (a b : Q) : Q := if Qle_bool a b then b else a.

(** [Math.round]: to the nearest integer, halves upwards. *)
Definition Math_round (q : Q) : Z := Qfloor (q + (1 # 2)).

(** ** Double-precision arithmetic *)

(** A JavaScript number is an IEEE 754 double. On the integers that the
    script counts with, double arithmetic is exact, and one quotient of two
    of them that goes straight into [Math.round] or [Math.floor] rounds to
    the same integer as the exact quotient; there the quotient is written
    exactly. Two computations round twice on their way and are written with
    their roundings: [Math.random() * 9], and the accuracy
    [(correct / attempts) * 100].

    [double x] is the double nearest to the rational [x], ties to the even
    significand: 53 bits above [2 ^ -1022], multiples of [2 ^ -1074] below.
    Overflow to [Infinity] is left out; the operands of the script are
    draws below 1, quotients of counters and percentages. *)

(** [ilog2 x] is the integer [k] with [2 ^ k <= x < 2 ^ (k + 1)], for a
    positive [x]. *)
Definition ilog2 (x : Q) : Z :=
  let k := Z.log2 (Qnum x) - Z.log2 (Z.pos (Qden x)) in
  if Qle_bool (2 ^ k) x then k else k - 1.

Definition round_half_even (x : Q) : Z :=
  let f := Qfloor x in
  match (x - inject_Z f ?= 1 # 2)%Q with
  | Lt => f
  | Eq => if Z.even f then f else f + 1
  | Gt => f + 1
  end.

Definition double (x : Q) : Q :=
  if Qeq_bool x 0 then 0%Q
  else
    let e := Z.max (ilog2 (Qabs x) - 52) (-1074) in
    (inject_Z (round_half_even (x / 2 ^ e)) * 2 ^ e)%Q.

(** The rationals that are doubles. *)
Definition is_double (x : Q) : Prop := (double x == x)%Q.

(** [x * y] and [x / y] on numbers. *)
Definition Number_mul (x y : Q) : Q := double (x * y).
Definition Number_div (x y : Q) : Q := double (x / y).

(** ** The N-back oracle *)

(** [generateNumber], from the draw [r] of [Math.random()], a double from
    0 up to but not including 1. *)
Definition generateNumber (r : Q) : Z := Qfloor (Number_mul r 9) + 1.

(** [calculateNbackAnswer(currentNum, sequence, nback)]. Adding
    [undefined] to a number gives [NaN]. *)
Definition calculateNbackAnswer (currentNum : Z) (sequence : list Z) (nback : Z)
  : jsval :=
  if Z.of_nat (length sequence) <? nback then Null
  else
    match js_index sequence (Z.of_nat (length sequence) - nback - 1) with
    | Some previousNum => Num (currentNum + previousNum)
    | None => NaN
    end.

(** ** Records of the script *)

Module Trial.
(** The object pushed on [sessionHistory] by [presentNextNumber].
    [responseTime] is absent until the trial is resolved. *)
Record t := mk {
  nbackValue : Z;
  currentNumber : Z;
  previousNumber : option Z;
  correctAnswer : jsval;
  userAnswer : jsval;
  correct : option bool;
  isi : Z;
  trialId : Z;
  responseTime : option Z
}.

Definition set_responseTime (v : option Z) (x : t) : t :=
  mk (nbackValue x) (currentNumber x) (previousNumber x) (correctAnswer x)
     (userAnswer x) (correct x) (isi x) (trialId x) v.

Definition set_userAnswer (v : jsval) (x : t) : t :=
  mk (nbackValue x) (currentNumber x) (previousNumber x) (correctAnswer x)
     v (correct x) (isi x) (trialId x) (responseTime x).

Definition set_correct (v : option bool) (x : t) : t :=
  mk (nbackValue x) (currentNumber x) (previousNumber x) (correctAnswer x)
     (userAnswer x) v (isi x) (trialId x) (responseTime x).

(** [trial.correct] used as a condition: [null] is falsy. *)
Definition truthy_correct (x : t) : bool :=
  match correct x with Some b => b | None => false end.
End Trial.

Module ModeSettings.
Record t := mk { selectedISI : Z; sessionDuration : Z }.
End ModeSettings.

Module BeepSettings.
Record t := mk { enabled : bool; volume : Q }.
End BeepSettings.

Inductive ModeName : Type := Standard | Manual | Custom.

Module SessionData.
(** The summary built by [addSessionToHistory]; [date] is the clock
    reading that the script formats as an ISO string. *)
Record t := mk {
  date : Z;
  totalCorrect : Z;
  totalAttempts : Z;
  accuracy : Z;
  sessionDuration : Z;
  lowestISI : Z;
  mode : ModeName;
  nbackValue : Z;
  trials : Z;
  averageResponseTime : Z;
  consecutiveCorrectMax : Z
}.
End SessionData.

(** A parsed document of [localStorage]. A property of a settings document
    may be missing ([None] is [undefined]). *)
Inductive Stored : Type :=
| SessionsDoc (sessions : list SessionData.t)
| ModeDoc (selectedISI sessionDuration : option Z)
| NbackDoc (value : option Z)
| BeepDoc (enabled : option bool) (volume : option Q)
| SpeedDoc (rate : option Q).

Module Storage.
(** [localStorage]: the item [pasatSessions], when there is one, and the
    settings documents by key. *)
Record t := mk {
  pasatSessions : option (list SessionData.t);
  settings : gmap string Stored
}.
End Storage.

#[global] Instance Storage_empty : Empty Storage.t := Storage.mk None ∅.

(** [getItem], parsed. *)
#[global] Instance Storage_lookup : Lookup string Stored Storage.t :=
  λ key storage,
    if decide (key = "pasatSessions")
    then SessionsDoc <$> Storage.pasatSessions storage
    else Storage.settings storage !! key.

(** [setItem] of a document. The script stores nothing but the session
    list under [pasatSessions]; another document offered for that key is
    not stored. *)
#[global] Instance Storage_insert : Insert string Stored Storage.t :=
  λ key doc storage,
    if decide (key = "pasatSessions") then
      match doc with
      | SessionsDoc sessions => Storage.mk (Some sessions) (Storage.settings storage)
      | _ => storage
      end
    else Storage.mk (Storage.pasatSessions storage)
                    (<[key := doc]> (Storage.settings storage)).

(** [removeItem]. *)
#[global] Instance Storage_delete : Delete string Storage.t :=
  λ key storage,
    if decide (key = "pasatSessions")
    then Storage.mk None (Storage.settings storage)
    else Storage.mk (Storage.pasatSessions storage)
                    (delete key (Storage.settings storage)).

#[global] Instance Storage_singleton : SingletonM string Stored Storage.t :=
  λ key doc, <[key := doc]> ∅.

(** The text of [answerInput], by what the script reads from it:
    [Empty] when [value.trim()] is the empty string, [Digits z] when
    [Number(value.trim())] is the integer [z], [Other] when it is [NaN]. A
    fraction typed into the field takes the same branches as an integer
    that is not the correct answer. *)
Inductive FieldText : Type :=
| Empty
| Digits (z : Z)
| Other.

Definition Number_of_text (x : FieldText) : jsval :=
  match x with
  | Empty => Num 0
  | Digits z => Num z
  | Other => NaN
  end.

Definition is_empty_text (x : FieldText) : bool :=
  match x with Empty => true | _ => false end.

(** A pending callback of the host. *)
Inductive Task : Type :=
| TickTask                                     (* setInterval(updateTimer, 1000) *)
| PresentTask                                  (* setTimeout(presentNextNumber) *)
| DeadlineTask (trialId trialPresentationTime : Z)   (* the per-trial timeout *)
| SpeakDoneTask.                               (* the playback promise settles *)

(** ** The globals *)

Record State := mkState {
  howlReady : bool;                  (* every number sound has loaded *)
  lastPresentedNumber : option Z;
  currentNumber : option Z;
  correctAnswer : jsval;             (* current correct answer *)
  currentIntervalId : option Z;      (* handle of the presentation timer *)
  audioPlayInProgress : bool;
  processingAnswer : bool;
  nextPresentationTime : Z;
  forcePresentNextNumber : bool;
  useNumberPad : bool;
  answerProcessed : bool;
  nbackValue : Z;
  numberSequence : list Z;
  currentTrialId : Z;
  nextNumberScheduled : bool;
  trainingTimerId : option Z;        (* handle of the one-second interval *)
  currentISIValue : Z;
  consecutiveCorrect : Z;
  consecutiveIncorrect : Z;
  sessionHistory : list Trial.t;
  totalCorrect : Z;
  totalAttempts : Z;
  lowestISI : Z;
  remainingTime : Z;                 (* seconds *)
  sessionActive : bool;
  isStandardMode : bool;
  isCustomMode : bool;
  isManualMode : bool;
  standardModeSettings : ModeSettings.t;
  manualModeSettings : ModeSettings.t;
  customModeSettings : ModeSettings.t;
  selectedISI : Z;
  sessionDuration : Z;               (* minutes *)
  allSessions : list SessionData.t;
  nbackSettings : Z;                 (* nbackSettings.value *)
  beepSettings : BeepSettings.t;
  audioSpeedSettings : Q;            (* audioSpeedSettings.rate *)
  localStorage : Storage.t;
  answerInput : FieldText;           (* answerInput.value *)
  selectedButton : option Z;         (* data-value of the selected pad button *)
  nbackInput : option Z;             (* parseInt of the N-back field; None is NaN *)
  timers : list (Z * Task);          (* pending timers and playbacks of the host *)
  timerSeq : Z                       (* next timer handle *)
}.

(** Assignment to one global. The setters are all built the same way, from
    the record rebuilt out of its own projections. *)
Definition rebuild (s : State) : State :=
  mkState (howlReady s) (lastPresentedNumber s) (currentNumber s) (correctAnswer s)
    (currentIntervalId s) (audioPlayInProgress s) (processingAnswer s)
    (nextPresentationTime s) (forcePresentNextNumber s) (useNumberPad s)
    (answerProcessed s) (nbackValue s) (numberSequence s) (currentTrialId s)
    (nextNumberScheduled s) (trainingTimerId s) (currentISIValue s)
    (consecutiveCorrect s) (consecutiveIncorrect s) (sessionHistory s)
    (totalCorrect s) (totalAttempts s) (lowestISI s) (remainingTime s)
    (sessionActive s) (isStandardMode s) (isCustomMode s) (isManualMode s)
    (standardModeSettings s) (manualModeSettings s) (customModeSettings s)
    (selectedISI s) (sessionDuration s) (allSessions s) (nbackSettings s)
    (beepSettings s) (audioSpeedSettings s) (localStorage s) (answerInput s)
    (selectedButton s) (nbackInput s) (timers s) (timerSeq s).

Ltac assign_to field :=
  let v := fresh "v" in
  let s := fresh "s" in
  intros v s;
  let whole := eval cbv [rebuild] in (rebuild s) in
  match eval pattern (field s) in whole with
  | ?f _ => let r := eval cbv beta in (f v) in exact r
  end.

Definition set_howlReady : bool -> State -> State.
Proof. assign_to howlReady. Defined.
Definition set_lastPresentedNumber : option Z -> State -> State.
Proof. assign_to lastPresentedNumber. Defined.
Definition set_currentNumber : option Z -> State -> State.
Proof. assign_to currentNumber. Defined.
Definition set_correctAnswer : jsval -> State -> State.
Proof. assign_to correctAnswer. Defined.
Definition set_currentIntervalId : option Z -> State -> State.
Proof. assign_to currentIntervalId. Defined.
Definition set_audioPlayInProgress : bool -> State -> State.
Proof. assign_to audioPlayInProgress. Defined.
Definition set_processingAnswer : bool -> State -> State.
Proof. assign_to processingAnswer. Defined.
Definition set_nextPresentationTime : Z -> State -> State.
Proof. assign_to nextPresentationTime. Defined.
Definition set_forcePresentNextNumber : bool -> State -> State.
Proof. assign_to forcePresentNextNumber. Defined.
Definition set_useNumberPad : bool -> State -> State.
Proof. assign_to useNumberPad. Defined.
Definition set_answerProcessed : bool -> State -> State.
Proof. assign_to answerProcessed. Defined.
Definition set_nbackValue : Z -> State -> State.
Proof. assign_to nbackValue. Defined.
Definition set_numberSequence : list Z -> State -> State.
Proof. assign_to numberSequence. Defined.
Definition set_currentTrialId : Z -> State -> State.
Proof. assign_to currentTrialId. Defined.
Definition set_nextNumberScheduled : bool -> State -> State.
Proof. assign_to nextNumberScheduled. Defined.
Definition set_trainingTimerId : option Z -> State -> State.
Proof. assign_to trainingTimerId. Defined.
Definition set_currentISIValue : Z -> State -> State.
Proof. assign_to currentISIValue. Defined.
Definition set_consecutiveCorrect : Z -> State -> State.
Proof. assign_to consecutiveCorrect. Defined.
Definition set_consecutiveIncorrect : Z -> State -> State.
Proof. assign_to consecutiveIncorrect. Defined.
Definition set_sessionHistory : list Trial.t -> State -> State.
Proof. assign_to sessionHistory. Defined.
Definition set_totalCorrect : Z -> State -> State.
Proof. assign_to totalCorrect. Defined.
Definition set_totalAttempts : Z -> State -> State.
Proof. assign_to totalAttempts. Defined.
Definition set_lowestISI : Z -> State -> State.
Proof. assign_to lowestISI. Defined.
Definition set_remainingTime : Z -> State -> State.
Proof. assign_to remainingTime. Defined.
Definition set_sessionActive : bool -> State -> State.
Proof. assign_to sessionActive. Defined.
Definition set_isStandardMode : bool -> State -> State.
Proof. assign_to isStandardMode. Defined.
Definition set_isCustomMode : bool -> State -> State.
Proof. assign_to isCustomMode. Defined.
Definition set_isManualMode : bool -> State -> State.
Proof. assign_to isManualMode. Defined.
Definition set_standardModeSettings : ModeSettings.t -> State -> State.
Proof. assign_to standardModeSettings. Defined.
Definition set_manualModeSettings : ModeSettings.t -> State -> State.
Proof. assign_to manualModeSettings. Defined.
Definition set_customModeSettings : ModeSettings.t -> State -> State.
Proof. assign_to customModeSettings. Defined.
Definition set_selectedISI : Z -> State -> State.
Proof. assign_to selectedISI. Defined.
Definition set_sessionDuration : Z -> State -> State.
Proof. assign_to sessionDuration. Defined.
Definition set_allSessions : list SessionData.t -> State -> State.
Proof. assign_to allSessions. Defined.
Definition set_nbackSettings : Z -> State -> State.
Proof. assign_to nbackSettings. Defined.
Definition set_beepSettings : BeepSettings.t -> State -> State.
Proof. assign_to beepSettings. Defined.
Definition set_audioSpeedSettings : Q -> State -> State.
Proof. assign_to audioSpeedSettings. Defined.
Definition set_localStorage : Storage.t -> State -> State.
Proof. assign_to localStorage. Defined.
Definition set_answerInput : FieldText -> State -> State.
Proof. assign_to answerInput. Defined.
Definition set_selectedButton : option Z -> State -> State.
Proof. assign_to selectedButton. Defined.
Definition set_nbackInput : option Z -> State -> State.
Proof. assign_to nbackInput. Defined.
Definition set_timers : list (Z * Task) -> State -> State.
Proof. assign_to timers. Defined.
Definition set_timerSeq : Z -> State -> State.
Proof. assign_to timerSeq. Defined.

(** ** Host timers and playback *)

(** [setTimeout] and [setInterval]: the callback is queued under a fresh
    handle. Handles start at 1, so a stored handle is truthy. *)
Definition setTimeout (task : Task) (s : State) : Z * State :=
  (timerSeq s,
   set_timerSeq (timerSeq s + 1) (set_timers (timers s ++ [(timerSeq s, task)]) s)).

(** [clearTimeout(id)] and [clearInterval(id)]. *)
Definition clearTimeout (id : Z) (s : State) : State :=
  set_timers (filter (λ p, p.1 ≠ id) (timers s)) s.

(** [if (currentIntervalId) { clearTimeout(currentIntervalId);
    currentIntervalId = null; }] *)
Definition clearCurrentInterval (s : State) : State :=
  match currentIntervalId s with
  | Some id => set_currentIntervalId None (clearTimeout id s)
  | None => s
  end.

(** [stopAllAudio]: the sounds are stopped and the playing flag is cleared.
    A stopped sound raises no [end] event, so a playback that was under way
    is still settled later by its safety timeout. *)
Definition stopAllAudio (s : State) : State :=
  set_audioPlayInProgress false s.

(** [numberSounds[number]] exists for the digits 1 to 9. *)
Definition has_sound (number : Z) : bool := (1 <=? number) && (number <=? 9).

(** [speakNumber] with [playNumberWithHowler]. The boolean tells whether
    the promise is already settled when it is returned; otherwise the
    playback is pending and settles when its [SpeakDoneTask] fires (the
    [end] event or the safety timeout, whichever comes first). *)
Definition speakNumber (number : Z) (s : State) : bool * State :=
  if negb (sessionActive s) then (true, s)
  else if audioPlayInProgress s then (true, s)
  else if negb (howlReady s) then (true, s)
  else
    let s := set_audioPlayInProgress true s in
    if negb (has_sound number) then (true, set_audioPlayInProgress false s)
    else (false, (setTimeout SpeakDoneTask s).2).

(** ** Answer processing *)

(** The trial object is shared with [sessionHistory]: writing a field of
    the object found at an index is writing the list at that index. *)
Definition lastTrialIndex (s : State) : Z :=
  Z.of_nat (length (sessionHistory s)) - 1.

Definition store_trial (i : nat) (x : Trial.t) (s : State) : State :=
  set_sessionHistory (<[i := x]> (sessionHistory s)) s.

(** [processAnswer(userAnswer)], called when the clock reads [now]. *)
Definition processAnswer (now : Z) (userAnswer : jsval) (s : State) : bool * State :=
  if processingAnswer s || is_null (correctAnswer s) then (false, s)
  else
    let s := set_processingAnswer true s in
    match last (sessionHistory s) with
    | None => (false, set_processingAnswer false s)
    | Some currentTrial =>
      if negb (is_null (Trial.userAnswer currentTrial)) then
        (false, set_processingAnswer false s)
      else if negb (strict_eq (Trial.correctAnswer currentTrial) (correctAnswer s)) then
        (false, set_processingAnswer false s)
      else
        let responseTime := now - (nextPresentationTime s - currentISIValue s) in
        let currentTrial := Trial.set_responseTime (Some responseTime) currentTrial in
        let currentTrial := Trial.set_userAnswer userAnswer currentTrial in
        let isCorrect :=
          if negb (is_null userAnswer) then
            let numericAnswer := Number userAnswer in
            let numericCorrect := Number (Trial.correctAnswer currentTrial) in
            negb (isNaN numericAnswer) && negb (isNaN numericCorrect)
              && strict_eq numericAnswer numericCorrect
          else false in
        let currentTrial := Trial.set_correct (Some isCorrect) currentTrial in
        let s := store_trial (Z.to_nat (lastTrialIndex s)) currentTrial s in
        let s := set_totalAttempts (totalAttempts s + 1) s in
        let s :=
          if isCorrect then
            let s := set_totalCorrect (totalCorrect s + 1) s in
            let s := set_consecutiveCorrect (consecutiveCorrect s + 1) s in
            set_consecutiveIncorrect 0 s
          else
            let s := set_consecutiveCorrect 0 s in
            set_consecutiveIncorrect (consecutiveIncorrect s + 1) s in
        let s :=
          if negb (isManualMode s) then
            let minISI := 500 in
            if consecutiveCorrect s >=? 4 then
              let s := set_currentISIValue (Z.max minISI (currentISIValue s - 100)) s in
              let s := set_lowestISI (Z.min (lowestISI s) (currentISIValue s)) s in
              set_consecutiveCorrect 0 s
            else if consecutiveIncorrect s >=? 4 then
              let s := set_currentISIValue (Z.min 5000 (currentISIValue s + 100)) s in
              set_consecutiveIncorrect 0 s
            else s
          else set_currentISIValue (selectedISI s) s in
        let s :=
          if useNumberPad s then
            if isCorrect then set_selectedButton None s else s
          else
            if isCorrect then set_answerInput Empty s else s in
        let s := set_processingAnswer false s in
        (true, s)
    end.

(** The callback armed by [presentNextNumber] for the trial [trialId],
    which was presented when the clock read [trialPresentationTime]. *)
Definition deadlineCallback (trialId trialPresentationTime now : Z) (s : State)
  : State :=
  if negb (answerProcessed s) && negb (processingAnswer s) then
    match list_find (λ x, Trial.trialId x = trialId) (sessionHistory s) with
    | None => s
    | Some (targetTrialIndex, targetTrial) =>
      if negb (is_null (Trial.userAnswer targetTrial)) then s
      else if negb (Z.of_nat targetTrialIndex =? lastTrialIndex s) then
        (* the next number was already presented *)
        let userAnswer := Null in
        let responseTime := now - trialPresentationTime in
        let targetTrial := Trial.set_responseTime (Some responseTime) targetTrial in
        let targetTrial := Trial.set_userAnswer userAnswer targetTrial in
        let targetTrial := Trial.set_correct (Some false) targetTrial in
        let s := store_trial targetTrialIndex targetTrial s in
        let s := set_totalAttempts (totalAttempts s + 1) s in
        let s := set_consecutiveCorrect 0 s in
        let s := set_consecutiveIncorrect (consecutiveIncorrect s + 1) s in
        if negb (isManualMode s) then
          if consecutiveIncorrect s >=? 4 then
            let s := set_currentISIValue (Z.min 5000 (currentISIValue s + 100)) s in
            set_consecutiveIncorrect 0 s
          else s
        else s
      else
        (* the target trial is the last one *)
        let finalAnswer :=
          if useNumberPad s then
            match selectedButton s with
            | Some value => Num value
            | None => Null
            end
          else
            let inputValue := answerInput s in
            if negb (is_empty_text inputValue) then Number_of_text inputValue
            else Null in
        let userAnswer :=
          if negb (is_null finalAnswer) && negb (isNaN finalAnswer)
          then Number finalAnswer else Null in
        let s := set_answerProcessed true s in
        let '(success, s) := processAnswer now userAnswer s in
        let s := if negb success then set_answerProcessed false s else s in
        if useNumberPad s then set_selectedButton None s
        else set_answerInput Empty s
    end
  else s.

(** ** The presentation cycle *)

(** The part of [presentNextNumber] that runs once the playback promise has
    settled: both timers of the new round are armed here. *)
Definition afterSpeak (now : Z) (s : State) : State :=
  if Z.of_nat (length (numberSequence s)) >=? nbackValue s + 1 then
    let s := set_nextPresentationTime (now + currentISIValue s) s in
    let '(id, s) := setTimeout PresentTask s in
    let s := set_currentIntervalId (Some id) s in
    let trialId := currentTrialId s in
    let trialPresentationTime := now in
    (setTimeout (DeadlineTask trialId trialPresentationTime) s).2
  else
    let s := set_nextPresentationTime (now + currentISIValue s) s in
    let '(id, s) := setTimeout PresentTask s in
    set_currentIntervalId (Some id) s.

(** [presentNextNumber], entered when the clock reads [now]; [r] is the
    draw of [Math.random()]. [speakNumber] never rejects, so the [catch]
    branch of the script is not reached. When the promise is settled at
    once, the rest of the function follows before any other callback. *)
Definition presentNextNumber (now : Z) (r : Q) (s : State) : State :=
  if negb (sessionActive s) then s
  else if nextNumberScheduled s then s
  else
    let s := set_nextNumberScheduled true s in
    let s := clearCurrentInterval s in
    let currentTime := now in
    if (0 <? Z.of_nat (length (numberSequence s)))
         && negb (forcePresentNextNumber s)
         && (0 <? nextPresentationTime s - currentTime)
    then
      (* too early: wait for the remaining time, the flag stays set *)
      let s := clearCurrentInterval s in
      let '(id, s) := setTimeout PresentTask s in
      set_currentIntervalId (Some id) s
    else
      let s := set_forcePresentNextNumber false s in
      let number := generateNumber r in
      let s := set_currentNumber (Some number) s in
      let s := set_numberSequence (numberSequence s ++ [number]) s in
      let s :=
        if Z.of_nat (length (numberSequence s)) >=? nbackValue s + 1 then
          let s :=
            set_correctAnswer
              (calculateNbackAnswer number (numberSequence s) (nbackValue s)) s in
          let s := set_currentTrialId (currentTrialId s + 1) s in
          let currentTrial :=
            Trial.mk (nbackValue s) number
              (js_index (numberSequence s)
                 (Z.of_nat (length (numberSequence s)) - nbackValue s - 1))
              (correctAnswer s) Null None (currentISIValue s) (currentTrialId s)
              None in
          set_sessionHistory (sessionHistory s ++ [currentTrial]) s
        else s in
      let s := set_lastPresentedNumber (Some number) s in
      let s := set_nextNumberScheduled false s in
      let s :=
        if negb (is_null (correctAnswer s)) then
          let s := set_answerProcessed false s in
          set_processingAnswer false s
        else s in
      let s := if useNumberPad s then s else set_answerInput Empty s in
      let '(settled, s) := speakNumber number s in
      if settled then afterSpeak now s else s.

(** ** The answer handlers *)

Definition canProcessButtonClick (s : State) : bool :=
  if processingAnswer s then false
  else if is_null (correctAnswer s) then false
  else if audioPlayInProgress s then false
  else if answerProcessed s then false
  else true.

Definition canProcessAnswerImmediately (userAnswer : jsval) (s : State) : bool :=
  if negb (canProcessButtonClick s) then false
  else strict_eq userAnswer (correctAnswer s).

Definition shouldProcessAnswerImmediately (userAnswer : jsval) (s : State) : bool :=
  canProcessAnswerImmediately userAnswer s.

(** [handleButtonInteraction] of the pad button whose [data-value] is
    [value]. A mouse click runs it twice: on [mousedown] and on [click]. *)
Definition handleButtonInteraction (now : Z) (value : Z) (s : State) : State :=
  if negb (canProcessButtonClick s) then set_selectedButton None s
  else
    let s := set_selectedButton (Some value) s in
    if shouldProcessAnswerImmediately (Num value) s then
      let s := set_answerProcessed true s in
      let '(success, s) := processAnswer now (Num value) s in
      if negb success then set_selectedButton None (set_answerProcessed false s)
      else s
    else s.

(** The [input] listener of [answerInput]; the field already holds the
    new text. *)
Definition onAnswerInput (now : Z) (s : State) : State :=
  if negb (canProcessButtonClick s) then s
  else
    let userInput := answerInput s in
    let userAnswer := Number_of_text userInput in
    if negb (isNaN userAnswer) && negb (is_empty_text userInput) then
      if strict_eq userAnswer (correctAnswer s) then
        let s := set_answerProcessed true s in
        let '(success, s) := processAnswer now userAnswer s in
        if negb success then set_answerProcessed false s else s
      else s
    else s.

(** The [keyup] listener of [answerInput], for the Enter key. *)
Definition onEnterKey (now : Z) (s : State) : State :=
  if negb (is_empty_text (answerInput s)) then
    if negb (answerProcessed s) && canProcessButtonClick s then
      let userInput := answerInput s in
      let userAnswer := Number_of_text userInput in
      if negb (isNaN userAnswer) && negb (is_empty_text userInput) then
        if strict_eq userAnswer (correctAnswer s) then
          let s := set_answerProcessed true s in
          let '(success, s) := processAnswer now userAnswer s in
          if negb success then set_answerProcessed false s else s
        else s
      else s
    else s
  else s.

(** ** The session log *)

Definition getItem (key : string) (s : State) : option Stored :=
  localStorage s !! key.

Definition setItem (key : string) (doc : Stored) (s : State) : State :=
  set_localStorage (<[key := doc]> (localStorage s)) s.

Definition saveSessions (s : State) : State :=
  setItem "pasatSessions" (SessionsDoc (allSessions s)) s.

Definition sumZ (l : list Z) : Z := foldr Z.add 0 l.

Definition calculateAverageResponseTime (s : State) : Z :=
  let responseTimes := omap Trial.responseTime (sessionHistory s) in
  if Z.of_nat (length responseTimes) =? 0 then 0
  else Math_round (inject_Z (sumZ responseTimes)
                   / inject_Z (Z.of_nat (length responseTimes)))%Q.

(** The inner loop of [consecutiveCorrectMax]: how many trials from the
    head on are correct. *)
Fixpoint correct_run (h : list Trial.t) : Z :=
  match h with
  | [] => 0
  | x :: rest => if Trial.truthy_correct x then 1 + correct_run rest else 0
  end.

(** [Math.max(...l)] on a list that is not empty (the script only spreads
    the runs of a history that has a trial). *)
Definition Math_max_of (l : list Z) : Z :=
  match l with
  | [] => 0
  | x :: rest => foldl Z.max x rest
  end.

Definition consecutiveCorrectMax (h : list Trial.t) : Z :=
  Math_max_of (map (λ i, correct_run (drop i h)) (seq 0 (length h))).

Definition modeName (s : State) : ModeName :=
  if isStandardMode s then Standard
  else if isManualMode s then Manual
  else Custom.

(** [addSessionToHistory], called when the clock reads [now]. *)
Definition addSessionToHistory (now : Z) (s : State) : State :=
  if Z.of_nat (length (sessionHistory s)) =? 0 then s
  else if totalAttempts s <? 50 then s
  else
    let sessionData :=
      SessionData.mk now (totalCorrect s) (totalAttempts s)
        (if 0 <? totalAttempts s
         then Math_round
                (Number_mul (Number_div (inject_Z (totalCorrect s))
                                        (inject_Z (totalAttempts s))) 100)
         else 0)
        (sessionDuration s) (lowestISI s) (modeName s) (nbackValue s)
        (Z.of_nat (length (sessionHistory s)))
        (calculateAverageResponseTime s)
        (consecutiveCorrectMax (sessionHistory s)) in
    let s := set_allSessions (allSessions s ++ [sessionData]) s in
    saveSessions s.

(** ** Session start and end *)

(** [startSession]. *)
Definition startSession (s : State) : State :=
  let s := stopAllAudio s in
  let s := if useNumberPad s then set_selectedButton None s
           else set_answerInput Empty s in
  let s := set_selectedISI (Z.max 500 (selectedISI s)) s in
  let s := set_currentISIValue (selectedISI s) s in
  let s := set_consecutiveCorrect 0 s in
  let s := set_consecutiveIncorrect 0 s in
  let s := set_remainingTime (sessionDuration s * 60) s in
  let s := set_sessionHistory [] s in
  let s := set_totalCorrect 0 s in
  let s := set_totalAttempts 0 s in
  let s := set_nbackValue (Z.max 1 (Z.min 10 (or_default (nbackInput s) 1))) s in
  let s := set_nbackInput (Some (nbackValue s)) s in
  let s := set_numberSequence [] s in
  let s := set_lowestISI (currentISIValue s) s in
  let s := set_currentNumber None s in
  let s := set_correctAnswer Null s in
  let s := set_lastPresentedNumber None s in
  let s := set_processingAnswer false s in
  let s := set_nextPresentationTime 0 s in
  let s := set_forcePresentNextNumber false s in
  let s := set_answerProcessed false s in
  let s := set_currentTrialId 0 s in
  let s := set_nextNumberScheduled false s in
  let s := set_audioPlayInProgress false s in
  let s := clearCurrentInterval s in
  let s := set_selectedButton None s in
  let s := set_answerInput Empty s in
  let '(id, s) := setTimeout TickTask s in
  let s := set_trainingTimerId (Some id) s in
  let s := set_sessionActive true s in
  (setTimeout PresentTask s).2.

(** [endSession], called when the clock reads [now]. *)
Definition endSession (now : Z) (s : State) : State :=
  let s := stopAllAudio s in
  let s := match trainingTimerId s with
           | Some id => clearTimeout id s
           | None => s
           end in
  let s := clearCurrentInterval s in
  let s := set_sessionActive false s in
  let s := set_processingAnswer false s in
  let s := set_answerProcessed false s in
  let s := set_nextNumberScheduled false s in
  let s := set_audioPlayInProgress false s in
  let s := set_forcePresentNextNumber false s in
  addSessionToHistory now s.

(** [updateTimer], the callback of the one-second interval. *)
Definition updateTimer (now : Z) (s : State) : State :=
  let s := set_remainingTime (remainingTime s - 1) s in
  if remainingTime s <=? 0 then endSession now s else s.

(** ** Settings and their persistence *)

Definition updateCustomModeUI (s : State) : State :=
  let s := set_selectedISI (ModeSettings.selectedISI (customModeSettings s)) s in
  set_sessionDuration (ModeSettings.sessionDuration (customModeSettings s)) s.

Definition updateStandardModeUI (s : State) : State :=
  let s := set_selectedISI (ModeSettings.selectedISI (standardModeSettings s)) s in
  let s := set_sessionDuration
             (ModeSettings.sessionDuration (standardModeSettings s)) s in
  let s :=
    if negb (selectedISI s =? 3000) then
      let s := set_selectedISI 3000 s in
      set_standardModeSettings
        (ModeSettings.mk 3000 (ModeSettings.sessionDuration (standardModeSettings s))) s
    else s in
  if negb (sessionDuration s =? 20) then
    let s := set_sessionDuration 20 s in
    set_standardModeSettings
      (ModeSettings.mk (ModeSettings.selectedISI (standardModeSettings s)) 20) s
  else s.

Definition updateManualModeUI (s : State) : State :=
  let s := set_selectedISI (ModeSettings.selectedISI (manualModeSettings s)) s in
  set_sessionDuration (ModeSettings.sessionDuration (manualModeSettings s)) s.

(** [loadSessions]: the stored list, when there is one, becomes
    [allSessions]. *)
Definition loadSessions (s : State) : State :=
  match Storage.pasatSessions (localStorage s) with
  | Some sessions => set_allSessions sessions s
  | None => s
  end.

(** [settings.selectedISI] and [settings.sessionDuration] of a parsed
    document; a document of another shape has neither property. *)
Definition mode_props (doc : Stored) : option Z * option Z :=
  match doc with
  | ModeDoc selectedISI sessionDuration => (selectedISI, sessionDuration)
  | _ => (None, None)
  end.

Definition loadCustomModeSettings (s : State) : State :=
  match getItem "pasatCustomModeSettings" s with
  | Some settings =>
    let s := set_customModeSettings
               (ModeSettings.mk (or_default (mode_props settings).1 3000)
                                (or_default (mode_props settings).2 20)) s in
    updateCustomModeUI s
  | None => s
  end.

Definition loadManualModeSettings (s : State) : State :=
  match getItem "pasatManualModeSettings" s with
  | Some settings =>
    set_manualModeSettings
      (ModeSettings.mk (or_default (mode_props settings).1 3000)
                       (or_default (mode_props settings).2 20)) s
  | None => s
  end.

Definition nback_prop (doc : Stored) : option Z :=
  match doc with NbackDoc value => value | _ => None end.

Definition loadNbackSettings (s : State) : State :=
  match getItem "pasatNbackSettings" s with
  | Some settings =>
    set_nbackSettings (Z.max 1 (Z.min 10 (or_default (nback_prop settings) 1))) s
  | None => s
  end.

Definition beep_props (doc : Stored) : option bool * option Q :=
  match doc with
  | BeepDoc enabled volume => (enabled, volume)
  | _ => (None, None)
  end.

Definition loadBeepSettings (s : State) : State :=
  match getItem "pasatBeepSettings" s with
  | Some settings =>
    set_beepSettings
      (BeepSettings.mk
         (or_false (beep_props settings).1)
         (Math_max 0 (Math_min 1 (or_defaultQ (beep_props settings).2 (1 # 2))))) s
  | None => s
  end.

Definition speed_prop (doc : Stored) : option Q :=
  match doc with SpeedDoc rate => rate | _ => None end.

Definition loadAudioSpeedSettings (s : State) : State :=
  match getItem "pasatAudioSpeedSettings" s with
  | Some settings =>
    set_audioSpeedSettings
      (Math_max 1 (Math_min (3 # 2) (or_defaultQ (speed_prop settings) 1))) s
  | None => s
  end.

Definition saveNbackSettings (s : State) : State :=
  setItem "pasatNbackSettings" (NbackDoc (Some (nbackSettings s))) s.

Definition saveCustomModeSettings (s : State) : State :=
  setItem "pasatCustomModeSettings"
    (ModeDoc (Some (ModeSettings.selectedISI (customModeSettings s)))
             (Some (ModeSettings.sessionDuration (customModeSettings s)))) s.

(** The script has no function for this one: the two manual-mode listeners
    write [localStorage.setItem('pasatManualModeSettings', ...)] in line. *)
Definition saveManualModeSettings (s : State) : State :=
  setItem "pasatManualModeSettings"
    (ModeDoc (Some (ModeSettings.selectedISI (manualModeSettings s)))
             (Some (ModeSettings.sessionDuration (manualModeSettings s)))) s.

Definition saveBeepSettings (s : State) : State :=
  setItem "pasatBeepSettings"
    (BeepDoc (Some (BeepSettings.enabled (beepSettings s)))
             (Some (BeepSettings.volume (beepSettings s)))) s.

Definition saveAudioSpeedSettings (s : State) : State :=
  setItem "pasatAudioSpeedSettings" (SpeedDoc (Some (audioSpeedSettings s))) s.

(** The loading part of the [DOMContentLoaded] listener. *)
Definition loadAll (s : State) : State :=
  let s := loadSessions s in
  let s := loadCustomModeSettings s in
  let s := loadManualModeSettings s in
  let s := loadNbackSettings s in
  let s := loadBeepSettings s in
  let s := loadAudioSpeedSettings s in
  let s := updateStandardModeUI s in
  set_nbackInput (Some (nbackSettings s)) s.

(** ** The listeners of the settings screen *)

Definition clickStandardMode (s : State) : State :=
  let s := set_isStandardMode true s in
  let s := set_isCustomMode false s in
  let s := set_isManualMode false s in
  let s := set_selectedISI (ModeSettings.selectedISI (standardModeSettings s)) s in
  let s := set_sessionDuration
             (ModeSettings.sessionDuration (standardModeSettings s)) s in
  updateStandardModeUI s.

Definition clickCustomMode (s : State) : State :=
  let s := set_isStandardMode false s in
  let s := set_isCustomMode true s in
  let s := set_isManualMode false s in
  let s := set_selectedISI (ModeSettings.selectedISI (customModeSettings s)) s in
  let s := set_sessionDuration
             (ModeSettings.sessionDuration (customModeSettings s)) s in
  updateCustomModeUI s.

Definition clickManualMode (s : State) : State :=
  let s := set_isStandardMode false s in
  let s := set_isCustomMode false s in
  let s := set_isManualMode true s in
  let s := set_selectedISI (ModeSettings.selectedISI (manualModeSettings s)) s in
  let s := set_sessionDuration
             (ModeSettings.sessionDuration (manualModeSettings s)) s in
  let s := updateManualModeUI s in
  if negb (selectedISI s =? 0) then set_currentISIValue (selectedISI s) s else s.

(** The click listener of the ISI button whose [data-isi] is [isiValue]. *)
Definition clickIsiButton (isiValue : Z) (s : State) : State :=
  if isiValue >=? 500 then
    let s := set_selectedISI (Z.max 500 isiValue) s in
    let s :=
      if isCustomMode s then
        let s := set_customModeSettings
                   (ModeSettings.mk (selectedISI s)
                      (ModeSettings.sessionDuration (customModeSettings s))) s in
        saveCustomModeSettings s
      else if isManualMode s then
        let s := set_manualModeSettings
                   (ModeSettings.mk (selectedISI s)
                      (ModeSettings.sessionDuration (manualModeSettings s))) s in
        saveManualModeSettings s
      else s in
    if isManualMode s then set_currentISIValue (selectedISI s) s else s
  else s.

Definition inputDurationSlider (value : Z) (s : State) : State :=
  let s := set_sessionDuration value s in
  let s := set_customModeSettings
             (ModeSettings.mk (ModeSettings.selectedISI (customModeSettings s))
                              (sessionDuration s)) s in
  saveCustomModeSettings s.

Definition inputManualDurationSlider (value : Z) (s : State) : State :=
  let s := set_sessionDuration value s in
  let s := set_manualModeSettings
             (ModeSettings.mk (ModeSettings.selectedISI (manualModeSettings s))
                              (sessionDuration s)) s in
  saveManualModeSettings s.

(** The [input] listener of the N-back field; [typed] is [parseInt] of the
    field, [None] for [NaN]. *)
Definition inputNback (typed : option Z) (s : State) : State :=
  let value := or_default typed 1 in
  let clampedValue := Z.max 1 (Z.min 10 value) in
  let s := if negb (clampedValue =? value) then set_nbackInput (Some clampedValue) s
           else set_nbackInput typed s in
  let s := set_nbackSettings clampedValue s in
  saveNbackSettings s.

Definition changeUseErrorBeep (checked : bool) (s : State) : State :=
  let s := set_beepSettings
             (BeepSettings.mk checked (BeepSettings.volume (beepSettings s))) s in
  saveBeepSettings s.

Definition inputBeepVolumeSlider (volume : Q) (s : State) : State :=
  let s := set_beepSettings
             (BeepSettings.mk (BeepSettings.enabled (beepSettings s)) volume) s in
  saveBeepSettings s.

Definition inputAudioSpeedSlider (rate : Q) (s : State) : State :=
  let s := set_audioSpeedSettings rate s in
  saveAudioSpeedSettings s.

(** ** Events of the host *)

(** What the page can be asked to do: a listener runs, or a pending
    callback is fired. [now] is the reading of [Date.now()] while the
    listener or callback runs and [r] the draw of [Math.random()]. *)
Inductive Event : Type :=
| DomContentLoaded
| SoundsLoaded
| ClickStandardMode
| ClickCustomMode
| ClickManualMode
| ClickIsiButton (isiValue : Z)
| InputDurationSlider (value : Z)
| InputManualDurationSlider (value : Z)
| InputNback (typed : option Z)
| ChangeUseErrorBeep (checked : bool)
| InputBeepVolumeSlider (volume : Q)
| InputAudioSpeedSlider (rate : Q)
| ChangeUseNumberPad (checked : bool)
| ClickStartTraining
| ClickEndTraining (now : Z)
| Fire (id : Z) (now : Z) (r : Q)
| TypeAnswer (text : FieldText) (now : Z)
| PressEnter (now : Z)
| PressPad (value : Z) (now : Z).

Definition pendingTask (id : Z) (s : State) : option Task :=
  snd <$> (snd <$> list_find (λ p, p.1 = id) (timers s)).

(** The host runs the pending callback [id]. A timeout and a settled
    playback leave the pending list; the interval stays armed. Settling a
    playback is [resolveOnce]: it clears the playing flag and resumes
    [presentNextNumber]. *)
Definition fire (id now : Z) (r : Q) (s : State) : State :=
  match pendingTask id s with
  | None => s
  | Some TickTask => updateTimer now s
  | Some PresentTask => presentNextNumber now r (clearTimeout id s)
  | Some (DeadlineTask trialId trialPresentationTime) =>
    deadlineCallback trialId trialPresentationTime now (clearTimeout id s)
  | Some SpeakDoneTask =>
    afterSpeak now (set_audioPlayInProgress false (clearTimeout id s))
  end.

(** The [change] listener of the number pad toggle. The script clears the
    surface that goes out of use when the training screen is showing, which
    is from [startSession] to [endSession]. *)
Definition changeUseNumberPad (checked : bool) (s : State) : State :=
  let s := set_useNumberPad checked s in
  if sessionActive s then
    if useNumberPad s then set_answerInput Empty s
    else set_selectedButton None s
  else s.

Definition step (e : Event) (s : State) : State :=
  match e with
  | DomContentLoaded => loadAll s
  | SoundsLoaded => set_howlReady true s
  | ClickStandardMode => clickStandardMode s
  | ClickCustomMode => clickCustomMode s
  | ClickManualMode => clickManualMode s
  | ClickIsiButton isiValue => clickIsiButton isiValue s
  | InputDurationSlider value => inputDurationSlider value s
  | InputManualDurationSlider value => inputManualDurationSlider value s
  | InputNback typed => inputNback typed s
  | ChangeUseErrorBeep checked => changeUseErrorBeep checked s
  | InputBeepVolumeSlider volume => inputBeepVolumeSlider volume s
  | InputAudioSpeedSlider rate => inputAudioSpeedSlider rate s
  | ChangeUseNumberPad checked => changeUseNumberPad checked s
  | ClickStartTraining => startSession s
  | ClickEndTraining now => endSession now s
  | Fire id now r => fire id now r s
  | TypeAnswer text now => onAnswerInput now (set_answerInput text s)
  | PressEnter now => onEnterKey now s
  | PressPad value now => handleButtonInteraction now value s
  end.

Definition run (events : list Event) (s : State) : State :=
  foldl (λ acc e, step e acc) s events.

(** The globals as the script declares them, over a given content of
    [localStorage]. *)
Definition initial (storage : Storage.t) : State :=
  {| howlReady := false;
     lastPresentedNumber := None;
     currentNumber := None;
     correctAnswer := Null;
     currentIntervalId := None;
     audioPlayInProgress := false;
     processingAnswer := false;
     nextPresentationTime := 0;
     forcePresentNextNumber := false;
     useNumberPad := false;
     answerProcessed := false;
     nbackValue := 1;
     numberSequence := [];
     currentTrialId := 0;
     nextNumberScheduled := false;
     trainingTimerId := None;
     currentISIValue := 3000;
     consecutiveCorrect := 0;
     consecutiveIncorrect := 0;
     sessionHistory := [];
     totalCorrect := 0;
     totalAttempts := 0;
     lowestISI := 3000;
     remainingTime := 20 * 60;
     sessionActive := false;
     isStandardMode := true;
     isCustomMode := false;
     isManualMode := false;
     standardModeSettings := ModeSettings.mk 3000 20;
     manualModeSettings := ModeSettings.mk 3000 20;
     customModeSettings := ModeSettings.mk 3000 20;
     selectedISI := 3000;
     sessionDuration := 20;
     allSessions := [];
     nbackSettings := 1;
     beepSettings := BeepSettings.mk false (1 # 2);
     audioSpeedSettings := 1;
     localStorage := storage;
     answerInput := Empty;
     selectedButton := None;
     nbackInput := None;
     timers := [];
     timerSeq := 1 |}.

(** ** Ways of looking at a state *)

(** The numbers that a trial resolution may change. *)
Definition counters (s : State) : Z * Z * Z * Z * Z * Z :=
  (totalAttempts s, totalCorrect s, consecutiveCorrect s, consecutiveIncorrect s,
   currentISIValue s, lowestISI s).

(** What the difficulty rule reads and writes. *)
Definition difficulty (s : State) : Z * Z * Z * bool :=
  (currentISIValue s, consecutiveCorrect s, consecutiveIncorrect s, isManualMode s).

(** The mode flags as the standard-mode button (and the script's own
    initial values) set them. *)
Definition standardModeOn (s : State) : bool :=
  isStandardMode s && negb (isCustomMode s) && negb (isManualMode s).

(** What decides whether a trial is open. *)
Definition trialView (s : State)
  : list Trial.t * list Z * Z * jsval * bool * bool :=
  (sessionHistory s, numberSequence s, currentTrialId s, correctAnswer s,
   answerProcessed s, processingAnswer s).

(** The trial [trialId] is the open trial of [s]: it is found under its id
    as the last entry of the history, it has no answer yet, it is the trial
    that the target [correctAnswer] belongs to, and no resolution is claimed
    or in flight. This is the situation that [presentNextNumber] leaves
    behind when it has pushed a trial. *)
Definition trialIsOpen (trialId : Z) (s : State) : bool :=
  match list_find (λ x, Trial.trialId x = trialId) (sessionHistory s) with
  | Some (i, x) =>
    (Z.of_nat i =? lastTrialIndex s)
      && is_null (Trial.userAnswer x)
      && negb (is_null (correctAnswer s))
      && strict_eq (Trial.correctAnswer x) (correctAnswer s)
      && negb (answerProcessed s)
      && negb (processingAnswer s)
  | None => false
  end.

(** The trial [trialId] has been scored. *)
Definition trialIsScored (trialId : Z) (s : State) : bool :=
  match list_find (λ x, Trial.trialId x = trialId) (sessionHistory s) with
  | Some (_, x) => match Trial.correct x with Some _ => true | None => false end
  | None => false
  end.

(** A transition that scores one trial, and one that scores nothing. *)
Definition resolvesTrial (s s' : State) : Prop :=
  totalAttempts s' = totalAttempts s + 1.

Definition leavesScores (s s' : State) : Prop :=
  counters s' = counters s ∧ sessionHistory s' = sessionHistory s.

(** One resolved trial: [resolution s correct s'] when a call of
    [processAnswer] in [s] succeeds and ends in [s'], or when the deadline
    callback scores a trial that is no longer the last one. [correct] is
    the verdict written on the trial. *)
Inductive resolution : State → bool → State → Prop :=
| resolution_processAnswer now userAnswer s s' x :
    processAnswer now userAnswer s = (true, s') →
    last (sessionHistory s') = Some x →
    resolution s (Trial.truthy_correct x) s'
| resolution_late trialId trialPresentationTime now s i x :
    answerProcessed s = false →
    processingAnswer s = false →
    list_find (λ y, Trial.trialId y = trialId) (sessionHistory s) = Some (i, x) →
    Trial.userAnswer x = Null →
    Z.of_nat i ≠ lastTrialIndex s →
    resolution s false (deadlineCallback trialId trialPresentationTime now s).

(** How the history may differ after an event of a running session: not at
    all, by new fields on one trial that had no answer, or by one more
    trial at the end. *)
Definition historyMoves (h h' : list Trial.t) : Prop :=
  h' = h
  ∨ (∃ j y y', h !! j = Some y ∧ Trial.userAnswer y = Null ∧ h' = <[j := y']> h)
  ∨ (∃ x, h' = h ++ [x]).

(** The events by which an answer is submitted. *)
Definition isAnswerEvent (e : Event) : bool :=
  match e with
  | TypeAnswer _ _ | PressEnter _ | PressPad _ _ => true
  | _ => false
  end.

(** * Example situations *)

(** A first-time visitor, the sounds loaded, starts a standard session.
    Handle 1 is the one-second interval and handle 2 the first
    presentation. *)
Definition started : State :=
  run [DomContentLoaded; SoundsLoaded; ClickStartTraining] (initial ∅).

(** The digit 4 is played from 1000 to 1500, then the digit 7 from 4500 to
    5000: trial 1 (answer 11) is open, handle 6 is the next presentation and
    handle 7 the deadline of trial 1, both due at 8000. *)
Definition trial1_open : State :=
  run [Fire 2 1000 (3 # 8); Fire 3 1500 0; Fire 4 4500 (6 # 8); Fire 5 5000 0] started.

(** Trial 1 is answered with 11 at 5600. *)
Definition trial1_answered : State :=
  run [TypeAnswer (Digits 11) 5600] trial1_open.

(** At 8000 the presentation timer fires first: the digit 2 is being played
    and trial 2 (answer 9) is the last entry, while the deadline of trial 1,
    handle 7, is still pending. *)
Definition trial2_presented : State :=
  run [Fire 6 8000 (1 # 8)] trial1_answered.

(** The same moment when trial 1 was given no answer. *)
Definition trial2_presented_unanswered : State :=
  run [Fire 6 8000 (1 # 8)] trial1_open.

(** The deadline of trial 1 has fired and the digit 2 has been played:
    trial 2 is open. Then trial 2 is answered with 9 and the digit 1 opens
    trial 3 (answer 3); trial 3 is answered and the digit 9 opens trial 4
    (answer 10). *)
Definition trial2_open : State :=
  run [Fire 7 8000 0; Fire 8 8500 0] trial2_presented.

Definition trial3_open : State :=
  run [TypeAnswer (Digits 9) 9000; Fire 9 11500 0; Fire 10 11500 0; Fire 11 12000 0]
      trial2_open.

Definition three_correct : State :=
  run [TypeAnswer (Digits 3) 12400; Fire 12 15000 (15 # 16); Fire 13 15000 0;
       Fire 14 15500 0] trial3_open.

(** The fourth correct answer in a row. *)
Definition four_correct : State :=
  run [TypeAnswer (Digits 10) 15800] three_correct.

(** The trainee stops the session at 6000, while trial 1 is open. *)
Definition stopped_early : State :=
  run [ClickEndTraining 6000] trial1_open.

(** A visitor whose stored custom settings carry an interval of 6000 ms
    picks the custom mode and starts. *)
Definition custom_6000 : State :=
  run [DomContentLoaded; SoundsLoaded; ClickCustomMode; ClickStartTraining]
      (initial {["pasatCustomModeSettings" := ModeDoc (Some 6000) (Some 20)]}).

(** The error beep is switched on and its volume slider pulled down to 0;
    then the page is loaded again over what was stored. *)
Definition muted : State :=
  run [DomContentLoaded; ChangeUseErrorBeep true; InputBeepVolumeSlider 0] (initial ∅).

Definition muted_reloaded : State :=
  run [DomContentLoaded] (initial (localStorage muted)).

(** [k] rounds in which the trainee gives no answer. In a round the
    presentation timer [handle] opens the next trial, the deadline
    [handle + 1] of the trial before it, due at the same time, fires next,
    and the playback, handle [handle + 2], ends half a second later and
    arms the two timers of the next round, [handle + 3] and [handle + 4]. *)
Fixpoint unattended (k : nat) (handle now : Z) : list Event :=
  match k with
  | O => []
  | S k' =>
    Fire handle now (4 # 8) :: Fire (handle + 1) now 0 :: Fire (handle + 2) (now + 500) 0
      :: unattended k' (handle + 3) (now + 5500)
  end.

(** A session left alone for 30 rounds, and for 50. *)
Definition unattended_30 : State := run (unattended 30 6 8000) trial1_open.
Definition unattended_50 : State := run (unattended 50 6 8000) trial1_open.

(** * The screens around the trial *)

(** What the script shows besides the trial itself is computed from the
    globals and written into the page. Each rendering function is carried
    here as the function from the globals to the values it writes. *)

(** ** Numbers as text *)

(** [z.toString()] and [`${z}`] of an integer. *)
Definition Number_toString (z : Z) : string := pretty z.

Fixpoint pad_with (n : nat) (c : ascii) (str : string) : string :=
  match n with
  | O => str
  | S n => String c (pad_with n c str)
  end.

(** [str.padStart(targetLength, c)] for a pad of one character. *)
Definition padStart (targetLength : nat) (c : ascii) (str : string) : string :=
  pad_with (targetLength - String.length str) c str.

(** The two decimal digits of a number from 0 to 99, tens first: the text
    that a clock face is expected to show. *)
Definition decimal_digit (d : Z) : ascii := ascii_of_nat (48 + Z.to_nat d).

Definition two_digits (z : Z) : string :=
  String (decimal_digit (z / 10)) (String (decimal_digit (z mod 10)) EmptyString).

(** [Math.min(...l)] on a list that is not empty. *)
Definition Math_min_of (l : list Z) : Z :=
  match l with
  | [] => 0
  | x :: rest => foldl Z.min x rest
  end.

(** [l.slice(-n)]: the last [n] entries. *)
Definition slice_last {A : Type} (n : nat) (l : list A) : list A :=
  drop (length l - n) l.

(** ** The timer face *)

Module TimerDisplay.
(** [progress] is the percentage of the timer circle; it is no number
    ([None]) when the session lasts zero minutes. *)
Record t := mk {
  minutesLeft : string;
  secondsLeft : string;
  progress : option Q
}.
End TimerDisplay.


(** ** The result screen *)

Module ResultsDisplay.
Record t := mk {
  correctCount : Z;
  totalCount : Z;
  accuracyRate : Z;
  minISI : Z
}.
End ResultsDisplay.

(** The statistics that [endSession] writes on the result screen. *)
Definition endSessionStats (s : State) : ResultsDisplay.t :=
  let accuracy :=
    if 0 <? totalAttempts s
    then Math_round
           (Number_mul (Number_div (inject_Z (totalCorrect s))
                                   (inject_Z (totalAttempts s))) 100)
    else 0 in
  ResultsDisplay.mk (totalCorrect s) (totalAttempts s) accuracy (lowestISI s).

Module HistoryBlock.
(** One entry of the block list of [updateHistory]; [passed] is the test
    [accuracyInBlock >= 70] that picks the colour of the entry. *)
Record t := mk {
  startTrial : Z;
  endTrial : Z;
  correctInBlock : Z;
  totalInBlock : Z;
  accuracyInBlock : Z;
  lowestBlockISI : Z;
  passed : bool
}.
End HistoryBlock.

(** The loop [for (let i = 0; i < sessionHistory.length; i += 10)
    blocks.push(sessionHistory.slice(i, i + 10))], entered at index [i].
    The loop ends within [length h] rounds; [fuel] bounds the rounds. *)
Fixpoint blocks_from (fuel i : nat) (h : list Trial.t) : list (list Trial.t) :=
  match fuel with
  | O => []
  | S fuel =>
    if Z.of_nat i <? Z.of_nat (length h)
    then take 10 (drop i h) :: blocks_from fuel (i + 10) h
    else []
  end.

Definition blocks (h : list Trial.t) : list (list Trial.t) :=
  blocks_from (length h) 0 h.

(** The body of [blocks.forEach((block, index) => ...)]. *)
Definition blockSummary (index : nat) (block : list Trial.t) : HistoryBlock.t :=
  let startTrial := Z.of_nat index * 10 + 1 in
  let endTrial := startTrial + Z.of_nat (length block) - 1 in
  let correctInBlock :=
    Z.of_nat (length (filter (λ trial, Trial.truthy_correct trial) block)) in
  let totalInBlock := Z.of_nat (length block) in
  let accuracyInBlock :=
    if 0 <? totalInBlock
    then Math_round
           (Number_mul (Number_div (inject_Z correctInBlock) (inject_Z totalInBlock))
                       100)
    else 0 in
  let lowestBlockISI := Math_min_of (map Trial.isi block) in
  HistoryBlock.mk startTrial endTrial correctInBlock totalInBlock accuracyInBlock
    lowestBlockISI (accuracyInBlock >=? 70).

(** [updateHistory]: the entries it appends to the history container. *)
Definition updateHistory (s : State) : list HistoryBlock.t :=
  imap blockSummary (blocks (sessionHistory s)).

(** ** The progress screen *)

(** [formatTime(milliseconds)]. *)
Definition formatTime (milliseconds : Z) : string :=
  let totalSeconds := milliseconds / 1000 in
  let minutes := totalSeconds / 60 in
  let seconds := Z.rem totalSeconds 60 in
  Number_toString minutes +:+ ":" +:+ padStart 2 "0"%char (Number_toString seconds).

#[global] Instance ModeName_eq_dec : EqDecision ModeName.
Proof. solve_decision. Defined.

Module ProgressDisplay.
(** What [updateProgressDisplay] writes when there is a valid session:
    the summary figures, the list of recent sessions and the sessions of
    the chart. *)
Record t := mk {
  totalSessions : Z;
  totalQuestions : Z;
  avgAccuracy : Z;
  avgResponseTime : Z;
  bestAccuracy : Z;
  totalTime : string;
  avgSessionTime : string;
  recentSessions : list SessionData.t;
  last10Sessions : list SessionData.t
}.
End ProgressDisplay.

(** The three outcomes of [updateProgressDisplay]; the first two show
    zeros and a message. *)
Inductive ProgressView : Type :=
| NoSessionsYet
| NoValidSessions
| Progress (d : ProgressDisplay.t).

(** The sessions that [updateProgressDisplay] counts; [selectedMode] is
    the value of the mode filter, [None] for [all]. *)
Definition validSessions (selectedMode : option ModeName) (s : State)
  : list SessionData.t :=
  let validSessions :=
    filter (λ session, 50 ≤ SessionData.totalAttempts session) (allSessions s) in
  match selectedMode with
  | None => validSessions
  | Some m => filter (λ session, SessionData.mode session = m) validSessions
  end.

Definition updateProgressDisplay (selectedMode : option ModeName) (s : State)
  : ProgressView :=
  if Z.of_nat (length (allSessions s)) =? 0 then NoSessionsYet
  else
    let validSessions := validSessions selectedMode s in
    if Z.of_nat (length validSessions) =? 0 then NoValidSessions
    else
      let totalSessions := Z.of_nat (length validSessions) in
      let totalQuestions := sumZ (map SessionData.totalAttempts validSessions) in
      let weightedAccuracy :=
        sumZ (map (λ session, SessionData.accuracy session
                              * SessionData.totalAttempts session) validSessions) in
      let avgAccuracy :=
        if 0 <? totalQuestions
        then Math_round (inject_Z weightedAccuracy / inject_Z totalQuestions)%Q
        else 0 in
      let avgResponseTime :=
        if 0 <? Z.of_nat (length validSessions)
        then Math_round
               (inject_Z (sumZ (map SessionData.averageResponseTime validSessions))
                / inject_Z (Z.of_nat (length validSessions)))%Q
        else 0 in
      let bestAccuracy :=
        if 0 <? Z.of_nat (length validSessions)
        then Math_max_of (map SessionData.accuracy validSessions)
        else 0 in
      let totalTime := sumZ (map SessionData.sessionDuration validSessions) in
      let avgSessionTime :=
        if 0 <? Z.of_nat (length validSessions)
        then Math_round (inject_Z totalTime
                         / inject_Z (Z.of_nat (length validSessions)))%Q
        else 0 in
      Progress
        (ProgressDisplay.mk totalSessions totalQuestions avgAccuracy avgResponseTime
           bestAccuracy (formatTime totalTime) (formatTime avgSessionTime)
           (reverse (slice_last 10 validSessions))
           (slice_last 10 validSessions)).

(** [getWeeklyProgress] and [getMonthlyProgress], when the clock reads
    [now]. *)
Definition getWeeklyProgress (now : Z) (s : State) : list SessionData.t :=
  let oneWeekAgo := now - 7 * 24 * 60 * 60 * 1000 in
  filter (λ session, SessionData.date session > oneWeekAgo) (allSessions s).

Definition getMonthlyProgress (now : Z) (s : State) : list SessionData.t :=
  let oneMonthAgo := now - 30 * 24 * 60 * 60 * 1000 in
  filter (λ session, SessionData.date session > oneMonthAgo) (allSessions s).

Definition removeItem (key : string) (s : State) : State :=
  set_localStorage (delete key (localStorage s)) s.

(** [clearProgressData]; [confirmed] is the visitor's answer to the
    [confirm] dialog. *)
Definition clearProgressData (confirmed : bool) (s : State) : State :=
  if confirmed then
    let s := set_allSessions [] s in
    removeItem "pasatSessions" s
  else s.

(** ** Training streaks *)

Module Streaks.
Record t := mk {
  currentStreak : Z;
  longestStreak : Z;
  totalTrainingDays : Z;
  lastTrainingDate : option string
}.
End Streaks.

(** [[...new Set(l)]]: the first occurrence of every entry, in order. *)
Definition Set_of (l : list string) : list string :=
  foldl (λ acc x, if decide (x ∈ acc) then acc else acc ++ [x]) [] l.

(** The order of [Array.prototype.sort] without a comparator, on strings:
    by code units. *)
Definition string_le (a b : string) : Prop := String.leb a b = true.

#[global] Instance string_le_dec : RelDecision string_le.
Proof. intros a b. unfold string_le. apply _. Defined.

(** The order of the comparator [(a, b) => new Date(a.date) - new Date(b.date)]. *)
Definition date_le (a b : SessionData.t) : Prop :=
  SessionData.date a ≤ SessionData.date b.

#[global] Instance date_le_dec : RelDecision date_le.
Proof. intros a b. unfold date_le. apply _. Defined.

Module CumulativeStats.
Record t := mk {
  cumulativeSessions : Z;
  cumulativeQuestions : Z;
  cumulativeAccuracy : Z;
  bestSessionAccuracy : Z;
  currentStreak : Z;
  longestStreak : Z;
  totalTrainingDays : Z
}.
End CumulativeStats.

Section calendar.

(** The calendar of the host, in the visitor's time zone: [toDateString t]
    is [new Date(t).toDateString()] for the instant [t], and [Date_parse]
    gives the instant of [new Date(text)] for such a text. *)
Variable toDateString : Z → string.
Variable Date_parse : string → Z.

(** One round of the streak loop over [uniqueDates]; the accumulator is
    [(longestStreak, tempStreak, lastDate)]. *)
Definition streakStep (acc : Z * Z * option Z) (text : string)
  : Z * Z * option Z :=
  let '(longestStreak, tempStreak, lastDate) := acc in
  let currentDate := Date_parse text in
  let tempStreak :=
    match lastDate with
    | None => 1
    | Some lastDate =>
      let daysDiff := (currentDate - lastDate) / (1000 * 60 * 60 * 24) in
      if daysDiff =? 1 then tempStreak + 1 else 1
    end in
  (Z.max longestStreak tempStreak, tempStreak, Some currentDate).

(** [calculateTrainingStreaks], when the clock reads [now]. *)
Definition calculateTrainingStreaks (now : Z) (s : State) : Streaks.t :=
  if Z.of_nat (length (allSessions s)) =? 0 then Streaks.mk 0 0 0 None
  else
    let sortedSessions :=
      merge_sort date_le (allSessions s) in
    let uniqueDates :=
      merge_sort string_le
        (Set_of (map (λ session, toDateString (SessionData.date session))
                     sortedSessions)) in
    let totalTrainingDays := Z.of_nat (length uniqueDates) in
    let lastTrainingDate := last uniqueDates in
    let '(longestStreak, tempStreak, _) :=
      foldl streakStep (0, 0, None) uniqueDates in
    let currentStreak :=
      match last uniqueDates with
      | Some text =>
        let today := toDateString now in
        let mostRecentDate := Date_parse text in
        let daysSinceLastTraining :=
          (Date_parse today - mostRecentDate) / (1000 * 60 * 60 * 24) in
        if daysSinceLastTraining =? 0 then tempStreak
        else if daysSinceLastTraining =? 1 then tempStreak
        else 0
      | None => 0
      end in
    Streaks.mk currentStreak longestStreak totalTrainingDays lastTrainingDate.

(** [updateCumulativeStats], when the clock reads [now]. *)
Definition updateCumulativeStats (now : Z) (s : State) : CumulativeStats.t :=
  let totalSessions := Z.of_nat (length (allSessions s)) in
  let totalQuestions := sumZ (map SessionData.totalAttempts (allSessions s)) in
  let totalCorrect := sumZ (map SessionData.totalCorrect (allSessions s)) in
  let cumulativeAccuracy :=
    if 0 <? totalQuestions
    then Math_round
           (Number_mul (Number_div (inject_Z totalCorrect) (inject_Z totalQuestions))
                       100)
    else 0 in
  let bestSessionAccuracy :=
    if 0 <? Z.of_nat (length (allSessions s))
    then Math_max_of (map SessionData.accuracy (allSessions s))
    else 0 in
  let streakData := calculateTrainingStreaks now s in
  CumulativeStats.mk totalSessions totalQuestions cumulativeAccuracy
    bestSessionAccuracy (Streaks.currentStreak streakData)
    (Streaks.longestStreak streakData) (Streaks.totalTrainingDays streakData).

End calendar.

(** ** The colour theme *)

Module Theme.
(** The theme lives in two places that nothing else of the script reads
    or writes: the attribute [data-theme] of the document element ([None]
    when the attribute is absent) and the item [pasatTheme] of
    [localStorage], which is a plain string. *)
Record t := mk {
  dataTheme : option string;
  pasatTheme : option string
}.
End Theme.

Definition loadThemePreference (x : Theme.t) : Theme.t :=
  let savedTheme := Theme.pasatTheme x in
  if decide (savedTheme = Some "alternative") then
    Theme.mk (Some "alternative") (Theme.pasatTheme x)
  else if decide (savedTheme = Some "dark") then
    Theme.mk (Some "dark") (Theme.pasatTheme x)
  else Theme.mk None (Theme.pasatTheme x).

Definition saveThemePreference (theme : string) (x : Theme.t) : Theme.t :=
  Theme.mk (Theme.dataTheme x) (Some theme).

(** [toggleTheme]; an absent attribute and the empty string are falsy. *)
Definition toggleTheme (x : Theme.t) : Theme.t :=
  let currentTheme := Theme.dataTheme x in
  if decide (currentTheme = None ∨ currentTheme = Some ""
             ∨ currentTheme = Some "default") then
    let newTheme := "alternative" in
    saveThemePreference newTheme (Theme.mk (Some "alternative") (Theme.pasatTheme x))
  else if decide (currentTheme = Some "alternative") then
    let newTheme := "dark" in
    saveThemePreference newTheme (Theme.mk (Some "dark") (Theme.pasatTheme x))
  else
    let newTheme := "default" in
    saveThemePreference newTheme (Theme.mk None (Theme.pasatTheme x)).

(** The page opened over what a former visit left in [localStorage]. *)
Definition openTheme (pasatTheme : option string) : Theme.t :=
  loadThemePreference (Theme.mk None pasatTheme).

(** ** More ways of looking at a state *)

(** What decides whether the presentation goes on: the guard flag of
    [presentNextNumber], the session flag, and the digits played so far. *)
Definition pace (s : State) : bool * bool * list Z :=
  (nextNumberScheduled s, sessionActive s, numberSequence s).

(** No presentation can go through: the guard flag is set, or no session
    is running. *)
Definition stalled (s : State) : Prop :=
  nextNumberScheduled s = true ∨ sessionActive s = false.

(** The two score counters. *)
Definition scoreboard (s : State) : Z * Z := (totalCorrect s, totalAttempts s).

(** How an event may move the score: not at all, by an attempt that is
    not correct, or by a correct attempt. *)
Definition scoreMoves (a b : Z * Z) : Prop :=
  b = a ∨ b = (a.1, a.2 + 1) ∨ b = (a.1 + 1, a.2 + 1).

(** A summary as the script logs it: at least 50 attempts, no more correct
    answers than attempts, an accuracy from 0 to 100. *)
Definition soundSummary (x : SessionData.t) : Prop :=
  50 ≤ SessionData.totalAttempts x
  ∧ 0 ≤ SessionData.totalCorrect x ≤ SessionData.totalAttempts x
  ∧ 0 ≤ SessionData.accuracy x ≤ 100.

(** The stored session list, when there is one, holds sound summaries. *)
Definition soundStorage (storage : Storage.t) : Prop :=
  ∀ sessions, storage !! "pasatSessions" = Some (SessionsDoc sessions) →
              Forall soundSummary sessions.

(** The session list is the one that the next visit will load. *)
Definition logInSync (s : State) : Prop :=
  allSessions (loadSessions (initial (localStorage s))) = allSessions s.

(** What [addSessionToHistory] reads. *)
Definition summaryInputs (s : State) :=
  (sessionHistory s, totalCorrect s, totalAttempts s, sessionDuration s, lowestISI s,
   isStandardMode s, isManualMode s, nbackValue s, allSessions s, localStorage s).

(** The session log and its stored copy. *)
Definition sessionLog (s : State) : list SessionData.t * option Stored :=
  (allSessions s, getItem "pasatSessions" s).

Definition modeFlags (s : State) : bool * bool * bool :=
  (isStandardMode s, isCustomMode s, isManualMode s).

(** * Properties of the engine *)

Ltac open_state s :=
  destruct s as
    [howlReady_ lastPresentedNumber_ currentNumber_ correctAnswer_ currentIntervalId_
     audioPlayInProgress_ processingAnswer_ nextPresentationTime_
     forcePresentNextNumber_ useNumberPad_ answerProcessed_ nbackValue_
     numberSequence_ currentTrialId_ nextNumberScheduled_ trainingTimerId_
     currentISIValue_ consecutiveCorrect_ consecutiveIncorrect_ sessionHistory_
     totalCorrect_ totalAttempts_ lowestISI_ remainingTime_ sessionActive_
     isStandardMode_ isCustomMode_ isManualMode_ standardModeSettings_
     manualModeSettings_ customModeSettings_ selectedISI_ sessionDuration_
     allSessions_ nbackSettings_ beepSettings_ audioSpeedSettings_ localStorage_
     answerInput_ selectedButton_ nbackInput_ timers_ timerSeq_].

(** ** Lists *)

Lemma last_index_of_last {A} (l : list A) (x : A) :
  last l = Some x → l !! Z.to_nat (Z.of_nat (length l) - 1) = Some x.
Proof.
  rewrite last_lookup. intros H.
  replace (Z.to_nat (Z.of_nat (length l) - 1)) with (pred (length l)) by lia. done.
Qed.

Lemma last_insert_last {A} (l : list A) (x y : A) :
  last l = Some x → last (<[Z.to_nat (Z.of_nat (length l) - 1) := y]> l) = Some y.
Proof.
  intros H. rewrite last_lookup, length_insert.
  replace (Z.to_nat (Z.of_nat (length l) - 1)) with (pred (length l)) by lia.
  apply list_lookup_insert_eq.
  destruct l; [discriminate | simpl; lia].
Qed.


(** ** The store *)

Lemma Storage_lookup_sessions (storage : Storage.t) :
  storage !! "pasatSessions" = SessionsDoc <$> Storage.pasatSessions storage.
Proof. reflexivity. Qed.

Lemma Storage_lookup_insert_sessions sessions (storage : Storage.t) :
  <["pasatSessions" := SessionsDoc sessions]> storage !! "pasatSessions"
  = Some (SessionsDoc sessions).
Proof. reflexivity. Qed.

Lemma Storage_lookup_insert_eq key doc (storage : Storage.t) :
  key ≠ "pasatSessions" → <[key := doc]> storage !! key = Some doc.
Proof.
  intros Hk. unfold lookup, insert, Storage_lookup, Storage_insert.
  rewrite !decide_False by done. cbn. apply lookup_insert_eq.
Qed.

Lemma Storage_lookup_insert_ne key key' doc (storage : Storage.t) :
  key ≠ key' → <[key := doc]> storage !! key' = storage !! key'.
Proof.
  intros Hk. unfold lookup, insert, Storage_lookup, Storage_insert.
  destruct (decide (key = "pasatSessions")) as [->|]; destruct (decide (key' = _));
    try congruence.
  - by destruct doc.
  - done.
  - cbn. by apply lookup_insert_ne.
Qed.

Lemma Storage_lookup_delete_eq key (storage : Storage.t) :
  delete key storage !! key = None.
Proof.
  unfold lookup, delete, Storage_lookup, Storage_delete.
  destruct (decide (key = "pasatSessions")); [done|]. cbn. apply lookup_delete_eq.
Qed.

Lemma Storage_lookup_delete_ne key key' (storage : Storage.t) :
  key ≠ key' → delete key storage !! key' = storage !! key'.
Proof.
  intros Hk. unfold lookup, delete, Storage_lookup, Storage_delete.
  destruct (decide (key = "pasatSessions")) as [->|]; destruct (decide (key' = _));
    try congruence; try done.
  cbn. by apply lookup_delete_ne.
Qed.

(** ** Double-precision arithmetic *)

Lemma pow2_pos e : (0 < 2 ^ e)%Q.
Proof. by apply Qpower_0_lt. Qed.

Lemma pow2_add a b : (2 ^ (a + b) == 2 ^ a * 2 ^ b)%Q.
Proof. by apply Qpower_plus. Qed.

Lemma pow2_le a b : a ≤ b → (2 ^ a <= 2 ^ b)%Q.
Proof. intros. by apply Qpower_le_compat_l. Qed.

Lemma pow2_lt_inv a b : (2 ^ a < 2 ^ b)%Q → a < b.
Proof.
  intros H. destruct (Z.lt_ge_cases a b) as [|Hge]; [done|].
  apply pow2_le in Hge. lra.
Qed.

Lemma pow2_Z n : 0 ≤ n → (inject_Z (2 ^ n) == 2 ^ n)%Q.
Proof. intros. by rewrite Zpower_Qpower. Qed.

Lemma pow2_split a b : (2 ^ a == 2 ^ (a - b) * 2 ^ b)%Q.
Proof. rewrite <- pow2_add. by replace (a - b + b) with a by lia. Qed.

Lemma Q_as_quotient (x : Q) : (x * inject_Z (Z.pos (Qden x)) == inject_Z (Qnum x))%Q.
Proof.
  destruct x as [n d]. unfold Qeq, Qmult, inject_Z. cbn. lia.
Qed.

Lemma ilog2_spec x : (0 < x)%Q → (2 ^ ilog2 x <= x)%Q ∧ (x < 2 ^ (ilog2 x + 1))%Q.
Proof.
  intros Hx.
  pose proof (Q_as_quotient x) as Hq.
  assert (Hn : 0 < Qnum x) by (destruct x as [n d]; unfold Qlt in Hx; cbn in *; lia).
  set (n := Qnum x) in *. set (d := Z.pos (Qden x)) in *.
  assert (Hd : 0 < d) by done.
  destruct (Z.log2_spec n Hn) as [Hn1 Hn2].
  destruct (Z.log2_spec d Hd) as [Hd1 Hd2].
  pose proof (Z.log2_nonneg n) as Hln. pose proof (Z.log2_nonneg d) as Hld.
  set (ln := Z.log2 n) in *. set (ld := Z.log2 d) in *.
  assert (Qn1 : (2 ^ ln <= inject_Z n)%Q) by (rewrite <- pow2_Z by lia; by rewrite <- Zle_Qle).
  assert (Qn2 : (inject_Z n < 2 ^ (ln + 1))%Q)
    by (rewrite <- pow2_Z by lia; by rewrite <- Zlt_Qlt).
  assert (Qd1 : (2 ^ ld <= inject_Z d)%Q) by (rewrite <- pow2_Z by lia; by rewrite <- Zle_Qle).
  assert (Qd2 : (inject_Z d < 2 ^ (ld + 1))%Q)
    by (rewrite <- pow2_Z by lia; by rewrite <- Zlt_Qlt).
  assert (Qd : (0 < inject_Z d)%Q) by (change 0%Q with (inject_Z 0); by rewrite <- Zlt_Qlt).
  set (k := ln - ld).
  assert (Hup : (x < 2 ^ (k + 1))%Q).
  { apply (Qmult_lt_r _ _ (inject_Z d)); [done|]. rewrite Hq.
    eapply Qlt_le_trans; [exact Qn2|].
    rewrite (pow2_split (ln + 1) ld). replace (ln + 1 - ld) with (k + 1) by lia.
    apply Qmult_le_l; [apply pow2_pos | done]. }
  assert (Hlow : (2 ^ (k - 1) < x)%Q).
  { apply (Qmult_lt_r _ _ (inject_Z d)); [done|]. rewrite Hq.
    eapply Qlt_le_trans; [|exact Qn1].
    rewrite (pow2_split ln (ld + 1)). replace (ln - (ld + 1)) with (k - 1) by lia.
    apply Qmult_lt_l; [apply pow2_pos | done]. }
  unfold ilog2. fold n d ln ld k. cbv zeta.
  destruct (Qle_bool (2 ^ k) x) eqn:E.
  - apply Qle_bool_iff in E. done.
  - assert (¬ (2 ^ k <= x)%Q) by (rewrite <- Qle_bool_iff; by rewrite E).
    replace (k - 1 + 1) with k by lia. split; [lra|lra].
Qed.

Lemma ilog2_unique x k : (2 ^ k <= x)%Q → (x < 2 ^ (k + 1))%Q → ilog2 x = k.
Proof.
  intros H1 H2.
  assert (Hx : (0 < x)%Q) by (pose proof (pow2_pos k); lra).
  destruct (ilog2_spec x Hx) as [H3 H4].
  assert (ilog2 x < k + 1) by (apply pow2_lt_inv; lra).
  assert (k < ilog2 x + 1) by (apply pow2_lt_inv; lra).
  lia.
Qed.

Lemma ilog2_comp x y : (0 < x)%Q → (x == y)%Q → ilog2 x = ilog2 y.
Proof.
  intros Hx E. symmetry. destruct (ilog2_spec x Hx).
  apply ilog2_unique; by rewrite <- E.
Qed.

Lemma round_half_even_bounds x :
  Qfloor x ≤ round_half_even x ≤ Qfloor x + 1.
Proof. unfold round_half_even. cbv zeta. repeat case_match; lia. Qed.

Lemma round_half_even_ge x z : (inject_Z z <= x)%Q → z ≤ round_half_even x.
Proof.
  intros H. apply Qfloor_resp_le in H. rewrite Qfloor_Z in H.
  pose proof (round_half_even_bounds x). lia.
Qed.

Lemma round_half_even_below x z :
  (x < inject_Z z + (1 # 2))%Q → round_half_even x ≤ z.
Proof.
  intros H.
  pose proof (Qfloor_le x) as Hf. pose proof (round_half_even_bounds x) as Hb.
  assert (Hfz : Qfloor x ≤ z).
  { apply Z.lt_succ_r. rewrite Zlt_Qlt. unfold Z.succ. rewrite inject_Z_plus.
    change (inject_Z 1) with 1%Q. lra. }
  destruct (Z.eq_dec (Qfloor x) z) as [E|]; [|lia].
  unfold round_half_even. cbv zeta.
  destruct (Qcompare_spec (x - inject_Z (Qfloor x)) (1 # 2)) as [H1|H1|H1]; [ |lia| ].
  - rewrite E in H1. lra.
  - rewrite E in H1. lra.
Qed.

Lemma round_half_even_le x z : (x <= inject_Z z)%Q → round_half_even x ≤ z.
Proof. intros H. apply round_half_even_below. lra. Qed.

(** A positive [x] rounds in units of [2 ^ (ilog2 x - 52)]: 53 bits of
    significand, or the units [2 ^ -1074] of the subnormals. *)
Lemma double_positive x :
  (0 < x)%Q →
  (double x
   == inject_Z (round_half_even (x / 2 ^ Z.max (ilog2 x - 52) (-1074)))
      * 2 ^ Z.max (ilog2 x - 52) (-1074))%Q.
Proof.
  intros Hx. unfold double.
  destruct (Qeq_bool x 0) eqn:E; [apply Qeq_bool_iff in E; lra|].
  cbv zeta. rewrite (ilog2_comp (Qabs x) x); [reflexivity| |].
  - rewrite Qabs_pos; lra.
  - apply Qabs_pos. lra.
Qed.

Lemma double_zero x : (x == 0)%Q → double x = 0%Q.
Proof. intros E. unfold double. apply Qeq_bool_iff in E. by rewrite E. Qed.

Lemma double_nonneg x : (0 <= x)%Q → (0 <= double x)%Q.
Proof.
  intros Hx. destruct (Qeq_dec x 0) as [E|E]; [by rewrite double_zero|].
  assert (H0 : (0 < x)%Q) by lra.
  rewrite (double_positive x H0).
  set (e := Z.max _ _). pose proof (pow2_pos e).
  apply Qmult_le_0_compat; [|lra].
  change 0%Q with (inject_Z 0). rewrite <- Zle_Qle.
  apply round_half_even_ge. apply Qle_shift_div_l; [done|].
  change (inject_Z 0) with 0%Q. lra.
Qed.

(** Rounding does not step over a number that these units can
    express. *)
Lemma double_le_dyadic x z k :
  (0 < x)%Q → -1074 ≤ k → (x < 2 ^ (k + 53))%Q →
  (x <= inject_Z z * 2 ^ k)%Q → (double x <= inject_Z z * 2 ^ k)%Q.
Proof.
  intros Hx Hk Hlt Hle.
  rewrite (double_positive x Hx).
  destruct (ilog2_spec x Hx) as [Hl _].
  assert (ilog2 x < k + 53) by (apply pow2_lt_inv; lra).
  set (e := Z.max (ilog2 x - 52) (-1074)).
  assert (He : e ≤ k) by lia.
  pose proof (pow2_pos e) as Hpe.
  assert (Hz : (inject_Z z * 2 ^ k == inject_Z (z * 2 ^ (k - e)) * 2 ^ e)%Q).
  { rewrite inject_Z_mult, pow2_Z by lia. rewrite (pow2_split k e). ring. }
  rewrite Hz. apply Qmult_le_compat_r; [|lra].
  rewrite <- Zle_Qle. apply round_half_even_le.
  apply Qle_shift_div_r; [done|]. by rewrite <- Hz.
Qed.

Lemma double_ge_dyadic x z k :
  (0 < x)%Q → -1074 ≤ k → (x < 2 ^ (k + 53))%Q →
  (inject_Z z * 2 ^ k <= x)%Q → (inject_Z z * 2 ^ k <= double x)%Q.
Proof.
  intros Hx Hk Hlt Hle.
  rewrite (double_positive x Hx).
  destruct (ilog2_spec x Hx) as [Hl _].
  assert (ilog2 x < k + 53) by (apply pow2_lt_inv; lra).
  set (e := Z.max (ilog2 x - 52) (-1074)).
  assert (He : e ≤ k) by lia.
  pose proof (pow2_pos e) as Hpe.
  assert (Hz : (inject_Z z * 2 ^ k == inject_Z (z * 2 ^ (k - e)) * 2 ^ e)%Q).
  { rewrite inject_Z_mult, pow2_Z by lia. rewrite (pow2_split k e). ring. }
  rewrite Hz. apply Qmult_le_compat_r; [|lra].
  rewrite <- Zle_Qle. apply round_half_even_ge.
  apply Qle_shift_div_l; [done|]. by rewrite <- Hz.
Qed.

(** In particular it does not step over an integer below [2 ^ 53]. *)
Lemma double_le_Z x z :
  (0 <= x)%Q → (x < 2 ^ 53)%Q → (x <= inject_Z z)%Q → (double x <= inject_Z z)%Q.
Proof.
  intros Hx Hlt Hle. destruct (Qeq_dec x 0) as [E|E].
  - rewrite double_zero by done. lra.
  - pose proof (double_le_dyadic x z 0 ltac:(lra) ltac:(lia) Hlt) as H.
    change (2 ^ 0)%Q with 1%Q in H. rewrite Qmult_1_r in H. by apply H.
Qed.

Lemma double_ge_Z x z :
  (0 <= x)%Q → (x < 2 ^ 53)%Q → (inject_Z z <= x)%Q → (inject_Z z <= double x)%Q.
Proof.
  intros Hx Hlt Hle. destruct (Qeq_dec x 0) as [E|E].
  - rewrite double_zero by done. lra.
  - pose proof (double_ge_dyadic x z 0 ltac:(lra) ltac:(lia) Hlt) as H.
    change (2 ^ 0)%Q with 1%Q in H. rewrite Qmult_1_r in H. by apply H.
Qed.

(** A double below 1 is at most [1 - 2 ^ -53]. *)
Lemma double_below_one r :
  is_double r → (0 <= r)%Q → (r < 1)%Q →
  (r <= 9007199254740991 # 9007199254740992)%Q.
Proof.
  intros Hd H0 H1.
  destruct (Qlt_le_dec r (1 # 2)) as [Hs|Hh]; [lra|].
  assert (Hx : (0 < r)%Q) by lra.
  assert (Hl : ilog2 r = -1) by (apply ilog2_unique; [exact Hh | exact H1]).
  unfold is_double in Hd. rewrite (double_positive r Hx), Hl in Hd.
  change (Z.max (-1 - 52) (-1074)) with (-53) in Hd.
  set (m := round_half_even _) in Hd.
  change (2 ^ (-53))%Q with (1 # 9007199254740992)%Q in Hd.
  assert (Hm : m < 9007199254740992).
  { rewrite Zlt_Qlt. change (inject_Z 9007199254740992) with (9007199254740992 # 1)%Q. lra. }
  assert (Hm' : (inject_Z m <= inject_Z 9007199254740991)%Q) by (rewrite <- Zle_Qle; lia).
  change (inject_Z 9007199254740991) with (9007199254740991 # 1)%Q in Hm'. lra.
Qed.

(** The product of a draw by 9 rounds to a double below 9. *)
Lemma draw_times_nine r :
  (0 <= r)%Q → (r <= 9007199254740991 # 9007199254740992)%Q →
  0 ≤ Qfloor (double (r * 9)) ≤ 8.
Proof.
  intros H0 H1. set (x := (r * 9)%Q).
  assert (Hx0 : (0 <= x)%Q) by (unfold x; lra).
  split.
  { change 0 with (Qfloor 0). apply Qfloor_resp_le. by apply double_nonneg. }
  assert (Hlt : (double x < 9)%Q); [|].
  { destruct (Qlt_le_dec x 8) as [Hs|Hh].
    - assert ((double x <= inject_Z 8)%Q).
      { apply double_le_Z; [done| |].
        + change (2 ^ 53)%Q with (9007199254740992 # 1)%Q. lra.
        + change (inject_Z 8) with 8%Q. lra. }
      change (inject_Z 8) with 8%Q in *. lra.
    - assert (Hx : (0 < x)%Q) by lra.
      assert (Hl : ilog2 x = 3).
      { apply ilog2_unique.
        - change (2 ^ 3)%Q with 8%Q. done.
        - change (2 ^ (3 + 1))%Q with 16%Q. unfold x. lra. }
      rewrite (double_positive x Hx), Hl.
      change (Z.max (3 - 52) (-1074)) with (-49).
      change (2 ^ (-49))%Q with (1 # 562949953421312)%Q.
      assert (Hm : round_half_even (x / (1 # 562949953421312)) ≤ 5066549580791807).
      { apply round_half_even_below.
        change (inject_Z 5066549580791807) with (5066549580791807 # 1)%Q.
        assert (E : (x / (1 # 562949953421312) == x * (562949953421312 # 1))%Q)
          by (field).
        rewrite E. unfold x. lra. }
      rewrite Zle_Qle in Hm.
      change (inject_Z 5066549580791807) with (5066549580791807 # 1)%Q in Hm. lra. }
  assert (Qfloor (double x) < 9); [|lia].
  rewrite Zlt_Qlt. pose proof (Qfloor_le (double x)).
  change (inject_Z 9) with 9%Q. lra.
Qed.

Lemma Math_round_between q (lo hi : Z) :
  (inject_Z lo <= q)%Q → (q <= inject_Z hi)%Q → lo ≤ Math_round q ≤ hi.
Proof.
  intros Hl Hh. unfold Math_round. split.
  - rewrite <- (Qfloor_Z lo). apply Qfloor_resp_le. lra.
  - apply Z.lt_succ_r. rewrite Zlt_Qlt.
    pose proof (Qfloor_le (q + (1 # 2))).
    unfold Z.succ. rewrite inject_Z_plus. change (inject_Z 1) with 1%Q. lra.
Qed.

(** The accuracy figure [Math.round((c / a) * 100)] of a score. *)
Lemma rounded_percent_range c a :
  0 ≤ c ≤ a → 0 < a →
  0 ≤ Math_round (Number_mul (Number_div (inject_Z c) (inject_Z a)) 100) ≤ 100
  ∧ (c = 0 → Math_round (Number_mul (Number_div (inject_Z c) (inject_Z a)) 100) = 0)
  ∧ (c = a → Math_round (Number_mul (Number_div (inject_Z c) (inject_Z a)) 100) = 100).
Proof.
  intros Hc Ha. unfold Number_mul, Number_div.
  assert (Qa : (0 < inject_Z a)%Q) by (change 0%Q with (inject_Z 0); by rewrite <- Zlt_Qlt).
  assert (Qc : (0 <= inject_Z c)%Q) by (change 0%Q with (inject_Z 0); rewrite <- Zle_Qle; lia).
  assert (Qca : (inject_Z c <= inject_Z a)%Q) by (rewrite <- Zle_Qle; lia).
  set (q := (inject_Z c / inject_Z a)%Q).
  assert (Hq0 : (0 <= q)%Q) by (apply Qle_shift_div_l; [done|lra]).
  assert (Hq1 : (q <= 1)%Q) by (apply Qle_shift_div_r; [done|lra]).
  assert (Hbig : ∀ y, (y <= 100)%Q → (y < 2 ^ 53)%Q).
  { intros y Hy. change (2 ^ 53)%Q with (9007199254740992 # 1)%Q. lra. }
  assert (H1 : (0 <= double q)%Q) by by apply double_nonneg.
  assert (H2 : (double q <= 1)%Q).
  { change 1%Q with (inject_Z 1). apply double_le_Z; [done|apply Hbig; lra|].
    change (inject_Z 1) with 1%Q. done. }
  set (p := (double q * 100)%Q).
  assert (H3 : (0 <= double p)%Q) by (apply double_nonneg; unfold p; lra).
  assert (H4 : (double p <= 100)%Q).
  { change 100%Q with (inject_Z 100). apply double_le_Z; [unfold p; lra| |].
    - apply Hbig. unfold p. lra.
    - change (inject_Z 100) with 100%Q. unfold p. lra. }
  split; [apply Math_round_between; [change (inject_Z 0) with 0%Q|
                                     change (inject_Z 100) with 100%Q]; done|].
  split.
  - intros ->. 
    assert (E : (q == 0)%Q) by (unfold q; field; lra).
    assert (Ep : (p == 0)%Q) by (unfold p; rewrite (double_zero q E); ring).
    by rewrite (double_zero p Ep).
  - intros ->.
    assert (E : (q == 1)%Q) by (unfold q; field; lra).
    assert (H5 : (1 <= double q)%Q).
    { change 1%Q with (inject_Z 1). apply double_ge_Z; [done|apply Hbig; lra|].
      change (inject_Z 1) with 1%Q. lra. }
    assert (H6 : (100 <= double p)%Q).
    { change 100%Q with (inject_Z 100). apply double_ge_Z; [unfold p; lra| |].
      - apply Hbig. unfold p. lra.
      - change (inject_Z 100) with 100%Q. unfold p. lra. }
    apply Z.le_antisymm; apply Math_round_between with (lo := 100) (hi := 100);
      change (inject_Z 100) with 100%Q; done.
Qed.

(** For a block of at most ten trials the two roundings change nothing:
    the figure is the exact percentage, rounded. *)
Lemma rounded_percent_small c a :
  0 ≤ c ≤ a → 0 < a ≤ 10 → Math_round (Number_mul (Number_div (inject_Z c) (inject_Z a)) 100) = (200 * c + a) / (2 * a).
Proof.
  intros Hc Ha.
  assert (∃ i j : nat, a = Z.of_nat i ∧ c = Z.of_nat j ∧ (j ≤ i ≤ 10)%nat)
    as (i & j & -> & -> & Hij).
  { exists (Z.to_nat a), (Z.to_nat c). lia. }
  clear Hc. destruct Ha as [Ha _].
  do 11 (destruct i as [|i]; [try lia;
    do 11 (destruct j as [|j]; [try lia; vm_compute; reflexivity|]); lia|]).
  lia.
Qed.

(** ** The N-back oracle *)

(** A draw of [Math.random()] gives a digit from 1 to 9. *)
Lemma generateNumber_range r :
  is_double r → (0 <= r)%Q → (r < 1)%Q → 1 ≤ generateNumber r ≤ 9.
Proof.
  intros Hd H0 H1. unfold generateNumber, Number_mul.
  pose proof (draw_times_nine r H0 (double_below_one r Hd H0 H1)). lia.
Qed.



(** With exactly [nback] digits, the guard of the oracle lets the call
    through and the index [-1] is read. *)
Lemma calculateNbackAnswer_at_depth currentNum sequence nback :
  Z.of_nat (length sequence) = nback →
  calculateNbackAnswer currentNum sequence nback = NaN.
Proof.
  intros H. unfold calculateNbackAnswer, js_index.
  rewrite H, Z.ltb_irrefl.
  replace (nback - nback - 1) with (-1) by lia. reflexivity.
Qed.



(** ** [processAnswer] *)

(** Case analysis on the comparisons that guard the difficulty rule. *)
Ltac split_comparisons :=
  repeat match goal with
         | |- context [?a >=? ?b] => destruct (a >=? b) eqn:?; cbn
         end.

(** A call that returns [true] met an unanswered last trial that the
    target belongs to, and its final state is the initial one with the
    trial, the counters, the interval and the answer surface rewritten as
    follows. *)
Lemma processAnswer_success now userAnswer s s' :
  processAnswer now userAnswer s = (true, s') →
  ∃ x isCorrect,
    last (sessionHistory s) = Some x
    ∧ Trial.userAnswer x = Null
    ∧ processingAnswer s = false
    ∧ strict_eq (Trial.correctAnswer x) (correctAnswer s) = true
    ∧ isCorrect = strict_eq userAnswer (correctAnswer s)
    ∧ s' =
        set_answerInput
          (if isCorrect && negb (useNumberPad s) then Empty else answerInput s)
        (set_selectedButton
          (if isCorrect && useNumberPad s then None else selectedButton s)
        (set_lowestISI
          (if negb (isManualMode s) && isCorrect && (consecutiveCorrect s + 1 >=? 4)
           then Z.min (lowestISI s) (Z.max 500 (currentISIValue s - 100))
           else lowestISI s)
        (set_currentISIValue
          (if isManualMode s then selectedISI s
           else if isCorrect
                then if consecutiveCorrect s + 1 >=? 4
                     then Z.max 500 (currentISIValue s - 100) else currentISIValue s
                else if consecutiveIncorrect s + 1 >=? 4
                     then Z.min 5000 (currentISIValue s + 100) else currentISIValue s)
        (set_consecutiveIncorrect
          (if isCorrect then 0
           else if isManualMode s then consecutiveIncorrect s + 1
                else if consecutiveIncorrect s + 1 >=? 4 then 0
                     else consecutiveIncorrect s + 1)
        (set_consecutiveCorrect
          (if isCorrect
           then if isManualMode s then consecutiveCorrect s + 1
                else if consecutiveCorrect s + 1 >=? 4 then 0
                     else consecutiveCorrect s + 1
           else 0)
        (set_totalCorrect (if isCorrect then totalCorrect s + 1 else totalCorrect s)
        (set_totalAttempts (totalAttempts s + 1)
        (store_trial (Z.to_nat (lastTrialIndex s))
           (Trial.set_correct (Some isCorrect)
              (Trial.set_userAnswer userAnswer
                 (Trial.set_responseTime
                    (Some (now - (nextPresentationTime s - currentISIValue s))) x)))
           s)))))))).
Proof.
  unfold processAnswer.
  destruct (processingAnswer s) eqn:Hp; [discriminate|].
  destruct (is_null (correctAnswer s)) eqn:Hc; [discriminate|]. cbn [orb].
  change (sessionHistory (set_processingAnswer true s)) with (sessionHistory s).
  destruct (last (sessionHistory s)) as [x|] eqn:Hl; [|discriminate].
  destruct (is_null (Trial.userAnswer x)) eqn:Hu; [|discriminate]. cbn [negb].
  change (correctAnswer (set_processingAnswer true s)) with (correctAnswer s).
  destruct (strict_eq (Trial.correctAnswer x) (correctAnswer s)) eqn:Hs; [|discriminate].
  cbn [negb].
  set (ok := if negb (is_null userAnswer) then _ else false).
  intros H. injection H as <-.
  exists x, ok.
  split; [done|]. split; [by destruct (Trial.userAnswer x)|]. split; [done|].
  split; [done|].
  assert (Hok : ok = strict_eq userAnswer (correctAnswer s)).
  { subst ok. cbn [Trial.correctAnswer Trial.set_userAnswer Trial.set_responseTime].
    revert Hs Hc.
    destruct userAnswer, (Trial.correctAnswer x), (correctAnswer s);
      cbn; try done.
    intros ->%Z.eqb_eq _. done. }
  split; [done|]. clear Hok. clearbody ok.
  destruct s; cbn in Hp |- *. subst.
  destruct ok, isManualMode0, useNumberPad0; cbn; split_comparisons; vm_compute; reflexivity.
Qed.

(** A call that returns [false] changes nothing. *)
Lemma processAnswer_failure now userAnswer s s' :
  processAnswer now userAnswer s = (false, s') → s' = s.
Proof.
  unfold processAnswer.
  destruct (processingAnswer s) eqn:Hp; [by intros [= <-]|].
  destruct (is_null (correctAnswer s)) eqn:Hc; [by intros [= <-]|]. cbn [orb].
  change (sessionHistory (set_processingAnswer true s)) with (sessionHistory s).
  assert (Hback : set_processingAnswer false (set_processingAnswer true s) = s).
  { destruct s; cbn in Hp |- *. by subst. }
  destruct (last (sessionHistory s)) as [x|] eqn:Hl; [|by intros [= <-]].
  destruct (negb (is_null (Trial.userAnswer x))); [by intros [= <-]|].
  destruct (negb (strict_eq _ _)); [by intros [= <-]|].
  discriminate.
Qed.

Lemma processAnswer_succeeds now userAnswer s x :
  processingAnswer s = false →
  is_null (correctAnswer s) = false →
  last (sessionHistory s) = Some x →
  Trial.userAnswer x = Null →
  strict_eq (Trial.correctAnswer x) (correctAnswer s) = true →
  ∃ s', processAnswer now userAnswer s = (true, s').
Proof.
  intros Hp Hc Hl Hu Hs. unfold processAnswer.
  rewrite Hp, Hc. cbn [orb].
  change (sessionHistory (set_processingAnswer true s)) with (sessionHistory s).
  rewrite Hl, Hu. cbn [is_null negb].
  change (correctAnswer (set_processingAnswer true s)) with (correctAnswer s).
  rewrite Hs. cbn [negb]. eauto.
Qed.

Lemma processAnswer_rejects_answered now userAnswer s x :
  last (sessionHistory s) = Some x →
  Trial.userAnswer x ≠ Null →
  processAnswer now userAnswer s = (false, s).
Proof.
  intros Hl Hu.
  destruct (processAnswer now userAnswer s) as [[] s'] eqn:H.
  - apply processAnswer_success in H as (y & ? & Hy & Hn & _). congruence.
  - by rewrite (processAnswer_failure _ _ _ _ H).
Qed.

(** The verdict of [processAnswer] is the strict comparison of the answer
    with the target. *)
Lemma resolution_of_processAnswer now userAnswer s s' :
  processAnswer now userAnswer s = (true, s') →
  resolution s (strict_eq userAnswer (correctAnswer s)) s'.
Proof.
  intros H.
  pose proof H as (x & ok & Hl & _ & _ & _ & Hok & ->)%processAnswer_success.
  rewrite <- Hok.
  pose proof (last_insert_last (sessionHistory s) x
                (Trial.set_correct (Some ok)
                   (Trial.set_userAnswer userAnswer
                      (Trial.set_responseTime
                         (Some (now - (nextPresentationTime s - currentISIValue s))) x)))
                Hl) as Hlast.
  exact (resolution_processAnswer now userAnswer s _ _ H Hlast).
Qed.

(** ** The deadline callback *)

Lemma found_last_is_last (s : State) trialId i x :
  list_find (λ y, Trial.trialId y = trialId) (sessionHistory s) = Some (i, x) →
  Z.of_nat i = lastTrialIndex s →
  last (sessionHistory s) = Some x.
Proof.
  intros (Hi & _ & _)%list_find_Some Hlast. unfold lastTrialIndex in Hlast.
  rewrite last_lookup. replace (pred (length (sessionHistory s))) with i by lia. done.
Qed.

(** The callback does nothing while a resolution is claimed or in flight. *)
Lemma deadline_backs_off trialId trialPresentationTime now s :
  answerProcessed s = true ∨ processingAnswer s = true →
  deadlineCallback trialId trialPresentationTime now s = s.
Proof.
  intros H. unfold deadlineCallback.
  destruct H as [-> | ->]; [done|]. by rewrite andb_false_r.
Qed.

(** The callback does nothing for a trial that has an answer. *)
Lemma deadline_answered trialId trialPresentationTime now s i x :
  list_find (λ y, Trial.trialId y = trialId) (sessionHistory s) = Some (i, x) →
  Trial.userAnswer x ≠ Null →
  deadlineCallback trialId trialPresentationTime now s = s.
Proof.
  intros Hf Hu. unfold deadlineCallback. rewrite Hf.
  destruct (negb (answerProcessed s) && negb (processingAnswer s)); [|done].
  by destruct (Trial.userAnswer x).
Qed.

(** The late branch: the target is no longer the last trial. *)
Lemma deadline_late trialId trialPresentationTime now s i x :
  answerProcessed s = false →
  processingAnswer s = false →
  list_find (λ y, Trial.trialId y = trialId) (sessionHistory s) = Some (i, x) →
  Trial.userAnswer x = Null →
  Z.of_nat i ≠ lastTrialIndex s →
  deadlineCallback trialId trialPresentationTime now s =
    set_currentISIValue
      (if negb (isManualMode s) && (consecutiveIncorrect s + 1 >=? 4)
       then Z.min 5000 (currentISIValue s + 100) else currentISIValue s)
    (set_consecutiveIncorrect
      (if negb (isManualMode s) && (consecutiveIncorrect s + 1 >=? 4)
       then 0 else consecutiveIncorrect s + 1)
    (set_consecutiveCorrect 0
    (set_totalAttempts (totalAttempts s + 1)
    (store_trial i
       (Trial.set_correct (Some false)
          (Trial.set_userAnswer Null
             (Trial.set_responseTime (Some (now - trialPresentationTime)) x)))
       s)))).
Proof.
  intros Ha Hp Hf Hu Hi. unfold deadlineCallback.
  rewrite Ha, Hp, Hf, Hu. cbn [negb andb is_null].
  destruct (Z.eqb_spec (Z.of_nat i) (lastTrialIndex s)) as [|_]; [done|].
  cbn [negb]. clear.
  destruct s; cbn.
  destruct isManualMode0; cbn; split_comparisons; vm_compute; reflexivity.
Qed.


(** C2, as stated, fails. In [trial2_presented] the deadline of trial 1 is
    pending while trial 2 is the last entry, so it fires for a stale
    trial. Trial 1 was answered with 11 in time: the callback returns at
    its guard, trial 1 keeps [userAnswer = 11] and [correct = true], and no
    counter moves. *)
Lemma late_resolution_counterexample :
  ∃ x,
    (* the deadline of trial 1 is pending and trial 1 is no longer the last *)
    pendingTask 7 trial2_presented = Some (DeadlineTask 1 5000)
    ∧ list_find (λ y, Trial.trialId y = 1) (sessionHistory trial2_presented)
      = Some (0%nat, x)
    ∧ Z.of_nat 0 ≠ lastTrialIndex trial2_presented
    (* it fires, and trial 1 keeps its answer and its verdict *)
    ∧ list_find (λ y, Trial.trialId y = 1)
        (sessionHistory (step (Fire 7 8000 0) trial2_presented)) = Some (0%nat, x)
    ∧ Trial.userAnswer x = Num 11
    ∧ Trial.correct x = Some true
    ∧ counters (step (Fire 7 8000 0) trial2_presented) = counters trial2_presented.
Proof.
  exists (Trial.mk 1 7 (Some 4) (Num 11) (Num 11) (Some true) 3000 1 (Some 600)).
  vm_compute. by split_and!.
Qed.

(** C2, amended. When the deadline fires for a trial that is found under
    its id but is no longer the last entry: a trial that already has an
    answer is left as it is, with every counter; a trial that has none,
    while no resolution is claimed or in flight, is scored as incorrect
    with no answer and with the time since its presentation,
    [totalAttempts] goes up by one, [consecutiveCorrect] becomes 0,
    [consecutiveIncorrect] and the interval follow the four-in-a-row rule
    of the automatic modes, and the record of the current trial, every
    other trial, [answerProcessed], [processingAnswer], [correctAnswer]
    and both answer surfaces are as before. *)
Theorem late_resolution trialId trialPresentationTime now s i x :
  list_find (λ y, Trial.trialId y = trialId) (sessionHistory s) = Some (i, x) →
  Z.of_nat i ≠ lastTrialIndex s →
  let s' := deadlineCallback trialId trialPresentationTime now s in
  (* a trial that was answered in time keeps its answer *)
  (Trial.userAnswer x ≠ Null → s' = s)
  ∧ (answerProcessed s = false → processingAnswer s = false →
     Trial.userAnswer x = Null →
     (* the stale trial is scored as unanswered *)
     sessionHistory s' !! i =
       Some (Trial.set_correct (Some false)
               (Trial.set_userAnswer Null
                  (Trial.set_responseTime (Some (now - trialPresentationTime)) x)))
     (* the counters and the difficulty move *)
     ∧ totalAttempts s' = totalAttempts s + 1
     ∧ totalCorrect s' = totalCorrect s
     ∧ consecutiveCorrect s' = 0
     ∧ consecutiveIncorrect s' =
         (if negb (isManualMode s) && (consecutiveIncorrect s + 1 >=? 4)
          then 0 else consecutiveIncorrect s + 1)
     ∧ currentISIValue s' =
         (if negb (isManualMode s) && (consecutiveIncorrect s + 1 >=? 4)
          then Z.min 5000 (currentISIValue s + 100) else currentISIValue s)
     (* what belongs to the current trial stays *)
     ∧ last (sessionHistory s') = last (sessionHistory s)
     ∧ (∀ j, j ≠ i → sessionHistory s' !! j = sessionHistory s !! j)
     ∧ answerProcessed s' = answerProcessed s
     ∧ processingAnswer s' = processingAnswer s
     ∧ correctAnswer s' = correctAnswer s
     ∧ answerInput s' = answerInput s
     ∧ selectedButton s' = selectedButton s).
Proof.
  intros Hf Hi s'. subst s'. split.
  - intros Hu. by eapply deadline_answered.
  - intros Ha Hp Hu.
    rewrite (deadline_late _ _ _ _ _ _ Ha Hp Hf Hu Hi).
    pose proof Hf as (Hx & _ & _)%list_find_Some.
    pose proof (lookup_lt_Some _ _ _ Hx) as Hlt.
    unfold lastTrialIndex in Hi.
    cbn. split_and!; try done.
    + by apply list_lookup_insert_eq.
    + rewrite !last_lookup, length_insert.
      apply list_lookup_insert_ne. lia.
    + intros j Hj. by apply list_lookup_insert_ne.
Qed.

(** The amended C2 at [trial2_presented_unanswered]: the deadline of trial
    1 fires at 8000, after trial 2 was pushed, and scores trial 1. *)
Lemma late_resolution_witness :
  ∃ x,
    list_find (λ y, Trial.trialId y = 1) (sessionHistory trial2_presented_unanswered)
      = Some (0%nat, x)
    ∧ Z.of_nat 0 ≠ lastTrialIndex trial2_presented_unanswered
    ∧ sessionHistory (deadlineCallback 1 5000 8000 trial2_presented_unanswered) !! 0%nat
      = Some (Trial.mk 1 7 (Some 4) (Num 11) Null (Some false) 3000 1 (Some 3000))
    ∧ totalAttempts (deadlineCallback 1 5000 8000 trial2_presented_unanswered) = 1.
Proof.
  set (s := trial2_presented_unanswered).
  set (x := Trial.mk 1 7 (Some 4) (Num 11) Null None 3000 1 None).
  assert (Hf : list_find (λ y, Trial.trialId y = 1) (sessionHistory s) = Some (0%nat, x))
    by (vm_compute; reflexivity).
  assert (Hi : Z.of_nat 0 ≠ lastTrialIndex s) by (vm_compute; discriminate).
  destruct (late_resolution 1 5000 8000 s 0%nat x Hf Hi) as [_ H].
  destruct H as (Hx & Hta & _); [vm_compute; reflexivity..|].
  exists x. split; [exact Hf|]. split; [exact Hi|]. split; [exact Hx|].
  rewrite Hta. vm_compute. reflexivity.
Defined.

(** ** One resolution per trial *)

Lemma trialIsOpen_facts trialId s :
  trialIsOpen trialId s = true →
  ∃ i x,
    list_find (λ y, Trial.trialId y = trialId) (sessionHistory s) = Some (i, x)
    ∧ Z.of_nat i = lastTrialIndex s
    ∧ Trial.userAnswer x = Null
    ∧ is_null (correctAnswer s) = false
    ∧ strict_eq (Trial.correctAnswer x) (correctAnswer s) = true
    ∧ answerProcessed s = false
    ∧ processingAnswer s = false.
Proof.
  unfold trialIsOpen.
  destruct (list_find _ _) as [[i x]|]; [|discriminate].
  intros H. repeat (apply andb_prop in H as [H ?]).
  exists i, x. split_and!; try done.
  - by apply Z.eqb_eq.
  - by destruct (Trial.userAnswer x).
  - by destruct (is_null (correctAnswer s)).
  - by destruct (answerProcessed s).
  - by destruct (processingAnswer s).
Qed.


Lemma speakNumber_view number s : trialView (speakNumber number s).2 = trialView s.
Proof. unfold speakNumber. by repeat case_match. Qed.

Lemma afterSpeak_view now s : trialView (afterSpeak now s) = trialView s.
Proof. unfold afterSpeak. by case_match. Qed.

(** When a presentation goes through with enough digits behind it, it
    pushes a trial whose answer is the new digit plus the digit N places
    back, and leaves that trial open. The trial ids of the history are
    bounded by [currentTrialId], so the new id is fresh. *)
Lemma presentNextNumber_opens_trial now r s :
  sessionActive s = true →
  nextNumberScheduled s = false →
  numberSequence s = [] ∨ forcePresentNextNumber s = true
    ∨ nextPresentationTime s ≤ now →
  1 ≤ nbackValue s ≤ Z.of_nat (length (numberSequence s)) →
  Forall (λ x, Trial.trialId x ≤ currentTrialId s) (sessionHistory s) →
  ∃ previousNum,
    numberSequence s !! Z.to_nat (Z.of_nat (length (numberSequence s)) - nbackValue s)
      = Some previousNum
    ∧ sessionHistory (presentNextNumber now r s) =
        sessionHistory s ++
          [Trial.mk (nbackValue s) (generateNumber r) (Some previousNum)
             (Num (generateNumber r + previousNum)) Null None (currentISIValue s)
             (currentTrialId s + 1) None]
    ∧ numberSequence (presentNextNumber now r s) = numberSequence s ++ [generateNumber r]
    ∧ currentTrialId (presentNextNumber now r s) = currentTrialId s + 1
    ∧ trialIsOpen (currentTrialId s + 1) (presentNextNumber now r s) = true.
Proof.
  intros Hactive Hsched Hdue Hn Hids.
  set (d := generateNumber r).
  assert (Hlen : Z.of_nat (length (numberSequence s ++ [d]))
                 = Z.of_nat (length (numberSequence s)) + 1)
    by (rewrite length_app; cbn; lia).
  destruct (lookup_lt_is_Some_2 (numberSequence s)
              (Z.to_nat (Z.of_nat (length (numberSequence s)) - nbackValue s)))
    as [p Hp]; [lia|].
  exists p. split; [done|].
  assert (Hidx : js_index (numberSequence s ++ [d])
                   (Z.of_nat (length (numberSequence s ++ [d])) - nbackValue s - 1)
                 = Some p).
  { unfold js_index. rewrite Hlen.
    replace (Z.of_nat (length (numberSequence s)) + 1 - nbackValue s - 1)
      with (Z.of_nat (length (numberSequence s)) - nbackValue s) by lia.
    destruct (Z.ltb_spec (Z.of_nat (length (numberSequence s)) - nbackValue s) 0);
      [lia|]. by apply lookup_app_l_Some. }
  assert (Hcalc : calculateNbackAnswer d (numberSequence s ++ [d]) (nbackValue s)
                  = Num (d + p)).
  { unfold calculateNbackAnswer. rewrite Hidx.
    by destruct (Z.ltb_spec (Z.of_nat (length (numberSequence s ++ [d]))) (nbackValue s));
      [lia|]. }
  assert (Hdeep : (Z.of_nat (length (numberSequence s ++ [d])) >=? nbackValue s + 1) = true)
    by (apply Z.geb_le; lia).
  assert (Hview :
    trialView (presentNextNumber now r s) =
      (sessionHistory s ++
         [Trial.mk (nbackValue s) d (Some p) (Num (d + p)) Null None (currentISIValue s)
            (currentTrialId s + 1) None],
       numberSequence s ++ [d], currentTrialId s + 1, Num (d + p), false, false)).
  { unfold presentNextNumber. rewrite Hactive, Hsched. cbn [negb].
    match goal with |- context [if ?c then _ else _] =>
      assert (Hgate : c = false)
    end.
    { unfold clearCurrentInterval. destruct s; cbn in *.
      destruct currentIntervalId0; cbn;
        destruct Hdue as [-> | [-> | Hd]]; cbn; try done;
        rewrite ?andb_false_r; try done;
        by destruct (Z.ltb_spec 0 (nextPresentationTime0 - now)); [lia|];
        rewrite andb_false_r. }
    rewrite Hgate. cbv zeta.
    match goal with |- context [speakNumber ?n ?st] =>
      pose proof (speakNumber_view n st) as Hsp;
      destruct (speakNumber n st) as [settled s1]
    end.
    cbn [snd] in Hsp.
    assert (trialView (if settled then afterSpeak now s1 else s1) = trialView s1) as ->
      by (destruct settled; [apply afterSpeak_view | done]).
    rewrite Hsp. clear Hsp Hgate.
    unfold clearCurrentInterval. fold d.
    destruct s; cbn in *. 
    destruct currentIntervalId0, useNumberPad0; cbn; rewrite Hdeep; cbn;
      rewrite Hcalc, Hidx; cbn; reflexivity. }
  unfold trialView in Hview. injection Hview as Hh Hs Hi Hc Ha Hpr.
  split; [done|]. split; [done|]. split; [done|].
  unfold trialIsOpen, lastTrialIndex. rewrite Hh, Hc, Ha, Hpr.
  assert (list_find (λ x, Trial.trialId x = currentTrialId s + 1)
            (sessionHistory s ++
               [Trial.mk (nbackValue s) d (Some p) (Num (d + p)) Null None
                  (currentISIValue s) (currentTrialId s + 1) None])
          = Some (length (sessionHistory s),
                  Trial.mk (nbackValue s) d (Some p) (Num (d + p)) Null None
                    (currentISIValue s) (currentTrialId s + 1) None)) as ->.
  { apply list_find_Some. split_and!.
    - by rewrite lookup_app_r, Nat.sub_diag.
    - done.
    - intros j y Hj Hlt. rewrite lookup_app_l in Hj by done.
      rewrite Forall_forall in Hids.
      assert (y ∈ sessionHistory s) as Hy%Hids by by eapply list_elem_of_lookup_2.
      lia. }
  rewrite length_app. cbn. rewrite Z.eqb_refl.
  destruct (Z.eqb_spec (Z.of_nat (length (sessionHistory s)))
              (Z.of_nat (length (sessionHistory s) + 1) - 1)); [done|lia].
Qed.






(** ** The next presentation *)






(** ** One resolution per trial, with the next presentation in between *)






Lemma counters_totalAttempts s s' :
  counters s' = counters s → totalAttempts s' = totalAttempts s.
Proof. unfold counters. by intros [= -> _ _ _ _ _]. Qed.



(** ** The difficulty rule *)

(** What a resolution does to the counters and to the interval. *)
Lemma resolution_inv s b s' :
  resolution s b s' →
  totalAttempts s' = totalAttempts s + 1
  ∧ isManualMode s' = isManualMode s
  ∧ selectedISI s' = selectedISI s
  ∧ consecutiveCorrect s' =
      (if b
       then if isManualMode s then consecutiveCorrect s + 1
            else if consecutiveCorrect s + 1 >=? 4 then 0
                 else consecutiveCorrect s + 1
       else 0)
  ∧ consecutiveIncorrect s' =
      (if b then 0
       else if isManualMode s then consecutiveIncorrect s + 1
            else if consecutiveIncorrect s + 1 >=? 4 then 0
                 else consecutiveIncorrect s + 1)
  ∧ (isManualMode s = false →
     currentISIValue s' =
       (if b
        then if consecutiveCorrect s + 1 >=? 4
             then Z.max 500 (currentISIValue s - 100) else currentISIValue s
        else if consecutiveIncorrect s + 1 >=? 4
             then Z.min 5000 (currentISIValue s + 100) else currentISIValue s))
  ∧ lowestISI s' =
      (if negb (isManualMode s) && b && (consecutiveCorrect s + 1 >=? 4)
       then Z.min (lowestISI s) (Z.max 500 (currentISIValue s - 100))
       else lowestISI s).
Proof.
  destruct 1 as [now userAnswer s s' y H Hlast | trialId tp now s i x Ha Hp Hf Hu Hi].
  - apply processAnswer_success in H as (x & ok & Hl & _ & _ & _ & _ & ->).
    assert (Trial.truthy_correct y = ok) as ->.
    { cbn in Hlast. unfold lastTrialIndex in Hlast.
      erewrite last_insert_last in Hlast by done. by injection Hlast as <-. }
    cbn. split_and!; try done. by intros ->.
  - rewrite (deadline_late _ _ _ _ _ _ Ha Hp Hf Hu Hi). cbn.
    split_and!; try done.
    + by destruct (isManualMode s).
    + by intros ->.
    + by rewrite andb_false_r.
Qed.

Lemma resolution_manual s b s' :
  resolution s b s' →
  isManualMode s = true →
  currentISIValue s = selectedISI s →
  currentISIValue s' = selectedISI s'.
Proof.
  destruct 1 as [now userAnswer s s' y H Hlast | trialId tp now s i x Ha Hp Hf Hu Hi];
    intros Hm Hsel.
  - apply processAnswer_success in H as (x & ok & _ & _ & _ & _ & _ & ->).
    cbn. by rewrite Hm.
  - rewrite (deadline_late _ _ _ _ _ _ Ha Hp Hf Hu Hi). cbn. by rewrite Hm.
Qed.

(** C8. After a resolved trial in an automatic mode: when the correct
    streak reaches 4 the interval goes down by 100 but not below 500, the
    streak restarts at 0 and [lowestISI] is the minimum of its old value
    and the new interval; when the incorrect streak reaches 4 (an
    unanswered trial counts) the interval goes up by 100 but not above 5000
    and the streak restarts at 0; below 4 the interval stays and the streak
    counts on. *)
Theorem adaptive_difficulty_rule s correct s' :
  resolution s correct s' →
  isManualMode s = false →
  (correct = true → 4 ≤ consecutiveCorrect s + 1 →
   currentISIValue s' = Z.max 500 (currentISIValue s - 100)
   ∧ consecutiveCorrect s' = 0
   ∧ lowestISI s' = Z.min (lowestISI s) (currentISIValue s'))
  ∧ (correct = false → 4 ≤ consecutiveIncorrect s + 1 →
     currentISIValue s' = Z.min 5000 (currentISIValue s + 100)
     ∧ consecutiveIncorrect s' = 0)
  ∧ (correct = true → consecutiveCorrect s + 1 < 4 →
     currentISIValue s' = currentISIValue s
     ∧ consecutiveCorrect s' = consecutiveCorrect s + 1
     ∧ lowestISI s' = lowestISI s)
  ∧ (correct = false → consecutiveIncorrect s + 1 < 4 →
     currentISIValue s' = currentISIValue s
     ∧ consecutiveIncorrect s' = consecutiveIncorrect s + 1).
Proof.
  intros Hres Hauto.
  destruct (resolution_inv _ _ _ Hres) as (_ & _ & _ & Hcc & Hci & Hisi & Hlow).
  specialize (Hisi Hauto). rewrite Hauto in Hcc, Hci, Hlow. cbn [negb andb] in Hlow.
  split_and!; intros -> Hstreak.
  - destruct (Z.geb_spec (consecutiveCorrect s + 1) 4); [|lia].
    rewrite Hisi, Hcc, Hlow. done.
  - destruct (Z.geb_spec (consecutiveIncorrect s + 1) 4); [|lia].
    by rewrite Hisi, Hci.
  - destruct (Z.geb_spec (consecutiveCorrect s + 1) 4); [lia|].
    by rewrite Hisi, Hcc, Hlow.
  - destruct (Z.geb_spec (consecutiveIncorrect s + 1) 4); [lia|].
    by rewrite Hisi, Hci.
Qed.

(** C8 at the fourth correct answer of [four_correct]. *)
Lemma adaptive_difficulty_rule_witness :
  ∃ s s', resolution s true s' ∧ isManualMode s = false
    ∧ consecutiveCorrect s = 3 ∧ currentISIValue s = 3000
    ∧ currentISIValue s' = 2900 ∧ consecutiveCorrect s' = 0 ∧ lowestISI s' = 2900.
Proof.
  set (s := set_answerProcessed true (set_answerInput (Digits 10) three_correct)).
  set (s' := (processAnswer 15800 (Num 10) s).2).
  assert (Hres : resolution s true s').
  { eapply (resolution_processAnswer 15800 (Num 10) s s'
              (Trial.mk 1 9 (Some 1) (Num 10) (Num 10) (Some true) 3000 4 (Some 300)));
      vm_compute; reflexivity. }
  assert (Hauto : isManualMode s = false) by (vm_compute; reflexivity).
  destruct (adaptive_difficulty_rule s true s' Hres Hauto) as (Hrule & _).
  destruct Hrule as (Hisi & Hcc & Hlow); [reflexivity | vm_compute; discriminate |].
  exists s, s'. split; [exact Hres|]. split; [exact Hauto|].
  split; [vm_compute; reflexivity|]. split; [vm_compute; reflexivity|].
  split; [rewrite Hisi; vm_compute; reflexivity|].
  split; [exact Hcc|].
  rewrite Hlow, Hisi. vm_compute. reflexivity.
Defined.

(** Between two answers the presentation cycle leaves the difficulty
    alone. *)
Lemma speakNumber_difficulty number s :
  difficulty (speakNumber number s).2 = difficulty s.
Proof. unfold speakNumber. by repeat case_match. Qed.

Lemma afterSpeak_difficulty now s : difficulty (afterSpeak now s) = difficulty s.
Proof. unfold afterSpeak. by case_match. Qed.

Lemma clearCurrentInterval_difficulty s :
  difficulty (clearCurrentInterval s) = difficulty s.
Proof. unfold clearCurrentInterval. by case_match. Qed.

Lemma presentNextNumber_difficulty now r s :
  difficulty (presentNextNumber now r s) = difficulty s.
Proof.
  unfold presentNextNumber.
  destruct (negb (sessionActive s)); [done|].
  destruct (nextNumberScheduled s); [done|].
  match goal with |- context [if ?c then _ else _] => destruct c end.
  { unfold difficulty, clearCurrentInterval. destruct s; cbn. by repeat case_match. }
  cbv zeta.
  match goal with |- context [speakNumber ?n ?st] =>
    pose proof (speakNumber_difficulty n st) as Hsp;
    destruct (speakNumber n st) as [settled s1]
  end.
  cbn [snd] in Hsp.
  assert (difficulty (if settled then afterSpeak now s1 else s1) = difficulty s1) as ->
    by (destruct settled; [apply afterSpeak_difficulty | done]).
  rewrite Hsp. clear.
  unfold difficulty, clearCurrentInterval. destruct s; cbn.
  by repeat case_match.
Qed.

(** C4, as stated, fails. A standard session starts at 3000 ms; after the
    four correct answers of [four_correct], and nothing else scored, the
    interval is 2900 ms, not 2600 ms. *)
Lemma four_correct_counterexample :
  standardModeOn started = true
  ∧ currentISIValue started = 3000
  ∧ Trial.correct <$> sessionHistory four_correct
    = [Some true; Some true; Some true; Some true]
  ∧ totalAttempts four_correct = 4
  ∧ currentISIValue four_correct = 2900
  ∧ currentISIValue four_correct ≠ 2600.
Proof. vm_compute. by split_and!. Qed.

(** C4, amended. In standard mode with the interval at 3000 ms and no
    streak, after four correct resolutions in a row (whatever happens in
    between leaves the difficulty alone) the interval is 2900 ms. *)
Theorem four_correct_from_3000 s0 s1 s1' s2 s2' s3 s3' s4 :
  standardModeOn s0 = true →
  currentISIValue s0 = 3000 →
  consecutiveCorrect s0 = 0 →
  resolution s0 true s1 → difficulty s1' = difficulty s1 →
  resolution s1' true s2 → difficulty s2' = difficulty s2 →
  resolution s2' true s3 → difficulty s3' = difficulty s3 →
  resolution s3' true s4 →
  currentISIValue s4 = 2900.
Proof.
  intros Hstd Hisi Hcc R1 D1 R2 D2 R3 D3 R4.
  assert (Hauto : isManualMode s0 = false).
  { unfold standardModeOn in Hstd. by destruct (isManualMode s0), (isStandardMode s0),
      (isCustomMode s0). }
  unfold difficulty in D1, D2, D3.
  destruct (resolution_inv _ _ _ R1) as (_ & Hm1 & _ & Hc1 & _ & Hi1 & _).
  destruct (resolution_inv _ _ _ R2) as (_ & Hm2 & _ & Hc2 & _ & Hi2 & _).
  destruct (resolution_inv _ _ _ R3) as (_ & Hm3 & _ & Hc3 & _ & Hi3 & _).
  destruct (resolution_inv _ _ _ R4) as (_ & Hm4 & _ & Hc4 & _ & Hi4 & _).
  injection D1 as D1i D1c _ D1m. injection D2 as D2i D2c _ D2m.
  injection D3 as D3i D3c _ D3m.
  rewrite Hauto, Hcc in Hc1. cbn in Hc1. specialize (Hi1 Hauto).
  rewrite Hcc, Hisi in Hi1. cbn in Hi1.
  assert (isManualMode s1' = false) as A1 by congruence.
  rewrite A1, D1c, Hc1 in Hc2. cbn in Hc2. specialize (Hi2 A1).
  rewrite D1c, D1i, Hc1, Hi1 in Hi2. cbn in Hi2.
  assert (isManualMode s2' = false) as A2 by congruence.
  rewrite A2, D2c, Hc2 in Hc3. cbn in Hc3. specialize (Hi3 A2).
  rewrite D2c, D2i, Hc2, Hi2 in Hi3. cbn in Hi3.
  assert (isManualMode s3' = false) as A3 by congruence.
  specialize (Hi4 A3). rewrite D3c, D3i, Hc3, Hi3 in Hi4. cbn in Hi4. done.
Qed.

(** The amended C4 along the four answers that lead to [four_correct]. *)
Lemma four_correct_from_3000_witness :
  currentISIValue trial1_open = 3000 ∧ currentISIValue four_correct = 2900.
Proof.
  set (claim c s := set_answerProcessed true (set_answerInput (Digits c) s)).
  set (a0 := claim 11 trial1_open).
  set (a1 := claim 9 trial2_open).
  set (a2 := claim 3 trial3_open).
  set (a3 := claim 10 three_correct).
  set (b0 := (processAnswer 5600 (Num 11) a0).2).
  set (b1 := (processAnswer 9000 (Num 9) a1).2).
  set (b2 := (processAnswer 12400 (Num 3) a2).2).
  set (b3 := (processAnswer 15800 (Num 10) a3).2).
  assert (R0 : resolution a0 true b0).
  { apply (resolution_of_processAnswer 5600 (Num 11) a0 b0). vm_compute. reflexivity. }
  assert (R1 : resolution a1 true b1).
  { apply (resolution_of_processAnswer 9000 (Num 9) a1 b1). vm_compute. reflexivity. }
  assert (R2 : resolution a2 true b2).
  { apply (resolution_of_processAnswer 12400 (Num 3) a2 b2). vm_compute. reflexivity. }
  assert (R3 : resolution a3 true b3).
  { apply (resolution_of_processAnswer 15800 (Num 10) a3 b3). vm_compute. reflexivity. }
  assert (H0 : standardModeOn a0 = true) by (vm_compute; reflexivity).
  assert (H1 : currentISIValue a0 = 3000) by (vm_compute; reflexivity).
  assert (H2 : consecutiveCorrect a0 = 0) by (vm_compute; reflexivity).
  assert (D1 : difficulty a1 = difficulty b0) by (vm_compute; reflexivity).
  assert (D2 : difficulty a2 = difficulty b1) by (vm_compute; reflexivity).
  assert (D3 : difficulty a3 = difficulty b2) by (vm_compute; reflexivity).
  pose proof (four_correct_from_3000 a0 b0 a1 b1 a2 b2 a3 b3 H0 H1 H2 R0 D1 R1 D2 R2 D3 R3)
    as H.
  split; [vm_compute; reflexivity|].
  assert (E : currentISIValue four_correct = currentISIValue b3)
    by (vm_compute; reflexivity).
  rewrite E. exact H.
Defined.

(** [startSession] clamps the selected interval from below only. *)
Lemma startSession_interval s :
  currentISIValue (startSession s) = Z.max 500 (selectedISI s)
  ∧ selectedISI (startSession s) = Z.max 500 (selectedISI s)
  ∧ lowestISI (startSession s) = Z.max 500 (selectedISI s)
  ∧ isManualMode (startSession s) = isManualMode s.
Proof.
  unfold startSession, clearCurrentInterval, stopAllAudio.
  destruct s. destruct useNumberPad0, currentIntervalId0; vm_compute; by split_and!.
Qed.

Lemma startSession_interval_range s :
  500 ≤ currentISIValue (startSession s)
  ∧ (selectedISI s ≤ 5000 → currentISIValue (startSession s) ≤ 5000).
Proof. destruct (startSession_interval s) as (-> & _). lia. Qed.

(** A resolution in an automatic mode keeps the interval within 500 and
    5000 once it is there. *)
Lemma resolution_interval_range s b s' :
  resolution s b s' →
  isManualMode s = false →
  500 ≤ currentISIValue s ≤ 5000 →
  500 ≤ currentISIValue s' ≤ 5000.
Proof.
  intros Hres Hauto Hrange.
  destruct (resolution_inv _ _ _ Hres) as (_ & _ & _ & _ & _ & Hisi & _).
  rewrite (Hisi Hauto). repeat case_match; lia.
Qed.

(** In manual mode a resolution leaves the interval at the selected one. *)
Lemma resolution_interval_manual s b s' :
  resolution s b s' →
  isManualMode s = true →
  currentISIValue s = selectedISI s →
  currentISIValue s' = selectedISI s' ∧ selectedISI s' = selectedISI s
  ∧ isManualMode s' = true.
Proof.
  intros Hres Hm Hsel.
  destruct (resolution_inv _ _ _ Hres) as (_ & Hm' & Hs' & _).
  split; [by eapply resolution_manual|]. split; [done|]. congruence.
Qed.

(** C5, at the failing input. The stored custom settings carry an
    interval of 6000 ms; [loadCustomModeSettings] takes it as it is and
    [startSession] only clamps from below, so the session starts with an
    interval of 6000 ms, outside 500 to 5000. *)
Theorem interval_above_ceiling_at_start :
  isCustomMode custom_6000 = true
  ∧ sessionActive custom_6000 = true
  ∧ currentISIValue custom_6000 = 6000
  ∧ ¬ (500 ≤ currentISIValue custom_6000 ≤ 5000).
Proof. vm_compute. split_and!; try done. intros [_ H]. by apply H. Qed.

(** ** Answered trials *)

Lemma historyMoves_keeps_answered h h' i x :
  historyMoves h h' →
  h !! i = Some x →
  Trial.userAnswer x ≠ Null →
  h' !! i = Some x.
Proof.
  intros [-> | [(j & y & y' & Hj & Hy & ->) | (t & ->)]] Hi Hx.
  - done.
  - rewrite list_lookup_insert_ne; [done|]. intros ->. congruence.
  - by apply lookup_app_l_Some.
Qed.

Lemma processAnswer_history now userAnswer s :
  historyMoves (sessionHistory s) (sessionHistory (processAnswer now userAnswer s).2).
Proof.
  destruct (processAnswer now userAnswer s) as [[] s'] eqn:H; cbn [snd].
  - apply processAnswer_success in H as (x & ok & Hl & Hu & _ & _ & _ & ->).
    right; left. exists (Z.to_nat (lastTrialIndex s)), x. eexists.
    split; [by apply last_index_of_last|]. split; [done|]. reflexivity.
  - apply processAnswer_failure in H as ->. by left.
Qed.

Lemma deadline_history trialId trialPresentationTime now s :
  historyMoves (sessionHistory s)
    (sessionHistory (deadlineCallback trialId trialPresentationTime now s)).
Proof.
  destruct (answerProcessed s) eqn:Ha.
  { rewrite deadline_backs_off by by left. by left. }
  destruct (processingAnswer s) eqn:Hp.
  { rewrite deadline_backs_off by by right. by left. }
  destruct (list_find (λ y, Trial.trialId y = trialId) (sessionHistory s))
    as [[i x]|] eqn:Hf.
  2:{ unfold deadlineCallback. rewrite Ha, Hp, Hf. by left. }
  destruct (is_null (Trial.userAnswer x)) eqn:Hu.
  2:{ rewrite (deadline_answered _ _ _ _ _ _ Hf); [by left|].
      by destruct (Trial.userAnswer x). }
  assert (Trial.userAnswer x = Null) as Hu' by by destruct (Trial.userAnswer x).
  destruct (Z.eq_dec (Z.of_nat i) (lastTrialIndex s)) as [Hi | Hi].
  - unfold deadlineCallback. rewrite Ha, Hp, Hf, Hu, Hi, Z.eqb_refl.
    cbn [negb andb].
    set (ua := if negb (is_null _) && negb (isNaN _) then _ else Null). clearbody ua.
    pose proof (processAnswer_history now ua (set_answerProcessed true s)) as Hm.
    destruct (processAnswer now ua (set_answerProcessed true s)) as [ok s1].
    cbn [snd] in Hm.
    by destruct ok, (useNumberPad s1) eqn:?; cbn; rewrite ?Heqb.
  - rewrite (deadline_late _ _ _ _ _ _ Ha Hp Hf Hu' Hi). cbn.
    right; left. exists i, x. eexists. split; [|done].
    by apply list_find_Some in Hf as (? & _).
Qed.

Lemma claimed_attempt_history now userAnswer s0 :
  historyMoves (sessionHistory s0)
    (sessionHistory
       (let '(success, s) := processAnswer now userAnswer (set_answerProcessed true s0) in
        if negb success then set_answerProcessed false s else s)).
Proof.
  pose proof (processAnswer_history now userAnswer (set_answerProcessed true s0)) as Hm.
  destruct (processAnswer now userAnswer (set_answerProcessed true s0)) as [[] s1];
    exact Hm.
Qed.

Lemma onAnswerInput_history now s :
  historyMoves (sessionHistory s) (sessionHistory (onAnswerInput now s)).
Proof.
  unfold onAnswerInput.
  destruct (negb (canProcessButtonClick s)); [by left|].
  destruct (_ && _); [|by left].
  destruct (strict_eq _ _); [|by left].
  apply claimed_attempt_history.
Qed.

Lemma onEnterKey_history now s :
  historyMoves (sessionHistory s) (sessionHistory (onEnterKey now s)).
Proof.
  unfold onEnterKey.
  destruct (negb (is_empty_text (answerInput s))); [|by left].
  destruct (negb (answerProcessed s) && canProcessButtonClick s); [|by left].
  destruct (_ && _); [|by left].
  destruct (strict_eq _ _); [|by left].
  apply claimed_attempt_history.
Qed.

Lemma handleButtonInteraction_history now value s :
  historyMoves (sessionHistory s) (sessionHistory (handleButtonInteraction now value s)).
Proof.
  unfold handleButtonInteraction.
  destruct (negb (canProcessButtonClick s)); [by left|].
  destruct (shouldProcessAnswerImmediately _ _); [|by left].
  pose proof (processAnswer_history now (Num value)
                (set_answerProcessed true (set_selectedButton (Some value) s))) as Hm.
  destruct (processAnswer now (Num value) _) as [[] s1]; exact Hm.
Qed.

Lemma afterSpeak_history now s : sessionHistory (afterSpeak now s) = sessionHistory s.
Proof. unfold afterSpeak. by case_match. Qed.

Lemma speakNumber_history number s :
  sessionHistory (speakNumber number s).2 = sessionHistory s.
Proof. unfold speakNumber. by repeat case_match. Qed.

Lemma clearCurrentInterval_history s :
  sessionHistory (clearCurrentInterval s) = sessionHistory s.
Proof. unfold clearCurrentInterval. by case_match. Qed.

Lemma presentNextNumber_history now r s :
  historyMoves (sessionHistory s) (sessionHistory (presentNextNumber now r s)).
Proof.
  unfold presentNextNumber.
  destruct (negb (sessionActive s)); [by left|].
  destruct (nextNumberScheduled s); [by left|].
  match goal with |- context [if ?c then _ else _] => destruct c end.
  { left. cbn. by rewrite !clearCurrentInterval_history. }
  cbv zeta.
  match goal with |- context [speakNumber ?n ?st] =>
    pose proof (speakNumber_history n st) as Hsp;
    destruct (speakNumber n st) as [settled s1]
  end.
  cbn [snd] in Hsp.
  assert (Hafter : sessionHistory (if settled then afterSpeak now s1 else s1)
                   = sessionHistory s1)
    by (destruct settled; [apply afterSpeak_history | done]).
  rewrite Hafter, Hsp. clear.
  repeat match goal with
         | |- context [if ?c then _ else _] => destruct c
         end; cbn; rewrite clearCurrentInterval_history;
    try (by left); right; right; by eexists.
Qed.

Lemma addSessionToHistory_history now s :
  sessionHistory (addSessionToHistory now s) = sessionHistory s.
Proof. unfold addSessionToHistory. by repeat case_match. Qed.

Lemma endSession_history now s :
  sessionHistory (endSession now s) = sessionHistory s.
Proof.
  unfold endSession. rewrite addSessionToHistory_history. cbn.
  rewrite clearCurrentInterval_history. by case_match.
Qed.

Lemma updateTimer_history now s :
  sessionHistory (updateTimer now s) = sessionHistory s.
Proof.
  unfold updateTimer. case_match; [|done]. by rewrite endSession_history.
Qed.

Lemma fire_history id now r s :
  historyMoves (sessionHistory s) (sessionHistory (fire id now r s)).
Proof.
  unfold fire. destruct (pendingTask id s) as [[]|]; [| | | |by left].
  - left. apply updateTimer_history.
  - apply (presentNextNumber_history now r (clearTimeout id s)).
  - apply (deadline_history _ _ now (clearTimeout id s)).
  - left. by rewrite afterSpeak_history.
Qed.

Lemma updateStandardModeUI_history s :
  sessionHistory (updateStandardModeUI s) = sessionHistory s.
Proof. unfold updateStandardModeUI. by repeat case_match. Qed.

Lemma loadAll_history s : sessionHistory (loadAll s) = sessionHistory s.
Proof.
  unfold loadAll. cbv zeta.
  assert (H0 : ∀ v s, sessionHistory (set_nbackInput v s) = sessionHistory s)
    by (by intros ? []).
  rewrite H0, updateStandardModeUI_history.
  assert (H1 : ∀ s, sessionHistory (loadAudioSpeedSettings s) = sessionHistory s)
    by (intros; unfold loadAudioSpeedSettings; by case_match).
  assert (H2 : ∀ s, sessionHistory (loadBeepSettings s) = sessionHistory s)
    by (intros; unfold loadBeepSettings; by case_match).
  assert (H3 : ∀ s, sessionHistory (loadNbackSettings s) = sessionHistory s)
    by (intros; unfold loadNbackSettings; by case_match).
  assert (H4 : ∀ s, sessionHistory (loadManualModeSettings s) = sessionHistory s)
    by (intros; unfold loadManualModeSettings; by case_match).
  assert (H5 : ∀ s, sessionHistory (loadCustomModeSettings s) = sessionHistory s)
    by (intros; unfold loadCustomModeSettings; by case_match).
  assert (H6 : ∀ s, sessionHistory (loadSessions s) = sessionHistory s)
    by (intros; unfold loadSessions; by repeat case_match).
  by rewrite H1, H2, H3, H4, H5, H6.
Qed.

(** Every event but the start of a new session moves the history in one
    of the three ways of [historyMoves]. *)
Lemma step_history e s :
  e ≠ ClickStartTraining →
  historyMoves (sessionHistory s) (sessionHistory (step e s)).
Proof.
  intros He.
  destruct e; cbn [step]; try done.
  - left. apply loadAll_history.
  - by left.
  - left. unfold clickStandardMode. by rewrite updateStandardModeUI_history.
  - by left.
  - left. unfold clickManualMode. by case_match.
  - left. unfold clickIsiButton. by repeat case_match.
  - by left.
  - by left.
  - left. unfold inputNback. by case_match.
  - by left.
  - by left.
  - by left.
  - left. unfold changeUseNumberPad. by repeat case_match.
  - left. apply endSession_history.
  - apply fire_history.
  - apply (onAnswerInput_history now (set_answerInput text s)).
  - apply onEnterKey_history.
  - apply handleButtonInteraction_history.
Qed.

(** C7. A trial whose [userAnswer] is set (not [null]) stays exactly as it
    is under every event of the session (the start of a new session
    discards the whole history); [processAnswer] called while it is the
    last trial returns [false] and changes nothing; and the deadline
    callback that finds it under its id changes nothing. *)
Theorem answered_trial_is_final now userAnswer trialId trialPresentationTime s i x :
  sessionHistory s !! i = Some x →
  Trial.userAnswer x ≠ Null →
  (∀ e, e ≠ ClickStartTraining → sessionHistory (step e s) !! i = Some x)
  ∧ (last (sessionHistory s) = Some x →
     processAnswer now userAnswer s = (false, s))
  ∧ (list_find (λ y, Trial.trialId y = trialId) (sessionHistory s) = Some (i, x) →
     deadlineCallback trialId trialPresentationTime now s = s).
Proof.
  intros Hi Hx. split_and!.
  - intros e He. eapply historyMoves_keeps_answered; [by apply step_history|done..].
  - intros Hl. by eapply processAnswer_rejects_answered.
  - intros Hf. by eapply deadline_answered.
Qed.

(** C7 at [trial1_answered]. *)
Lemma answered_trial_is_final_witness :
  let x := Trial.mk 1 7 (Some 4) (Num 11) (Num 11) (Some true) 3000 1 (Some 600) in
  sessionHistory trial1_answered !! 0%nat = Some x
  ∧ Trial.userAnswer x ≠ Null
  ∧ sessionHistory (step (Fire 7 8000 0) trial1_answered) !! 0%nat = Some x
  ∧ processAnswer 6000 (Num 3) trial1_answered = (false, trial1_answered)
  ∧ deadlineCallback 1 5000 8000 trial1_answered = trial1_answered.
Proof.
  intros x.
  assert (Hi : sessionHistory trial1_answered !! 0%nat = Some x)
    by (vm_compute; reflexivity).
  assert (Hx : Trial.userAnswer x ≠ Null) by discriminate.
  destruct (answered_trial_is_final 6000 (Num 3) 1 5000 trial1_answered 0%nat x Hi Hx)
    as (Hkeep & Hproc & _).
  destruct (answered_trial_is_final 8000 (Num 3) 1 5000 trial1_answered 0%nat x Hi Hx)
    as (_ & _ & Hdead).
  split; [exact Hi|]. split; [exact Hx|].
  split; [apply Hkeep; discriminate|].
  split; [apply Hproc; vm_compute; reflexivity|].
  apply Hdead. vm_compute. reflexivity.
Defined.

(** ** The end of a session *)

(** What [endSession] does reset and cancel. *)
Lemma endSession_flags now s :
  sessionActive (endSession now s) = false
  ∧ processingAnswer (endSession now s) = false
  ∧ answerProcessed (endSession now s) = false
  ∧ nextNumberScheduled (endSession now s) = false
  ∧ audioPlayInProgress (endSession now s) = false
  ∧ forcePresentNextNumber (endSession now s) = false
  ∧ currentIntervalId (endSession now s) = None.
Proof.
  unfold endSession, addSessionToHistory, clearCurrentInterval, stopAllAudio,
    saveSessions, setItem.
  destruct s. destruct trainingTimerId0, currentIntervalId0; cbn;
    repeat case_match; cbn; by split_and!.
Qed.

Lemma presentNextNumber_after_end now stop r s :
  presentNextNumber now r (endSession stop s) = endSession stop s.
Proof.
  unfold presentNextNumber.
  destruct (endSession_flags stop s) as (-> & _). done.
Qed.

Lemma clearTimeout_pending id s :
  pendingTask id (clearTimeout id s) = None.
Proof.
  unfold pendingTask, clearTimeout.
  assert (Ht : ∀ v s, timers (set_timers v s) = v) by (by intros ? []).
  rewrite Ht.
  assert (list_find (λ p : Z * Task, p.1 = id) (filter (λ p, p.1 ≠ id) (timers s)) = None)
    as ->; [|done].
  apply list_find_None, Forall_forall.
  by intros p [? _]%list_elem_of_filter.
Qed.

Lemma endSession_cancels_presentation now s id :
  currentIntervalId s = Some id →
  pendingTask id (endSession now s) = None.
Proof.
  intros Hid.
  assert (Hfind : ∀ l : list (Z * Task),
            list_find (λ p : Z * Task, p.1 = id) (filter (λ p, p.1 ≠ id) l) = None).
  { intros l. apply list_find_None, Forall_forall.
    by intros p [? _]%list_elem_of_filter. }
  unfold endSession, addSessionToHistory, clearCurrentInterval, stopAllAudio,
    saveSessions, setItem, clearTimeout, pendingTask.
  destruct s. cbn in Hid. subst.
  destruct trainingTimerId0 as [t|]; cbn; repeat case_match; cbn; by rewrite Hfind.
Qed.

(** C6, at the failing input. The session is stopped while trial 1 is open.
    [endSession] cancels the presentation timer, but the handle of the
    deadline timer was never kept: the deadline of trial 1 is still
    pending, and because [endSession] has cleared [answerProcessed] and
    [processingAnswer] its guard lets it through. When it fires, trial 1
    is scored and [totalAttempts] and [consecutiveIncorrect] go from 0 to
    1, after the end of the session. *)
Theorem deadline_outlives_session :
  (* the session was stopped while trial 1 was open and unscored *)
  sessionActive stopped_early = false
  ∧ totalAttempts stopped_early = 0
  ∧ trialIsScored 1 stopped_early = false
  (* the presentation timer is gone, the deadline timer is not *)
  ∧ pendingTask 6 stopped_early = None
  ∧ pendingTask 7 stopped_early = Some (DeadlineTask 1 5000)
  (* and when it fires, the trial is scored and the counters move *)
  ∧ totalAttempts (step (Fire 7 8000 0) stopped_early) = 1
  ∧ consecutiveIncorrect (step (Fire 7 8000 0) stopped_early) = 1
  ∧ trialIsScored 1 (step (Fire 7 8000 0) stopped_early) = true.
Proof. vm_compute. by split_and!. Qed.

(** ** The session log *)

Lemma addSessionToHistory_short now s :
  totalAttempts s < 50 →
  addSessionToHistory now s = s.
Proof.
  intros H. unfold addSessionToHistory.
  destruct (Z.of_nat (length (sessionHistory s)) =? 0); [done|].
  by destruct (Z.ltb_spec (totalAttempts s) 50); [|lia].
Qed.

Lemma endSession_log now s :
  totalAttempts s < 50 →
  allSessions (endSession now s) = allSessions s
  ∧ localStorage (endSession now s) = localStorage s.
Proof.
  intros H. unfold endSession. cbv zeta.
  rewrite addSessionToHistory_short.
  - unfold clearCurrentInterval, stopAllAudio.
    destruct s; cbn. by repeat case_match.
  - unfold clearCurrentInterval, stopAllAudio.
    destruct s; cbn in *. by repeat case_match.
Qed.

Lemma updateTimer_log now s :
  totalAttempts s < 50 →
  allSessions (updateTimer now s) = allSessions s
  ∧ localStorage (updateTimer now s) = localStorage s.
Proof.
  intros H. unfold updateTimer. cbv zeta.
  destruct (_ <=? 0); [|by destruct s].
  destruct (endSession_log now (set_remainingTime (remainingTime s - 1) s))
    as [-> ->]; [by destruct s|]. by destruct s.
Qed.

(** A session that reached 50 attempts is logged, once. *)
Lemma addSessionToHistory_long now s :
  sessionHistory s ≠ [] →
  50 ≤ totalAttempts s →
  ∃ sessionData,
    SessionData.totalAttempts sessionData = totalAttempts s
    ∧ allSessions (addSessionToHistory now s) = allSessions s ++ [sessionData]
    ∧ localStorage (addSessionToHistory now s) !! "pasatSessions"
      = Some (SessionsDoc (allSessions s ++ [sessionData])).
Proof.
  intros Hh H. unfold addSessionToHistory.
  destruct (Z.eqb_spec (Z.of_nat (length (sessionHistory s))) 0) as [Hl|_].
  { by destruct (sessionHistory s). }
  destruct (Z.ltb_spec (totalAttempts s) 50); [lia|].
  eexists. split; [|split]; [| reflexivity |].
  - reflexivity.
  - unfold saveSessions, setItem. by destruct s.
Qed.

(** C10. Ending a session, by the stop button or by the tick that finds
    the time used up, changes the session log ([allSessions] and what is
    stored) only if [totalAttempts] is 50 or more; with 30 attempts the log
    and the storage are as before. *)
Theorem summary_needs_50_attempts now s :
  (* an explicit stop *)
  (allSessions (endSession now s) ≠ allSessions s
   ∨ localStorage (endSession now s) ≠ localStorage s →
   50 ≤ totalAttempts s)
  (* the one-second tick, which ends the session when the time is up *)
  ∧ (allSessions (updateTimer now s) ≠ allSessions s
     ∨ localStorage (updateTimer now s) ≠ localStorage s →
     50 ≤ totalAttempts s)
  ∧ (totalAttempts s = 30 →
     allSessions (endSession now s) = allSessions s
     ∧ localStorage (endSession now s) = localStorage s
     ∧ allSessions (updateTimer now s) = allSessions s
     ∧ localStorage (updateTimer now s) = localStorage s).
Proof.
  split_and!.
  - intros H. destruct (Z.lt_ge_cases (totalAttempts s) 50) as [Hlt|]; [|done].
    destruct (endSession_log now s Hlt). by destruct H.
  - intros H. destruct (Z.lt_ge_cases (totalAttempts s) 50) as [Hlt|]; [|done].
    destruct (updateTimer_log now s Hlt). by destruct H.
  - intros H.
    destruct (endSession_log now s) as [-> ->]; [lia|].
    destruct (updateTimer_log now s) as [-> ->]; [lia|]. done.
Qed.

(** C10 at a session that ends with 30 attempts. *)
Lemma summary_needs_50_attempts_witness :
  totalAttempts unattended_30 = 30
  ∧ allSessions (endSession 170000 unattended_30) = allSessions unattended_30
  ∧ localStorage (endSession 170000 unattended_30) = localStorage unattended_30.
Proof.
  assert (H30 : totalAttempts unattended_30 = 30) by (vm_compute; reflexivity).
  destruct (summary_needs_50_attempts 170000 unattended_30) as (_ & _ & H).
  destruct (H H30) as (Ha & Hl & _). by split_and!.
Defined.

(** ** Saving and reloading the settings *)

Lemma getItem_setItem key doc s :
  key ≠ "pasatSessions" → getItem key (setItem key doc s) = Some doc.
Proof.
  intros Hk. unfold getItem, setItem. destruct s; cbn.
  by apply Storage_lookup_insert_eq.
Qed.

Lemma or_default_nonzero v d : v ≠ 0 → or_default (Some v) d = v.
Proof. intros H. unfold or_default. by destruct (Z.eqb_spec v 0). Qed.

Lemma or_defaultQ_nonzero v d : ¬ (v == 0)%Q → or_defaultQ (Some v) d = v.
Proof.
  intros H. unfold or_defaultQ.
  destruct (Qeq_bool v 0) eqn:E; [|done]. by apply Qeq_bool_iff in E.
Qed.

Lemma clampQ_inside lo hi v :
  (lo <= v)%Q → (v <= hi)%Q → Math_max lo (Math_min hi v) = v.
Proof.
  intros Hlo Hhi. unfold Math_max, Math_min.
  rewrite (proj2 (Qle_bool_iff v hi) Hhi). by rewrite (proj2 (Qle_bool_iff lo v) Hlo).
Qed.

(** The records whose values are in range and not zero come back as they
    were saved. [t] is the page after a reload: any state whose storage
    holds what [s] saved. *)
Lemma nback_round_trip s t :
  getItem "pasatNbackSettings" t = getItem "pasatNbackSettings" (saveNbackSettings s) →
  1 ≤ nbackSettings s ≤ 10 →
  nbackSettings (loadNbackSettings t) = nbackSettings s.
Proof.
  intros Hget Hrange. unfold loadNbackSettings.
  rewrite Hget. unfold saveNbackSettings. rewrite getItem_setItem by done.
  cbn [nback_prop]. rewrite or_default_nonzero by lia.
  destruct t; cbn. lia.
Qed.

Lemma audio_speed_round_trip s t :
  getItem "pasatAudioSpeedSettings" t
    = getItem "pasatAudioSpeedSettings" (saveAudioSpeedSettings s) →
  (1 <= audioSpeedSettings s)%Q → (audioSpeedSettings s <= 3 # 2)%Q →
  audioSpeedSettings (loadAudioSpeedSettings t) = audioSpeedSettings s.
Proof.
  intros Hget Hlo Hhi. unfold loadAudioSpeedSettings.
  rewrite Hget. unfold saveAudioSpeedSettings. rewrite getItem_setItem by done.
  cbn [speed_prop]. rewrite or_defaultQ_nonzero.
  - rewrite clampQ_inside by done. by destruct t.
  - intros E. rewrite E in Hlo. by apply Qle_bool_iff in Hlo.
Qed.

Lemma beep_round_trip s t :
  getItem "pasatBeepSettings" t = getItem "pasatBeepSettings" (saveBeepSettings s) →
  (0 < BeepSettings.volume (beepSettings s))%Q →
  (BeepSettings.volume (beepSettings s) <= 1)%Q →
  beepSettings (loadBeepSettings t) = beepSettings s.
Proof.
  intros Hget Hlo Hhi. unfold loadBeepSettings.
  rewrite Hget. unfold saveBeepSettings. rewrite getItem_setItem by done.
  cbn [beep_props fst snd or_false]. rewrite or_defaultQ_nonzero.
  - rewrite clampQ_inside; [|by apply Qlt_le_weak|done].
    destruct t; cbn. by destruct (beepSettings s).
  - intros E. rewrite E in Hlo. by apply Qlt_irrefl in Hlo.
Qed.

Lemma custom_mode_round_trip s t :
  getItem "pasatCustomModeSettings" t
    = getItem "pasatCustomModeSettings" (saveCustomModeSettings s) →
  500 ≤ ModeSettings.selectedISI (customModeSettings s) →
  1 ≤ ModeSettings.sessionDuration (customModeSettings s) →
  customModeSettings (loadCustomModeSettings t) = customModeSettings s.
Proof.
  intros Hget Hisi Hdur. unfold loadCustomModeSettings.
  rewrite Hget. unfold saveCustomModeSettings. rewrite getItem_setItem by done.
  cbn [mode_props fst snd]. rewrite !or_default_nonzero by lia.
  destruct t; cbn. by destruct (customModeSettings s).
Qed.

Lemma manual_mode_round_trip s t :
  getItem "pasatManualModeSettings" t
    = getItem "pasatManualModeSettings" (saveManualModeSettings s) →
  500 ≤ ModeSettings.selectedISI (manualModeSettings s) →
  1 ≤ ModeSettings.sessionDuration (manualModeSettings s) →
  manualModeSettings (loadManualModeSettings t) = manualModeSettings s.
Proof.
  intros Hget Hisi Hdur. unfold loadManualModeSettings.
  rewrite Hget. unfold saveManualModeSettings. rewrite getItem_setItem by done.
  cbn [mode_props fst snd]. rewrite !or_default_nonzero by lia.
  destruct t; cbn. by destruct (manualModeSettings s).
Qed.

(** C9, at the failing input. A beep volume of 0 is within 0 to 1. It is
    saved as 0, and on reload [settings.volume || 0.5] takes the stored 0
    for a missing value: the volume comes back as 0.5. *)
Theorem beep_volume_zero_not_restored :
  beepSettings muted = BeepSettings.mk true 0%Q
  ∧ localStorage muted !! "pasatBeepSettings" = Some (BeepDoc (Some true) (Some 0%Q))
  ∧ beepSettings muted_reloaded = BeepSettings.mk true (1 # 2)
  ∧ beepSettings muted_reloaded ≠ beepSettings muted.
Proof. vm_compute. by split_and!. Qed.

(** * Properties of the screens *)

(** ** Numbers as text *)

Lemma padStart_two_digits z :
  0 ≤ z < 100 → padStart 2 "0"%char (Number_toString z) = two_digits z.
Proof.
  intros Hz.
  assert (H : ∀ n : nat, (n < 100)%nat →
    padStart 2 "0"%char (Number_toString (Z.of_nat n)) = two_digits (Z.of_nat n)).
  { intros n Hn. do 100 (destruct n as [|n]; [vm_compute; reflexivity|]). lia. }
  rewrite <- (Z2Nat.id z) by lia. apply H. lia.
Qed.

Lemma Z_rem_mod_nonneg a b : 0 ≤ a → 0 < b → Z.rem a b = a mod b.
Proof. intros. apply Z.rem_mod_nonneg; lia. Qed.

(** ** The timer face *)



(** ** Rounding, sums and extremes *)

(** [Math.round] of a quotient of integers, in integer arithmetic. *)
Lemma Math_round_quotient a w :
  0 < w → Math_round (inject_Z a / inject_Z w) = (2 * a + w) / (2 * w).
Proof.
  intros Hw. unfold Math_round. rewrite Zdiv_Qdiv.
  apply Qfloor_comp.
  rewrite !inject_Z_plus, !inject_Z_mult.
  assert (¬ (inject_Z w == 0)%Q).
  { intros E. unfold Qeq in E. cbn in E. lia. }
  field. done.
Qed.

Lemma percent_range c a :
  0 < a → 0 ≤ c ≤ a → 0 ≤ (200 * c + a) / (2 * a) ≤ 100.
Proof.
  intros Ha Hc. split.
  - apply Z.div_pos; lia.
  - assert ((200 * c + a) / (2 * a) < 101); [|lia].
    apply Z.div_lt_upper_bound; lia.
Qed.

Lemma rounded_mean_lower a w lo :
  0 < w → lo * w ≤ a → lo ≤ (2 * a + w) / (2 * w).
Proof. intros Hw Ha. apply Z.div_le_lower_bound; lia. Qed.

Lemma rounded_mean_upper a w hi :
  0 < w → a ≤ hi * w → (2 * a + w) / (2 * w) ≤ hi.
Proof.
  intros Hw Ha.
  assert ((2 * a + w) / (2 * w) < hi + 1); [|lia].
  apply Z.div_lt_upper_bound; lia.
Qed.

Lemma sumZ_app l k : sumZ (l ++ k) = sumZ l + sumZ k.
Proof. unfold sumZ. induction l as [|x l IH]; cbn; lia. Qed.

Lemma sumZ_lower (l : list Z) c :
  Forall (λ x, c ≤ x) l → c * Z.of_nat (length l) ≤ sumZ l.
Proof. unfold sumZ. induction 1; cbn [foldr length]; lia. Qed.

Lemma foldl_max_spec (l : list Z) x :
  x ≤ foldl Z.max x l
  ∧ Forall (λ y, y ≤ foldl Z.max x l) l
  ∧ (foldl Z.max x l = x ∨ foldl Z.max x l ∈ l).
Proof.
  revert x. induction l as [|y l IH]; intros x; cbn.
  - split; [lia|]. split; [constructor|by left].
  - destruct (IH (Z.max x y)) as (H1 & H2 & H3).
    split; [lia|]. split; [constructor; [lia|done]|].
    destruct H3 as [-> | H3]; [|right; by right].
    destruct (Z.max_spec x y) as [[_ ->] | [_ ->]]; [right; by left|by left].
Qed.

(** [Math.max(...l)] of a list that is not empty is its greatest entry. *)
Lemma Math_max_of_spec (l : list Z) :
  l ≠ [] → Math_max_of l ∈ l ∧ Forall (λ y, y ≤ Math_max_of l) l.
Proof.
  destruct l as [|x l]; [done|]. intros _. cbn.
  destruct (foldl_max_spec l x) as (H1 & H2 & H3). split.
  - destruct H3 as [-> | H3]; [by left|by right].
  - by constructor.
Qed.

Lemma foldl_min_spec (l : list Z) x :
  foldl Z.min x l ≤ x
  ∧ Forall (λ y, foldl Z.min x l ≤ y) l
  ∧ (foldl Z.min x l = x ∨ foldl Z.min x l ∈ l).
Proof.
  revert x. induction l as [|y l IH]; intros x; cbn.
  - split; [lia|]. split; [constructor|by left].
  - destruct (IH (Z.min x y)) as (H1 & H2 & H3).
    split; [lia|]. split; [constructor; [lia|done]|].
    destruct H3 as [-> | H3]; [|right; by right].
    destruct (Z.min_spec x y) as [[_ ->] | [_ ->]]; [by left|right; by left].
Qed.

Lemma Math_min_of_spec (l : list Z) :
  l ≠ [] → Math_min_of l ∈ l ∧ Forall (λ y, Math_min_of l ≤ y) l.
Proof.
  destruct l as [|x l]; [done|]. intros _. cbn.
  destruct (foldl_min_spec l x) as (H1 & H2 & H3). split.
  - destruct H3 as [-> | H3]; [by left|by right].
  - by constructor.
Qed.

(** ** The progress screen *)

Lemma formatTime_nonneg ms :
  0 ≤ ms →
  formatTime ms
  = Number_toString (ms / 60000) +:+ ":" +:+ two_digits (ms / 1000 mod 60).
Proof.
  intros Hms.
  assert (H0 : 0 ≤ ms / 1000) by (apply Z.div_pos; lia).
  unfold formatTime. cbv zeta.
  rewrite Z_rem_mod_nonneg by lia.
  rewrite padStart_two_digits
    by (pose proof (Z.mod_pos_bound (ms / 1000) 60); lia).
  by rewrite Z.div_div by lia.
Qed.

Lemma formatTime_below_a_second ms :
  0 ≤ ms < 1000 → formatTime ms = "0:00".
Proof.
  intros Hms. rewrite formatTime_nonneg by lia.
  rewrite !Z.div_small by lia. reflexivity.
Qed.

(** [formatTime] writes a span of milliseconds as its whole minutes, a
    colon and the two digits of the seconds left over; a span below one
    second reads 0:00. *)
Theorem formatTime_minutes_seconds ms :
  0 ≤ ms →
  formatTime ms
    = Number_toString (ms / 60000) +:+ ":" +:+ two_digits (ms / 1000 mod 60)
  ∧ (ms < 1000 → formatTime ms = "0:00").
Proof.
  intros Hms. split; [by apply formatTime_nonneg|].
  intros Hlt. apply formatTime_below_a_second. lia.
Qed.

Lemma formatTime_minutes_seconds_witness :
  formatTime 125000 = Number_toString 2 +:+ ":" +:+ two_digits 5
  ∧ formatTime 999 = "0:00".
Proof.
  destruct (formatTime_minutes_seconds 125000) as [H1 _]; [lia|].
  destruct (formatTime_minutes_seconds 999) as [_ H2]; [lia|].
  split; [exact H1 | apply H2; lia].
Defined.

Lemma progress_inv selectedMode s d :
  updateProgressDisplay selectedMode s = Progress d →
  let valid := validSessions selectedMode s in
  valid ≠ []
  ∧ ProgressDisplay.totalSessions d = Z.of_nat (length valid)
  ∧ ProgressDisplay.totalQuestions d = sumZ (map SessionData.totalAttempts valid)
  ∧ ProgressDisplay.avgAccuracy d =
      (if 0 <? sumZ (map SessionData.totalAttempts valid)
       then Math_round
              (inject_Z (sumZ (map (λ session, SessionData.accuracy session
                                      * SessionData.totalAttempts session) valid))
               / inject_Z (sumZ (map SessionData.totalAttempts valid)))
       else 0)
  ∧ ProgressDisplay.avgResponseTime d =
      Math_round (inject_Z (sumZ (map SessionData.averageResponseTime valid))
                  / inject_Z (Z.of_nat (length valid)))
  ∧ ProgressDisplay.bestAccuracy d = Math_max_of (map SessionData.accuracy valid)
  ∧ ProgressDisplay.totalTime d
      = formatTime (sumZ (map SessionData.sessionDuration valid))
  ∧ ProgressDisplay.avgSessionTime d
      = formatTime (Math_round
                      (inject_Z (sumZ (map SessionData.sessionDuration valid))
                       / inject_Z (Z.of_nat (length valid))))
  ∧ ProgressDisplay.recentSessions d = reverse (slice_last 10 valid)
  ∧ ProgressDisplay.last10Sessions d = slice_last 10 valid.
Proof.
  unfold updateProgressDisplay. cbv zeta.
  destruct (Z.of_nat (length (allSessions s)) =? 0); [done|].
  destruct (Z.of_nat (length (validSessions selectedMode s)) =? 0) eqn:E; [done|].
  assert (Hne : validSessions selectedMode s ≠ []).
  { intros E0. rewrite E0 in E. done. }
  assert ((0 <? Z.of_nat (length (validSessions selectedMode s))) = true) as ->.
  { apply Z.ltb_lt. destruct (validSessions selectedMode s); [done|].
    cbn [length]. lia. }
  intros [= <-]. cbn. by repeat split.
Qed.

Lemma validSessions_spec selectedMode s x :
  x ∈ validSessions selectedMode s ↔
  x ∈ allSessions s ∧ 50 ≤ SessionData.totalAttempts x
  ∧ ∀ m, selectedMode = Some m → SessionData.mode x = m.
Proof.
  unfold validSessions. destruct selectedMode as [m|].
  - rewrite !list_elem_of_filter. split.
    + intros (Hm & Ha & Hx). split; [done|]. split; [done|]. by intros ? [= <-].
    + intros (Hx & Ha & Hm). split; [by apply Hm|done].
  - rewrite list_elem_of_filter. split.
    + intros (Ha & Hx). by repeat split.
    + intros (Hx & Ha & _). done.
Qed.

Lemma slice_last_length {A} (l : list A) n :
  length (slice_last n l) = Nat.min n (length l).
Proof. unfold slice_last. rewrite length_drop. lia. Qed.

Lemma slice_last_last {A} (l : list A) n :
  (0 < n)%nat → last (slice_last n l) = last l.
Proof.
  intros Hn. unfold slice_last.
  destruct (decide (l = [])) as [-> | Hne]; [done|].
  rewrite !last_lookup, length_drop, lookup_drop. f_equal.
  assert (0 < length l)%nat by (destruct l; [done|cbn; lia]). lia.
Qed.

Lemma progress_empty_cases selectedMode s :
  (updateProgressDisplay selectedMode s = NoSessionsYet → allSessions s = [])
  ∧ (updateProgressDisplay selectedMode s = NoValidSessions →
     allSessions s ≠ [] ∧ validSessions selectedMode s = []).
Proof.
  unfold updateProgressDisplay. cbv zeta.
  destruct (Z.of_nat (length (allSessions s)) =? 0) eqn:E1.
  - split; [|done]. intros _. apply Z.eqb_eq in E1.
    destruct (allSessions s); [done|cbn [length] in E1; lia].
  - destruct (Z.of_nat (length (validSessions selectedMode s)) =? 0) eqn:E2;
      [|done].
    split; [done|]. intros _. split.
    + intros E0. by rewrite E0 in E1.
    + apply Z.eqb_eq in E2.
      destruct (validSessions selectedMode s); [done|cbn [length] in E2; lia].
Qed.

(** What the progress screen shows. With no session logged, or none that
    passes the filter, it shows the empty state. Otherwise it counts the
    sessions of at least 50 attempts in the chosen mode, in the order they
    were logged, and lists the 10 newest of them, newest first. *)
Theorem progress_recent_sessions selectedMode s :
  let valid := validSessions selectedMode s in
  valid `sublist_of` allSessions s
  ∧ match updateProgressDisplay selectedMode s with
    | NoSessionsYet => allSessions s = []
    | NoValidSessions => allSessions s ≠ [] ∧ valid = []
    | Progress d =>
      valid ≠ []
      ∧ ProgressDisplay.totalSessions d = Z.of_nat (length valid)
      ∧ length (ProgressDisplay.recentSessions d) = Nat.min 10 (length valid)
      ∧ head (ProgressDisplay.recentSessions d) = last valid
      ∧ ProgressDisplay.recentSessions d = reverse (ProgressDisplay.last10Sessions d)
      ∧ ProgressDisplay.last10Sessions d `suffix_of` valid
      ∧ Forall (λ x, x ∈ allSessions s ∧ 50 ≤ SessionData.totalAttempts x
                     ∧ ∀ m, selectedMode = Some m → SessionData.mode x = m)
               (ProgressDisplay.recentSessions d)
    end.
Proof.
  cbv zeta. split.
  { unfold validSessions. destruct selectedMode.
    - etrans; apply sublist_filter; apply _.
    - apply sublist_filter; apply _. }
  destruct (updateProgressDisplay selectedMode s) as [| |d] eqn:E.
  - by apply progress_empty_cases in E.
  - by apply progress_empty_cases in E.
  - apply progress_inv in E as (Hne & Hn & _ & _ & _ & _ & _ & _ & Hr & Hl).
    rewrite Hr, Hl.
    split; [done|]. split; [done|].
    split; [by rewrite length_reverse, slice_last_length|].
    split; [by rewrite head_reverse, slice_last_last by lia|].
    split; [done|].
    split; [apply suffix_drop|].
    apply Forall_reverse, Forall_drop, Forall_forall.
    intros x Hx. by apply validSessions_spec.
Qed.

Lemma weighted_sum_lower (l : list SessionData.t) lo :
  Forall (λ x, 0 ≤ SessionData.totalAttempts x) l →
  Forall (λ x, lo ≤ SessionData.accuracy x) l →
  lo * sumZ (map SessionData.totalAttempts l)
    ≤ sumZ (map (λ session, SessionData.accuracy session
                            * SessionData.totalAttempts session) l).
Proof.
  unfold sumZ. induction l as [|x l IH]; intros Hw Ha; cbn; [lia|].
  apply Forall_cons in Hw as [Hw1 Hw], Ha as [Ha1 Ha].
  specialize (IH Hw Ha). nia.
Qed.

Lemma weighted_sum_upper (l : list SessionData.t) hi :
  Forall (λ x, 0 ≤ SessionData.totalAttempts x) l →
  Forall (λ x, SessionData.accuracy x ≤ hi) l →
  sumZ (map (λ session, SessionData.accuracy session
                        * SessionData.totalAttempts session) l)
    ≤ hi * sumZ (map SessionData.totalAttempts l).
Proof.
  unfold sumZ. induction l as [|x l IH]; intros Hw Ha; cbn; [lia|].
  apply Forall_cons in Hw as [Hw1 Hw], Ha as [Ha1 Ha].
  specialize (IH Hw Ha). nia.
Qed.

(** The figures of the progress screen. Every counted session brings at
    least 50 questions; the best accuracy is the accuracy of a counted
    session and no counted session has a better one; and the average
    accuracy, weighted by the questions of each session, lies between the
    worst and the best accuracy of the counted sessions. *)
Theorem progress_figures selectedMode s d :
  updateProgressDisplay selectedMode s = Progress d →
  let valid := validSessions selectedMode s in
  50 * ProgressDisplay.totalSessions d ≤ ProgressDisplay.totalQuestions d
  ∧ (∃ x, x ∈ valid ∧ SessionData.accuracy x = ProgressDisplay.bestAccuracy d)
  ∧ Forall (λ x, SessionData.accuracy x ≤ ProgressDisplay.bestAccuracy d) valid
  ∧ ProgressDisplay.avgAccuracy d ≤ ProgressDisplay.bestAccuracy d
  ∧ (∀ lo, Forall (λ x, lo ≤ SessionData.accuracy x) valid →
           lo ≤ ProgressDisplay.avgAccuracy d).
Proof.
  intros E. cbv zeta.
  apply progress_inv in E as (Hne & Hn & Hq & Ha & _ & Hb & _).
  set (valid := validSessions selectedMode s) in *.
  assert (Hv : Forall (λ x, 50 ≤ SessionData.totalAttempts x) valid).
  { apply Forall_forall. intros x Hx. by apply validSessions_spec in Hx as (_ & ? & _). }
  assert (Hlow : 50 * Z.of_nat (length valid)
                 ≤ sumZ (map SessionData.totalAttempts valid)).
  { rewrite <- (length_map SessionData.totalAttempts).
    apply sumZ_lower. by apply Forall_map. }
  assert (Hpos : 0 < sumZ (map SessionData.totalAttempts valid)).
  { destruct valid; [done|]. cbn [length] in Hlow. lia. }
  destruct (Math_max_of_spec (map SessionData.accuracy valid)) as [Hin Hmax].
  { by destruct valid. }
  rewrite <- Hb in Hin, Hmax.
  apply list_elem_of_fmap in Hin as (x & Hx & Hin).
  rewrite Forall_map in Hmax.
  assert (Hw : Forall (λ x, 0 ≤ SessionData.totalAttempts x) valid).
  { eapply Forall_impl; [exact Hv|]. cbn. lia. }
  assert (Hm : ProgressDisplay.avgAccuracy d
    = (2 * sumZ (map (λ session, SessionData.accuracy session
                        * SessionData.totalAttempts session) valid)
       + sumZ (map SessionData.totalAttempts valid))
      / (2 * sumZ (map SessionData.totalAttempts valid))).
  { rewrite Ha. apply Z.ltb_lt in Hpos as Hpos'. rewrite Hpos'.
    by apply Math_round_quotient. }
  split; [lia|]. split; [by exists x|]. split; [done|].
  split.
  - rewrite Hm. apply rounded_mean_upper; [done|].
    by apply weighted_sum_upper.
  - intros lo Hlo. rewrite Hm. apply rounded_mean_lower; [done|].
    by apply weighted_sum_lower.
Qed.

(** Two logged sessions, of 80 and of 60 per cent, the second in manual
    mode. *)
Lemma progress_figures_witness :
  ∃ d,
    updateProgressDisplay None
      (set_allSessions
         [SessionData.mk 1000 40 50 80 20 2500 Standard 1 50 900 12;
          SessionData.mk 2000 60 100 60 20 3000 Manual 1 100 1100 9]
         (initial ∅)) = Progress d
    ∧ ProgressDisplay.avgAccuracy d ≤ ProgressDisplay.bestAccuracy d
    ∧ ProgressDisplay.avgAccuracy d = 67.
Proof.
  eexists. split; [vm_compute; reflexivity|].
  split; [|vm_compute; reflexivity].
  eapply (progress_figures None
            (set_allSessions
               [SessionData.mk 1000 40 50 80 20 2500 Standard 1 50 900 12;
                SessionData.mk 2000 60 100 60 20 3000 Manual 1 100 1100 9]
               (initial ∅))).
  vm_compute. reflexivity.
Defined.

(** The two training times of the progress screen. The durations of the
    sessions are minutes, and [formatTime] reads its argument as
    milliseconds: as long as the counted sessions last less than 1000
    minutes together, both the total and the average time read 0:00. *)
Theorem progress_times_read_zero selectedMode s d :
  updateProgressDisplay selectedMode s = Progress d →
  Forall (λ x, 0 ≤ SessionData.sessionDuration x) (validSessions selectedMode s) →
  sumZ (map SessionData.sessionDuration (validSessions selectedMode s)) < 1000 →
  ProgressDisplay.totalTime d = "0:00"
  ∧ ProgressDisplay.avgSessionTime d = "0:00".
Proof.
  intros E Hd Hsum.
  apply progress_inv in E as (Hne & _ & _ & _ & _ & _ & Ht & Ha & _).
  set (valid := validSessions selectedMode s) in *.
  assert (H0 : 0 ≤ sumZ (map SessionData.sessionDuration valid)).
  { pose proof (sumZ_lower (map SessionData.sessionDuration valid) 0) as H.
    rewrite Forall_map in H. specialize (H Hd). lia. }
  assert (Hn : 0 < Z.of_nat (length valid)).
  { destruct valid; [done|]. cbn [length]. lia. }
  rewrite Ht, Ha, Math_round_quotient by done.
  split.
  - apply formatTime_below_a_second. lia.
  - apply formatTime_below_a_second. split.
    + apply Z.div_pos; lia.
    + apply Z.div_lt_upper_bound; lia.
Qed.

(** Forty sessions of 20 minutes: 800 minutes of training read 0:00. *)
Lemma progress_times_read_zero_witness :
  ∃ d,
    updateProgressDisplay None
      (set_allSessions
         (replicate 40 (SessionData.mk 1000 40 50 80 20 2500 Standard 1 50 900 12))
         (initial ∅)) = Progress d
    ∧ ProgressDisplay.totalTime d = "0:00".
Proof.
  eexists. split; [vm_compute; reflexivity|].
  eapply (progress_times_read_zero None
            (set_allSessions
               (replicate 40 (SessionData.mk 1000 40 50 80 20 2500 Standard 1 50 900 12))
               (initial ∅))).
  - vm_compute. reflexivity.
  - vm_compute. repeat constructor; discriminate.
  - vm_compute. reflexivity.
Defined.

(** The sessions of the last week are those of the last 30 days that are
    less than 7 days old, in the order they were logged; a session is among
    them exactly when it is logged and less than 7 days old. *)
Theorem weekly_progress_within_monthly now s :
  getWeeklyProgress now s `sublist_of` getMonthlyProgress now s
  ∧ getMonthlyProgress now s `sublist_of` allSessions s
  ∧ getWeeklyProgress now s
    = filter (λ session, now - SessionData.date session < 604800000)
             (getMonthlyProgress now s)
  ∧ (∀ x, x ∈ getWeeklyProgress now s
          ↔ x ∈ allSessions s ∧ now - SessionData.date x < 604800000)
  ∧ (∀ x, x ∈ getMonthlyProgress now s
          ↔ x ∈ allSessions s ∧ now - SessionData.date x < 2592000000).
Proof.
  unfold getWeeklyProgress, getMonthlyProgress. cbv zeta.
  assert (E : filter (λ session, SessionData.date session > now - 7 * 24 * 60 * 60 * 1000)
                (allSessions s)
              = filter (λ session, now - SessionData.date session < 604800000)
                  (filter (λ session,
                     SessionData.date session > now - 30 * 24 * 60 * 60 * 1000)
                     (allSessions s))).
  { rewrite list_filter_filter. apply list_filter_iff. intros x. lia. }
  split; [rewrite E; apply sublist_filter; apply _|].
  split; [apply sublist_filter; apply _|].
  split; [exact E|].
  split; intros x; rewrite list_elem_of_filter; split; intros [? ?]; split; (done || lia).
Qed.

Lemma loadAll_allSessions s :
  allSessions (loadAll s) = allSessions (loadSessions s).
Proof.
  unfold loadAll. cbv zeta.
  assert (H0 : ∀ v s, allSessions (set_nbackInput v s) = allSessions s)
    by (by intros ? []).
  assert (H1 : ∀ s, allSessions (updateStandardModeUI s) = allSessions s)
    by (intros; unfold updateStandardModeUI; by repeat case_match).
  assert (H2 : ∀ s, allSessions (loadAudioSpeedSettings s) = allSessions s)
    by (intros; unfold loadAudioSpeedSettings; by case_match).
  assert (H3 : ∀ s, allSessions (loadBeepSettings s) = allSessions s)
    by (intros; unfold loadBeepSettings; by case_match).
  assert (H4 : ∀ s, allSessions (loadNbackSettings s) = allSessions s)
    by (intros; unfold loadNbackSettings; by case_match).
  assert (H5 : ∀ s, allSessions (loadManualModeSettings s) = allSessions s)
    by (intros; unfold loadManualModeSettings; by case_match).
  assert (H6 : ∀ s, allSessions (loadCustomModeSettings s) = allSessions s)
    by (intros; unfold loadCustomModeSettings; by case_match).
  by rewrite H0, H1, H2, H3, H4, H5, H6.
Qed.

(** Clearing the progress data, once confirmed, empties the session list
    and removes its item from [localStorage] while every other stored item
    stays: the progress screen shows its empty state, and so does the next
    visit. When the visitor declines, nothing changes. *)
Theorem clearProgressData_forgets selectedMode s :
  let s' := clearProgressData true s in
  allSessions s' = []
  ∧ getItem "pasatSessions" s' = None
  ∧ (∀ key, key ≠ "pasatSessions" → getItem key s' = getItem key s)
  ∧ updateProgressDisplay selectedMode s' = NoSessionsYet
  ∧ allSessions (step DomContentLoaded (initial (localStorage s'))) = []
  ∧ clearProgressData false s = s.
Proof.
  cbv zeta. unfold clearProgressData, removeItem.
  assert (Hl : localStorage (set_localStorage (delete "pasatSessions" (localStorage (set_allSessions [] s)))
                 (set_allSessions [] s)) = delete "pasatSessions" (localStorage s))
    by (by destruct s).
  assert (Ha : allSessions (set_localStorage (delete "pasatSessions" (localStorage (set_allSessions [] s)))
                 (set_allSessions [] s)) = []) by (by destruct s).
  split; [exact Ha|].
  split; [unfold getItem; rewrite Hl; apply Storage_lookup_delete_eq|].
  split; [intros key Hk; unfold getItem; rewrite Hl; by apply Storage_lookup_delete_ne|].
  split; [unfold updateProgressDisplay; by rewrite Ha|].
  split; [|done].
  cbn [step]. rewrite loadAll_allSessions, Hl. reflexivity.
Qed.

(** ** The history of the result screen *)

Lemma blocks_from_lookup fuel i h k :
  (length h ≤ i + fuel)%nat →
  blocks_from fuel i h !! k =
    (if decide (i + 10 * k < length h)%nat
     then Some (take 10 (drop (i + 10 * k) h)) else None).
Proof.
  revert i k. induction fuel as [|fuel IH]; intros i k Hf; cbn [blocks_from].
  - rewrite decide_False by lia. done.
  - destruct (Z.of_nat i <? Z.of_nat (length h)) eqn:E.
    + apply Z.ltb_lt in E. destruct k as [|k]; cbn [lookup list_lookup].
      * rewrite decide_True by lia. by rewrite Nat.mul_0_r, Nat.add_0_r.
      * change ((take 10 (drop i h) :: blocks_from fuel (i + 10) h) !! S k)
          with (blocks_from fuel (i + 10) h !! k).
        rewrite IH by lia.
        replace (i + 10 + 10 * k)%nat with (i + 10 * S k)%nat by lia. done.
    + apply Z.ltb_ge in E. rewrite decide_False by lia. done.
Qed.

Lemma blocks_from_concat fuel i h :
  (length h ≤ i + fuel)%nat → concat (blocks_from fuel i h) = drop i h.
Proof.
  revert i. induction fuel as [|fuel IH]; intros i Hf; cbn [blocks_from].
  - by rewrite drop_ge by lia.
  - destruct (Z.of_nat i <? Z.of_nat (length h)) eqn:E.
    + cbn [concat]. rewrite IH by lia.
      replace (drop (i + 10) h) with (drop 10 (drop i h))
        by (rewrite drop_drop; f_equal; lia).
      apply take_drop.
    + apply Z.ltb_ge in E. by rewrite drop_ge by lia.
Qed.

Lemma blocks_lookup h k :
  blocks h !! k =
    (if decide (10 * k < length h)%nat
     then Some (take 10 (drop (10 * k) h)) else None).
Proof. unfold blocks. by rewrite blocks_from_lookup by lia. Qed.

(** The history is cut into blocks of ten trials: the blocks, one after
    the other, are the history; block [k] holds the trials from place
    [10 k] on; every block has between one and ten trials; and the loop
    that cuts them ends by its own test, whatever bound it is run with. *)
Theorem history_blocks_partition h :
  concat (blocks h) = h
  ∧ (∀ k block, blocks h !! k = Some block →
       block = take 10 (drop (10 * k) h) ∧ (10 * k < length h)%nat)
  ∧ Forall (λ block, (1 ≤ length block ≤ 10)%nat) (blocks h)
  ∧ Z.of_nat (length (blocks h)) = (Z.of_nat (length h) + 9) / 10
  ∧ (∀ fuel, (length h ≤ fuel)%nat → blocks_from fuel 0 h = blocks h).
Proof.
  assert (Hk : ∀ k block, blocks h !! k = Some block →
                block = take 10 (drop (10 * k) h) ∧ (10 * k < length h)%nat).
  { intros k block. rewrite blocks_lookup. case_decide; [|done]. by intros [= <-]. }
  split; [unfold blocks; by rewrite blocks_from_concat by lia|].
  split; [exact Hk|].
  split.
  { apply Forall_lookup. intros k block Hb. apply Hk in Hb as [-> Hlt].
    rewrite length_take, length_drop. lia. }
  split.
  { assert (H1 : (10 * length (blocks h) < length h + 10)%nat).
    { destruct (length (blocks h)) as [|m] eqn:E; [lia|].
      assert (is_Some (blocks h !! m)) as [b Hb]
        by (apply lookup_lt_is_Some; lia).
      apply Hk in Hb as [_ ?]. lia. }
    assert (H2 : (length h ≤ 10 * length (blocks h))%nat).
    { destruct (decide (10 * length (blocks h) < length h)%nat) as [Hlt|]; [|lia].
      pose proof (blocks_lookup h (length (blocks h))) as Hl.
      rewrite decide_True in Hl by done.
      apply lookup_lt_Some in Hl. lia. }
    apply Z.div_unique with (r := Z.of_nat (length h) + 9
                                  - 10 * Z.of_nat (length (blocks h))); lia. }
  intros fuel Hf. apply list_eq. intros k.
  rewrite blocks_lookup, blocks_from_lookup by lia. done.
Qed.

Lemma updateHistory_lookup s k e :
  updateHistory s !! k = Some e →
  ∃ block,
    e = blockSummary k block
    ∧ block = take 10 (drop (10 * k) (sessionHistory s))
    ∧ (10 * k < length (sessionHistory s))%nat.
Proof.
  unfold updateHistory. rewrite list_lookup_imap.
  destruct (blocks (sessionHistory s) !! k) as [block|] eqn:Hb; [|done].
  intros [= <-]. exists block. split; [done|].
  rewrite blocks_lookup in Hb. case_decide; [|done].
  injection Hb as <-. split; [done|lia].
Qed.

(** The entry shown for block [k] of the history: it is labelled with the
    trials [10 k + 1] to [10 k + 10], or to the last trial; its count of
    correct trials is within its count of trials, its accuracy within 0 and
    100; it is marked as passed exactly when at least 69.5 per cent of its
    trials are correct; and its lowest interval is the interval of one of
    its trials and no trial of the block has a lower one. *)
Theorem history_block_figures s k e :
  updateHistory s !! k = Some e →
  let first := HistoryBlock.startTrial e in
  let final := HistoryBlock.endTrial e in
  first = 10 * Z.of_nat k + 1
  ∧ final = Z.min (10 * Z.of_nat k + 10) (Z.of_nat (length (sessionHistory s)))
  ∧ HistoryBlock.totalInBlock e = final - first + 1
  ∧ 1 ≤ HistoryBlock.totalInBlock e ≤ 10
  ∧ 0 ≤ HistoryBlock.correctInBlock e ≤ HistoryBlock.totalInBlock e
  ∧ 0 ≤ HistoryBlock.accuracyInBlock e ≤ 100
  ∧ (HistoryBlock.passed e = true
     ↔ 139 * HistoryBlock.totalInBlock e ≤ 200 * HistoryBlock.correctInBlock e)
  ∧ (∀ j x, sessionHistory s !! j = Some x → first ≤ Z.of_nat j + 1 ≤ final →
            HistoryBlock.lowestBlockISI e ≤ Trial.isi x)
  ∧ (∃ j x, sessionHistory s !! j = Some x ∧ first ≤ Z.of_nat j + 1 ≤ final
            ∧ Trial.isi x = HistoryBlock.lowestBlockISI e).
Proof.
  intros He. cbv zeta.
  apply updateHistory_lookup in He as (block & -> & Hb & Hk).
  set (h := sessionHistory s) in *.
  assert (Hlen : length block = Nat.min 10 (length h - 10 * k)).
  { rewrite Hb, length_take, length_drop. done. }
  assert (Hel : ∀ i, block !! i = if decide (i < 10)%nat then h !! (10 * k + i)%nat else None).
  { intros i. rewrite Hb. case_decide.
    - by rewrite lookup_take_lt, lookup_drop by done.
    - rewrite lookup_take_ge by lia. done. }
  assert (Hc : (length (filter (λ trial, Trial.truthy_correct trial) block)
                ≤ length block)%nat) by apply length_filter.
  unfold blockSummary. cbv zeta.
  cbn [HistoryBlock.startTrial HistoryBlock.endTrial HistoryBlock.totalInBlock
       HistoryBlock.correctInBlock HistoryBlock.accuracyInBlock
       HistoryBlock.lowestBlockISI HistoryBlock.passed].
  set (c := Z.of_nat (length (filter _ block))) in *.
  set (n := Z.of_nat (length block)) in *.
  assert (Hn : 1 ≤ n ≤ 10) by lia.
  assert (Hcn : 0 ≤ c ≤ n) by lia.
  assert ((0 <? n) = true) as -> by lia.
  rewrite rounded_percent_small by lia.
  split; [lia|]. split; [lia|]. split; [lia|]. split; [done|]. split; [done|].
  split; [by apply percent_range; lia|].
  split.
  { rewrite Z.geb_le. split.
    - intros H.
      destruct (decide (139 * n ≤ 200 * c)) as [|Hno]; [done|].
      assert ((200 * c + n) / (2 * n) < 70); [|lia].
      apply Z.div_lt_upper_bound; lia.
    - intros H. apply Z.div_le_lower_bound; lia. }
  destruct (Math_min_of_spec (map Trial.isi block)) as [Hin Hmin].
  { intros E%(f_equal length). rewrite length_map in E. cbn [length] in E.
    unfold n in Hn. lia. }
  rewrite Forall_map in Hmin. split.
  - intros j x Hj Hr.
    assert (block !! (j - 10 * k)%nat = Some x) as Hx.
    { rewrite Hel, decide_True by lia. rewrite <- Hj. f_equal. lia. }
    rewrite Forall_lookup in Hmin. by apply (Hmin _ _ Hx).
  - apply list_elem_of_fmap in Hin as (x & Hx & Hin).
    apply list_elem_of_lookup in Hin as [i Hi].
    pose proof (lookup_lt_Some _ _ _ Hi) as Hlt.
    rewrite Hel in Hi. case_decide; [|done].
    exists (10 * k + i)%nat, x. split; [done|]. split; [lia|done].
Qed.

(** The first block of a session left alone for 30 rounds. *)
Lemma history_block_figures_witness :
  ∃ e, updateHistory unattended_30 !! 0%nat = Some e
       ∧ HistoryBlock.startTrial e = 1
       ∧ HistoryBlock.endTrial e = 10.
Proof.
  eexists. split; [vm_compute; reflexivity|].
  edestruct (history_block_figures unattended_30 0) as (H1 & H2 & _).
  - vm_compute. reflexivity.
  - split; [exact H1|]. rewrite H2. vm_compute. reflexivity.
Defined.

Lemma blocks_from_totals fuel i h (f : list Trial.t → Z) :
  (∀ a b, f (a ++ b) = f a + f b) →
  (length h ≤ i + fuel)%nat →
  sumZ (map f (blocks_from fuel i h)) = f (drop i h).
Proof.
  intros Hf. assert (f [] = 0) as H0 by (specialize (Hf [] []); cbn in Hf; lia).
  revert i. induction fuel as [|fuel IH]; intros i Hi; cbn [blocks_from].
  - by rewrite drop_ge by lia.
  - destruct (Z.of_nat i <? Z.of_nat (length h)) eqn:E.
    + cbn. unfold sumZ in IH. rewrite IH by lia. rewrite <- Hf.
      replace (drop (i + 10) h) with (drop 10 (drop i h))
        by (rewrite drop_drop; f_equal; lia).
      by rewrite take_drop.
    + apply Z.ltb_ge in E. by rewrite drop_ge by lia.
Qed.

(** Over the whole history no trial is lost and none is counted twice:
    the block sizes add up to the number of trials, and the correct counts
    of the blocks to the number of correct trials. *)
Theorem history_block_totals s :
  sumZ (map HistoryBlock.totalInBlock (updateHistory s))
    = Z.of_nat (length (sessionHistory s))
  ∧ sumZ (map HistoryBlock.correctInBlock (updateHistory s))
    = Z.of_nat (length (filter (λ trial, Trial.truthy_correct trial)
                               (sessionHistory s))).
Proof.
  unfold updateHistory. split.
  - change (map HistoryBlock.totalInBlock) with (fmap (M := list) HistoryBlock.totalInBlock).
    rewrite fmap_imap.
    rewrite (imap_ext _ (const (λ block, Z.of_nat (length block)))) by done.
    rewrite imap_const. unfold blocks.
    rewrite (blocks_from_totals _ _ _ (λ block, Z.of_nat (length block))); [done| |lia].
    intros a b. rewrite length_app. lia.
  - change (map HistoryBlock.correctInBlock)
      with (fmap (M := list) HistoryBlock.correctInBlock).
    rewrite fmap_imap.
    rewrite (imap_ext _ (const (λ block,
               Z.of_nat (length (filter (λ trial, Trial.truthy_correct trial) block)))))
      by done.
    rewrite imap_const. unfold blocks.
    rewrite (blocks_from_totals _ _ _ (λ block,
               Z.of_nat (length (filter (λ trial, Trial.truthy_correct trial) block))));
      [done| |lia].
    intros a b. rewrite filter_app, length_app. lia.
Qed.

(** ** Training streaks *)

Lemma Set_of_spec_from (acc l : list string) :
  NoDup acc →
  let r := foldl (λ acc x, if decide (x ∈ acc) then acc else acc ++ [x]) acc l in
  NoDup r ∧ (∀ x, x ∈ r ↔ x ∈ acc ∨ x ∈ l) ∧ (length r ≤ length acc + length l)%nat.
Proof.
  cbv zeta. revert acc. induction l as [|y l IH]; intros acc Hacc; cbn [foldl].
  - split; [done|]. split; [|lia]. intros x. rewrite elem_of_nil. tauto.
  - destruct (decide (y ∈ acc)) as [Hy | Hy].
    + destruct (IH acc Hacc) as (H1 & H2 & H3).
      split; [done|]. split; [|cbn [length]; lia].
      intros x. rewrite H2, elem_of_cons. split; [tauto|].
      intros [? | [-> | ?]]; tauto.
    + destruct (IH (acc ++ [y])) as (H1 & H2 & H3).
      { apply NoDup_app. split; [done|]. split; [|apply NoDup_singleton].
        intros x Hx ->%list_elem_of_singleton. done. }
      split; [done|]. split.
      * intros x. rewrite H2, elem_of_app, list_elem_of_singleton, elem_of_cons. tauto.
      * rewrite length_app in H3. cbn [length] in *. lia.
Qed.

Lemma Set_of_spec (l : list string) :
  NoDup (Set_of l) ∧ (∀ x, x ∈ Set_of l ↔ x ∈ l)
  ∧ (length (Set_of l) ≤ length l)%nat.
Proof.
  destruct (Set_of_spec_from [] l) as (H1 & H2 & H3); [constructor|].
  split; [done|]. split; [|done].
  intros x. unfold Set_of. rewrite H2, elem_of_nil. tauto.
Qed.

Lemma streak_loop Date_parse (l : list string) longest temp lastDate k :
  0 ≤ temp ≤ longest → longest ≤ k →
  match lastDate with None => temp = 0 | Some _ => 1 ≤ temp end →
  ∀ longest' temp' lastDate',
    foldl (streakStep Date_parse) (longest, temp, lastDate) l
      = (longest', temp', lastDate') →
    0 ≤ temp' ≤ longest'
    ∧ longest' ≤ k + Z.of_nat (length l)
    ∧ match lastDate' with
      | None => temp' = 0 ∧ l = [] ∧ lastDate = None
      | Some _ => 1 ≤ temp'
      end.
Proof.
  revert longest temp lastDate k.
  induction l as [|text l IH]; intros longest temp lastDate k Ht Hl Hn
    longest' temp' lastDate'; cbn [foldl].
  - intros [= <- <- <-]. cbn [length]. split; [done|]. split; [lia|].
    destruct lastDate; [done|by repeat split].
  - unfold streakStep at 2. cbv zeta.
    set (t1 := match lastDate with None => 1 | Some _ => _ end).
    assert (Ht1 : 1 ≤ t1 ≤ temp + 1).
    { unfold t1. destruct lastDate; [|lia]. case_match; lia. }
    intros E. apply (IH _ _ _ (k + 1)) in E; [|lia|lia|lia].
    destruct E as (E1 & E2 & E3). split; [done|].
    split; [cbn [length]; lia|].
    destruct lastDate'; [done|]. by destruct E3 as (_ & _ & ?).
Qed.

(** The streak figures of the home screen. The training days are the
    distinct calendar days of the logged sessions, each counted once; the
    longest streak is at least one day when there is a session and at most
    the number of training days; the current streak is never longer than
    the longest; and the last training date is the day of a logged
    session. This holds in every time zone, for any calendar of the
    host. *)
Theorem training_streak_bounds toDateString Date_parse now s :
  let streaks := calculateTrainingStreaks toDateString Date_parse now s in
  0 ≤ Streaks.currentStreak streaks ≤ Streaks.longestStreak streaks
  ∧ Streaks.longestStreak streaks ≤ Streaks.totalTrainingDays streaks
  ∧ Streaks.totalTrainingDays streaks ≤ Z.of_nat (length (allSessions s))
  ∧ (∃ days, NoDup days
       ∧ (∀ text, text ∈ days ↔
            ∃ x, x ∈ allSessions s ∧ text = toDateString (SessionData.date x))
       ∧ Streaks.totalTrainingDays streaks = Z.of_nat (length days)
       ∧ Streaks.lastTrainingDate streaks = last days)
  ∧ (allSessions s = [] → streaks = Streaks.mk 0 0 0 None)
  ∧ (allSessions s ≠ [] →
     1 ≤ Streaks.longestStreak streaks
     ∧ ∃ x, x ∈ allSessions s
            ∧ Streaks.lastTrainingDate streaks
              = Some (toDateString (SessionData.date x))).
Proof.
  cbv zeta. unfold calculateTrainingStreaks. cbv zeta.
  destruct (Z.of_nat (length (allSessions s)) =? 0) eqn:E.
  { assert (allSessions s = []) as E0 by (apply Z.eqb_eq in E; destruct (allSessions s); [done|cbn [length] in E; lia]).
    cbn. split; [lia|]. split; [lia|]. split; [lia|]. split.
    - exists []. split; [constructor|]. split; [|done].
      intros text. rewrite E0, elem_of_nil. split; [done|].
      by intros (x & ?%elem_of_nil & _).
    - split; [done|]. by intros []. }
  set (sorted := merge_sort date_le (allSessions s)).
  set (texts := map (λ session, toDateString (SessionData.date session)) sorted).
  set (days := merge_sort string_le (Set_of texts)).
  assert (Hs : sorted ≡ₚ allSessions s) by apply merge_sort_Permutation.
  assert (Hd : days ≡ₚ Set_of texts) by apply merge_sort_Permutation.
  destruct (Set_of_spec texts) as (Hnd & Hel & Hlen).
  assert (Hne : allSessions s ≠ []) by (intros E0; by rewrite E0 in E).
  assert (Hdays : ∀ text, text ∈ days ↔
            ∃ x, x ∈ allSessions s ∧ text = toDateString (SessionData.date x)).
  { intros text. rewrite Hd, Hel. unfold texts. rewrite list_elem_of_fmap.
    split; intros (x & ? & ?); exists x.
    - split; [by rewrite <- Hs|done].
    - split; [done|by rewrite Hs]. }
  assert (Hlen' : (length days ≤ length (allSessions s))%nat).
  { rewrite Hd. etrans; [exact Hlen|]. unfold texts. by rewrite length_map, Hs. }
  assert (Hdne : days ≠ []).
  { assert (Hex : ∃ x, x ∈ allSessions s).
    { revert Hne. generalize (allSessions s). intros [|x l] ?; [done|].
      exists x. by left. }
    destruct Hex as [x Hx].
    assert (toDateString (SessionData.date x) ∈ days) as Hin.
    { apply Hdays. by exists x. }
    intros E0. rewrite E0 in Hin. by apply elem_of_nil in Hin. }
  destruct (foldl (streakStep Date_parse) (0, 0, None) days)
    as [[longest temp] lastDate] eqn:Ef.
  apply (streak_loop _ _ _ _ _ 0) in Ef as (H1 & H2 & H3); [|lia|lia|done].
  assert (1 ≤ temp) as Htemp.
  { destruct lastDate; [done|]. by destruct H3 as (_ & ? & _). }
  destruct (last days) as [text|] eqn:El.
  2:{ apply last_None in El. done. }
  cbn [Streaks.currentStreak Streaks.longestStreak Streaks.totalTrainingDays
       Streaks.lastTrainingDate].
  split; [repeat case_match; lia|]. split; [lia|]. split; [lia|].
  split.
  { exists days. split; [by rewrite Hd|]. done. }
  split; [done|]. intros _. split; [lia|].
  apply last_Some_elem_of, Hdays in El as (x & Hx & ->). by exists x.
Qed.

(** ** The colour theme *)

Lemma toggleTheme_cases x :
  toggleTheme x = Theme.mk (Some "alternative") (Some "alternative")
  ∨ toggleTheme x = Theme.mk (Some "dark") (Some "dark")
  ∨ toggleTheme x = Theme.mk None (Some "default").
Proof.
  unfold toggleTheme. cbv zeta.
  destruct (decide _); [by left|].
  destruct (decide _); [right; by left|right; by right].
Qed.

(** The theme button walks a cycle of exactly three themes. Whatever the
    attribute held before, one click lands on [alternative], [dark] or the
    default (no attribute); from there the next two clicks show the two
    other themes and the third click is back where it started. *)
Theorem toggleTheme_cycle x :
  let x1 := toggleTheme x in
  let x2 := toggleTheme x1 in
  let x3 := toggleTheme x2 in
  Theme.dataTheme x1 ∈ [Some "alternative"; Some "dark"; None]
  ∧ Theme.dataTheme x2 ≠ Theme.dataTheme x1
  ∧ Theme.dataTheme x3 ≠ Theme.dataTheme x1
  ∧ Theme.dataTheme x3 ≠ Theme.dataTheme x2
  ∧ toggleTheme x3 = x1.
Proof.
  cbv zeta.
  destruct (toggleTheme_cases x) as [-> | [-> | ->]];
    vm_compute; (split; [set_solver|]); by repeat split.
Qed.

(** The theme survives a reload: a page opened over the [pasatTheme] item
    that a click has written shows the theme the click has set. A stored
    value that is neither [alternative] nor [dark] opens the default
    theme. *)
Theorem theme_survives_reload x pasatTheme :
  openTheme (Theme.pasatTheme (toggleTheme x)) = toggleTheme x
  ∧ (pasatTheme ≠ Some "alternative" → pasatTheme ≠ Some "dark" →
     Theme.dataTheme (openTheme pasatTheme) = None).
Proof.
  split.
  - by destruct (toggleTheme_cases x) as [-> | [-> | ->]].
  - intros H1 H2. unfold openTheme, loadThemePreference. cbn.
    by rewrite !decide_False.
Qed.

Lemma theme_survives_reload_witness :
  openTheme (Theme.pasatTheme (toggleTheme (Theme.mk None None)))
    = toggleTheme (Theme.mk None None)
  ∧ Theme.dataTheme (openTheme (Some "default")) = None.
Proof.
  split.
  - apply (theme_survives_reload (Theme.mk None None) None).
  - apply (theme_survives_reload (Theme.mk None None) (Some "default")); done.
Defined.

(** * More properties of the engine *)

(** The fields of a state under names of their own. *)

(** ** The digits *)

(** [generateNumber] draws a digit from 1 to 9, whatever double below 1
    [Math.random()] returns, and every one of the nine digits is drawn for
    some double. The product by 9 is rounded before it is cut: the digits
    do not change exactly at the ninths, and the double just below 4/9
    already gives 5. *)
Theorem generateNumber_digits :
  (∀ r, is_double r → (0 <= r)%Q → (r < 1)%Q → 1 ≤ generateNumber r ≤ 9)
  ∧ (∀ d, 1 ≤ d ≤ 9 →
       ∃ r, is_double r ∧ (0 <= r)%Q ∧ (r < 1)%Q ∧ generateNumber r = d)
  ∧ (let r := (2001599834386887 # 4503599627370496)%Q in
     is_double r ∧ (r < 4 # 9)%Q ∧ (4 # 9 < r + (1 # 4503599627370496))%Q
     ∧ generateNumber r = 5).
Proof.
  split; [exact generateNumber_range|]. split.
  - intros d Hd.
    assert (Hcases : d = 1 ∨ d = 2 ∨ d = 3 ∨ d = 4 ∨ d = 5 ∨ d = 6 ∨ d = 7 ∨ d = 8 ∨ d = 9)
      by lia.
    destruct Hcases as [->|[->|[->|[->|[->|[->|[->|[->| ->]]]]]]]].
    + exists 0%Q. by vm_compute.
    + exists (1 # 8)%Q. by vm_compute.
    + exists (2 # 8)%Q. by vm_compute.
    + exists (3 # 8)%Q. by vm_compute.
    + exists (4 # 8)%Q. by vm_compute.
    + exists (5 # 8)%Q. by vm_compute.
    + exists (6 # 8)%Q. by vm_compute.
    + exists (7 # 8)%Q. by vm_compute.
    + exists (15 # 16)%Q. by vm_compute.
  - by vm_compute.
Qed.

(** ** A round of the presentation *)

Lemma not_too_early now s :
  numberSequence s = [] ∨ forcePresentNextNumber s = true
    ∨ nextPresentationTime s ≤ now →
  ((0 <? Z.of_nat (length (numberSequence s)))
     && negb (forcePresentNextNumber s)
     && (0 <? nextPresentationTime s - now)) = false.
Proof.
  intros [-> | [-> | Hd]]; [done|by rewrite andb_false_r|].
  destruct (Z.ltb_spec 0 (nextPresentationTime s - now)); [lia|].
  by rewrite andb_false_r.
Qed.

Lemma presentNextNumber_warm_up now r s :
  sessionActive s = true →
  nextNumberScheduled s = false →
  numberSequence s = [] ∨ forcePresentNextNumber s = true
    ∨ nextPresentationTime s ≤ now →
  Z.of_nat (length (numberSequence s)) < nbackValue s →
  let s' := presentNextNumber now r s in
  sessionHistory s' = sessionHistory s
  ∧ numberSequence s' = numberSequence s ++ [generateNumber r]
  ∧ currentTrialId s' = currentTrialId s
  ∧ correctAnswer s' = correctAnswer s
  ∧ lastPresentedNumber s' = Some (generateNumber r).
Proof.
  intros Hactive Hsched Hdue Hn. cbv zeta.
  set (view := λ s : State,
    (sessionHistory s, numberSequence s, currentTrialId s, correctAnswer s,
     lastPresentedNumber s)).
  assert (Hsp : ∀ n st, view (speakNumber n st).2 = view st).
  { intros. unfold speakNumber. by repeat case_match. }
  assert (Haf : ∀ st, view (afterSpeak now st) = view st).
  { intros. unfold afterSpeak. by case_match. }
  assert (Hview : view (presentNextNumber now r s)
    = (sessionHistory s, numberSequence s ++ [generateNumber r], currentTrialId s,
       correctAnswer s, Some (generateNumber r))).
  { apply not_too_early in Hdue.
    unfold presentNextNumber. rewrite Hactive, Hsched. cbn [negb].
    match goal with |- context [if ?c then _ else _] =>
      assert (Hgate : c = false)
    end.
    { rewrite <- Hdue. unfold clearCurrentInterval. open_state s. by destruct currentIntervalId_. }
    rewrite Hgate. cbv zeta.
    match goal with |- context [speakNumber ?n ?st] =>
      specialize (Hsp n st); destruct (speakNumber n st) as [settled s1]
    end.
    cbn [snd] in Hsp.
    assert (view (if settled then afterSpeak now s1 else s1) = view s1) as ->
      by (destruct settled; [apply Haf | done]).
    rewrite Hsp. clear Hsp Hgate Haf.
    assert (Hshallow :
      (Z.of_nat (length (numberSequence s ++ [generateNumber r])) >=? nbackValue s + 1)
      = false).
    { rewrite length_app. cbn [length].
      destruct (Z.geb_spec (Z.of_nat (length (numberSequence s) + 1)) (nbackValue s + 1));
        [lia|done]. }
    unfold clearCurrentInterval, view.
    open_state s; cbn in *.
    destruct currentIntervalId_, useNumberPad_; cbn; rewrite Hshallow; cbn;
      by destruct correctAnswer_. }
  unfold view in Hview. by injection Hview as -> -> -> -> ->.
Qed.

(** One round of the presentation, when it is due. The digit drawn goes
    to the end of the sequence. While fewer than [nbackValue] digits came
    before it, no trial is opened and no answer is expected; from then on
    the round opens exactly one trial, whose correct answer is the sum of
    this digit and the digit [nbackValue] places before it, and that trial
    is open. *)
Theorem presentation_round now r s :
  sessionActive s = true →
  nextNumberScheduled s = false →
  numberSequence s = [] ∨ forcePresentNextNumber s = true
    ∨ nextPresentationTime s ≤ now →
  1 ≤ nbackValue s →
  Forall (λ x, Trial.trialId x ≤ currentTrialId s) (sessionHistory s) →
  let s' := presentNextNumber now r s in
  let digit := generateNumber r in
  numberSequence s' = numberSequence s ++ [digit]
  ∧ (Z.of_nat (length (numberSequence s)) < nbackValue s →
     sessionHistory s' = sessionHistory s
     ∧ correctAnswer s' = correctAnswer s
     ∧ currentTrialId s' = currentTrialId s)
  ∧ (nbackValue s ≤ Z.of_nat (length (numberSequence s)) →
     ∃ previousNum,
       numberSequence s'
         !! Z.to_nat (Z.of_nat (length (numberSequence s')) - 1 - nbackValue s)
         = Some previousNum
       ∧ sessionHistory s' =
           sessionHistory s ++
             [Trial.mk (nbackValue s) digit (Some previousNum)
                (Num (digit + previousNum)) Null None (currentISIValue s)
                (currentTrialId s + 1) None]
       ∧ currentTrialId s' = currentTrialId s + 1
       ∧ trialIsOpen (currentTrialId s') s' = true).
Proof.
  intros Hactive Hsched Hdue Hn Hids. cbv zeta.
  destruct (Z.lt_ge_cases (Z.of_nat (length (numberSequence s))) (nbackValue s))
    as [Hshort | Hdeep].
  - destruct (presentNextNumber_warm_up now r s) as (H1 & H2 & H3 & H4 & _);
      try done.
    split; [done|]. split; [done|]. intros ?. lia.
  - destruct (presentNextNumber_opens_trial now r s) as (p & Hp & H1 & H2 & H3 & H4);
      try done.
    split; [done|]. split; [intros ?; lia|]. intros _.
    exists p. rewrite H2, H3. split; [|done].
    rewrite length_app. cbn [length].
    apply lookup_app_l_Some. rewrite <- Hp. f_equal. lia.
Qed.

(** The second digit of a standard session opens trial 1. *)
Lemma presentation_round_witness :
  let s := run [Fire 2 1000 (3 # 8); Fire 3 1500 0] started in
  numberSequence s = [4]
  ∧ numberSequence (presentNextNumber 4500 (6 # 8) (clearTimeout 4 s)) = [4; 7].
Proof.
  cbv zeta. split; [vm_compute; reflexivity|].
  destruct (presentation_round 4500 (6 # 8)
              (clearTimeout 4 (run [Fire 2 1000 (3 # 8); Fire 3 1500 0] started)))
    as [H _].
  - vm_compute. reflexivity.
  - vm_compute. reflexivity.
  - right; right. vm_compute. discriminate.
  - vm_compute. discriminate.
  - vm_compute. constructor.
  - rewrite H. vm_compute. reflexivity.
Defined.

(** ** What the scoring paths do to a view of the state *)

(** Every path that may score a trial is a call of [processAnswer] or the
    late branch of the deadline callback, between assignments to the claim
    flag and to the two answer surfaces. So a view [V] of the state that
    ignores these three assignments moves, on every such path, the way it
    moves on the two scoring steps, or not at all. *)
Section scoring_paths.

Context {A : Type} (V : State → A) (R : A → A → Prop).
Hypothesis R_refl : ∀ a, R a a.
Hypothesis V_answerProcessed : ∀ v s, V (set_answerProcessed v s) = V s.
Hypothesis V_selectedButton : ∀ v s, V (set_selectedButton v s) = V s.
Hypothesis V_answerInput : ∀ v s, V (set_answerInput v s) = V s.
Hypothesis V_processAnswer :
  ∀ now userAnswer s s',
    processAnswer now userAnswer s = (true, s') → R (V s) (V s').
Hypothesis V_late :
  ∀ trialId trialPresentationTime now s i x,
    answerProcessed s = false →
    processingAnswer s = false →
    list_find (λ y, Trial.trialId y = trialId) (sessionHistory s) = Some (i, x) →
    Trial.userAnswer x = Null →
    Z.of_nat i ≠ lastTrialIndex s →
    R (V s) (V (deadlineCallback trialId trialPresentationTime now s)).

Lemma attempt_moves now userAnswer s0 :
  R (V s0)
    (V (let '(success, s) := processAnswer now userAnswer (set_answerProcessed true s0) in
        if negb success then set_answerProcessed false s else s)).
Proof.
  destruct (processAnswer now userAnswer (set_answerProcessed true s0))
    as [[] s1] eqn:H; cbn [negb].
  - rewrite <- (V_answerProcessed true s0). by eapply V_processAnswer.
  - apply processAnswer_failure in H as ->. by rewrite !V_answerProcessed.
Qed.

Lemma deadline_moves trialId trialPresentationTime now s :
  R (V s) (V (deadlineCallback trialId trialPresentationTime now s)).
Proof.
  destruct (answerProcessed s) eqn:Ha.
  { rewrite deadline_backs_off by by left. done. }
  destruct (processingAnswer s) eqn:Hp.
  { rewrite deadline_backs_off by by right. done. }
  destruct (list_find (λ y, Trial.trialId y = trialId) (sessionHistory s))
    as [[i x]|] eqn:Hf.
  2:{ unfold deadlineCallback. rewrite Ha, Hp, Hf. done. }
  destruct (is_null (Trial.userAnswer x)) eqn:Hu.
  2:{ rewrite (deadline_answered _ _ _ _ _ _ Hf); [done|].
      by destruct (Trial.userAnswer x). }
  assert (Trial.userAnswer x = Null) as Hu' by by destruct (Trial.userAnswer x).
  destruct (Z.eq_dec (Z.of_nat i) (lastTrialIndex s)) as [Hi | Hi].
  - unfold deadlineCallback. rewrite Ha, Hp, Hf, Hu, Hi, Z.eqb_refl.
    cbn [negb andb].
    set (ua := if negb (is_null _) && negb (isNaN _) then _ else Null). clearbody ua.
    pose proof (attempt_moves now ua s) as Hm.
    destruct (processAnswer now ua (set_answerProcessed true s)) as [ok s1].
    destruct (useNumberPad _); by rewrite ?V_selectedButton, ?V_answerInput.
  - by eapply V_late.
Qed.

Lemma onAnswerInput_moves now s : R (V s) (V (onAnswerInput now s)).
Proof.
  unfold onAnswerInput.
  destruct (negb (canProcessButtonClick s)); [done|].
  destruct (_ && _); [|done].
  destruct (strict_eq _ _); [|done].
  apply attempt_moves.
Qed.

Lemma typeAnswer_moves text now s :
  R (V s) (V (onAnswerInput now (set_answerInput text s))).
Proof.
  rewrite <- (V_answerInput text s) at 1. apply onAnswerInput_moves.
Qed.

Lemma onEnterKey_moves now s : R (V s) (V (onEnterKey now s)).
Proof.
  unfold onEnterKey.
  destruct (negb (is_empty_text (answerInput s))); [|done].
  destruct (negb (answerProcessed s) && canProcessButtonClick s); [|done].
  destruct (_ && _); [|done].
  destruct (strict_eq _ _); [|done].
  apply attempt_moves.
Qed.

Lemma handleButtonInteraction_moves now value s :
  R (V s) (V (handleButtonInteraction now value s)).
Proof.
  unfold handleButtonInteraction.
  destruct (negb (canProcessButtonClick s)); [by rewrite V_selectedButton|].
  destruct (shouldProcessAnswerImmediately _ _); [|by rewrite V_selectedButton].
  pose proof (attempt_moves now (Num value) (set_selectedButton (Some value) s)) as Hm.
  rewrite V_selectedButton in Hm.
  destruct (processAnswer now (Num value) _) as [[] s1]; cbn [negb] in *; [done|].
  by rewrite V_selectedButton.
Qed.

End scoring_paths.

(** ** What a function leaves alone *)

(** A view [V] of the state that ignores the assignment to a global is
    not moved by a function that only assigns to such globals. Each lemma
    below depends on the hypotheses for the globals that its function
    writes, and on no other. *)
Section frames.

Context {A : Type} (V : State → A).
Hypothesis ignore_howlReady : ∀ v s, V (set_howlReady v s) = V s.
Hypothesis ignore_lastPresentedNumber : ∀ v s, V (set_lastPresentedNumber v s) = V s.
Hypothesis ignore_currentNumber : ∀ v s, V (set_currentNumber v s) = V s.
Hypothesis ignore_correctAnswer : ∀ v s, V (set_correctAnswer v s) = V s.
Hypothesis ignore_currentIntervalId : ∀ v s, V (set_currentIntervalId v s) = V s.
Hypothesis ignore_audioPlayInProgress : ∀ v s, V (set_audioPlayInProgress v s) = V s.
Hypothesis ignore_processingAnswer : ∀ v s, V (set_processingAnswer v s) = V s.
Hypothesis ignore_nextPresentationTime : ∀ v s, V (set_nextPresentationTime v s) = V s.
Hypothesis ignore_forcePresentNextNumber : ∀ v s, V (set_forcePresentNextNumber v s) = V s.
Hypothesis ignore_useNumberPad : ∀ v s, V (set_useNumberPad v s) = V s.
Hypothesis ignore_answerProcessed : ∀ v s, V (set_answerProcessed v s) = V s.
Hypothesis ignore_nbackValue : ∀ v s, V (set_nbackValue v s) = V s.
Hypothesis ignore_numberSequence : ∀ v s, V (set_numberSequence v s) = V s.
Hypothesis ignore_currentTrialId : ∀ v s, V (set_currentTrialId v s) = V s.
Hypothesis ignore_nextNumberScheduled : ∀ v s, V (set_nextNumberScheduled v s) = V s.
Hypothesis ignore_trainingTimerId : ∀ v s, V (set_trainingTimerId v s) = V s.
Hypothesis ignore_currentISIValue : ∀ v s, V (set_currentISIValue v s) = V s.
Hypothesis ignore_consecutiveCorrect : ∀ v s, V (set_consecutiveCorrect v s) = V s.
Hypothesis ignore_consecutiveIncorrect : ∀ v s, V (set_consecutiveIncorrect v s) = V s.
Hypothesis ignore_sessionHistory : ∀ v s, V (set_sessionHistory v s) = V s.
Hypothesis ignore_totalCorrect : ∀ v s, V (set_totalCorrect v s) = V s.
Hypothesis ignore_totalAttempts : ∀ v s, V (set_totalAttempts v s) = V s.
Hypothesis ignore_lowestISI : ∀ v s, V (set_lowestISI v s) = V s.
Hypothesis ignore_remainingTime : ∀ v s, V (set_remainingTime v s) = V s.
Hypothesis ignore_sessionActive : ∀ v s, V (set_sessionActive v s) = V s.
Hypothesis ignore_isStandardMode : ∀ v s, V (set_isStandardMode v s) = V s.
Hypothesis ignore_isCustomMode : ∀ v s, V (set_isCustomMode v s) = V s.
Hypothesis ignore_isManualMode : ∀ v s, V (set_isManualMode v s) = V s.
Hypothesis ignore_standardModeSettings : ∀ v s, V (set_standardModeSettings v s) = V s.
Hypothesis ignore_manualModeSettings : ∀ v s, V (set_manualModeSettings v s) = V s.
Hypothesis ignore_customModeSettings : ∀ v s, V (set_customModeSettings v s) = V s.
Hypothesis ignore_selectedISI : ∀ v s, V (set_selectedISI v s) = V s.
Hypothesis ignore_sessionDuration : ∀ v s, V (set_sessionDuration v s) = V s.
Hypothesis ignore_allSessions : ∀ v s, V (set_allSessions v s) = V s.
Hypothesis ignore_nbackSettings : ∀ v s, V (set_nbackSettings v s) = V s.
Hypothesis ignore_beepSettings : ∀ v s, V (set_beepSettings v s) = V s.
Hypothesis ignore_audioSpeedSettings : ∀ v s, V (set_audioSpeedSettings v s) = V s.
Hypothesis ignore_localStorage : ∀ v s, V (set_localStorage v s) = V s.
Hypothesis ignore_answerInput : ∀ v s, V (set_answerInput v s) = V s.
Hypothesis ignore_selectedButton : ∀ v s, V (set_selectedButton v s) = V s.
Hypothesis ignore_nbackInput : ∀ v s, V (set_nbackInput v s) = V s.
Hypothesis ignore_timers : ∀ v s, V (set_timers v s) = V s.
Hypothesis ignore_timerSeq : ∀ v s, V (set_timerSeq v s) = V s.

Ltac ignore :=
  repeat first
          [ rewrite ignore_howlReady
          | rewrite ignore_lastPresentedNumber
          | rewrite ignore_currentNumber
          | rewrite ignore_correctAnswer
          | rewrite ignore_currentIntervalId
          | rewrite ignore_audioPlayInProgress
          | rewrite ignore_processingAnswer
          | rewrite ignore_nextPresentationTime
          | rewrite ignore_forcePresentNextNumber
          | rewrite ignore_useNumberPad
          | rewrite ignore_answerProcessed
          | rewrite ignore_nbackValue
          | rewrite ignore_numberSequence
          | rewrite ignore_currentTrialId
          | rewrite ignore_nextNumberScheduled
          | rewrite ignore_trainingTimerId
          | rewrite ignore_currentISIValue
          | rewrite ignore_consecutiveCorrect
          | rewrite ignore_consecutiveIncorrect
          | rewrite ignore_sessionHistory
          | rewrite ignore_totalCorrect
          | rewrite ignore_totalAttempts
          | rewrite ignore_lowestISI
          | rewrite ignore_remainingTime
          | rewrite ignore_sessionActive
          | rewrite ignore_isStandardMode
          | rewrite ignore_isCustomMode
          | rewrite ignore_isManualMode
          | rewrite ignore_standardModeSettings
          | rewrite ignore_manualModeSettings
          | rewrite ignore_customModeSettings
          | rewrite ignore_selectedISI
          | rewrite ignore_sessionDuration
          | rewrite ignore_allSessions
          | rewrite ignore_nbackSettings
          | rewrite ignore_beepSettings
          | rewrite ignore_audioSpeedSettings
          | rewrite ignore_localStorage
          | rewrite ignore_answerInput
          | rewrite ignore_selectedButton
          | rewrite ignore_nbackInput
          | rewrite ignore_timers
          | rewrite ignore_timerSeq ].

Lemma frame_setTimeout task s : V (setTimeout task s).2 = V s.
Proof. unfold setTimeout. cbn [snd]. by ignore. Qed.

Lemma frame_clearTimeout id s : V (clearTimeout id s) = V s.
Proof. unfold clearTimeout. by ignore. Qed.

Lemma frame_clearCurrentInterval s : V (clearCurrentInterval s) = V s.
Proof. unfold clearCurrentInterval. case_match; [|done]. ignore. apply frame_clearTimeout. Qed.

Lemma frame_stopAllAudio s : V (stopAllAudio s) = V s.
Proof. unfold stopAllAudio. by ignore. Qed.

Lemma frame_speakNumber number s : V (speakNumber number s).2 = V s.
Proof.
  unfold speakNumber. repeat case_match; cbn [snd]; try done.
  - by ignore.
  - rewrite frame_setTimeout. by ignore.
Qed.

Lemma frame_afterSpeak now s : V (afterSpeak now s) = V s.
Proof.
  unfold afterSpeak, setTimeout. case_match; cbn [snd]; by ignore.
Qed.

Lemma frame_processAnswer now userAnswer s :
  V (processAnswer now userAnswer s).2 = V s.
Proof.
  destruct (processAnswer now userAnswer s) as [[] s'] eqn:H; cbn [snd].
  - apply processAnswer_success in H as (x & ok & _ & _ & _ & _ & _ & ->).
    unfold store_trial. by ignore.
  - by apply processAnswer_failure in H as ->.
Qed.

Lemma frame_deadlineCallback trialId trialPresentationTime now s :
  V (deadlineCallback trialId trialPresentationTime now s) = V s.
Proof.
  symmetry.
  apply (deadline_moves V eq (λ _, eq_refl) ignore_answerProcessed
           ignore_selectedButton ignore_answerInput).
  - intros now' ua s0 s' H. rewrite <- (frame_processAnswer now' ua s0). by rewrite H.
  - intros tid tp now' s0 i x Ha Hp Hf Hu Hi.
    rewrite (deadline_late _ _ _ _ _ _ Ha Hp Hf Hu Hi). unfold store_trial. by ignore.
Qed.

Lemma frame_answer_event e s : isAnswerEvent e = true → V (step e s) = V s.
Proof.
  assert (Hpa : ∀ now ua s0 s', processAnswer now ua s0 = (true, s') → V s0 = V s').
  { intros now' ua s0 s' H. rewrite <- (frame_processAnswer now' ua s0). by rewrite H. }
  destruct e; try discriminate; intros _; cbn [step]; symmetry.
  - by apply (typeAnswer_moves V eq (λ _, eq_refl) ignore_answerProcessed
                ignore_answerInput).
  - by apply (onEnterKey_moves V eq (λ _, eq_refl) ignore_answerProcessed).
  - by apply (handleButtonInteraction_moves V eq (λ _, eq_refl)
                ignore_answerProcessed ignore_selectedButton).
Qed.

Lemma frame_presentNextNumber now r s : V (presentNextNumber now r s) = V s.
Proof.
  unfold presentNextNumber.
  destruct (negb (sessionActive s)); [done|].
  destruct (nextNumberScheduled s); [done|].
  match goal with |- context [if ?c then _ else _] => destruct c end.
  { cbv zeta. unfold setTimeout. cbn [fst snd]. ignore.
    rewrite !frame_clearCurrentInterval. by ignore. }
  cbv zeta.
  match goal with |- context [speakNumber ?n ?st] =>
    pose proof (frame_speakNumber n st) as Hsp;
    destruct (speakNumber n st) as [settled s1]
  end.
  cbn [snd] in Hsp.
  assert (V (if settled then afterSpeak now s1 else s1) = V s1) as ->
    by (destruct settled; [apply frame_afterSpeak | done]).
  rewrite Hsp.
  repeat match goal with
         | |- context [if ?c then _ else _] => destruct c
         end; ignore; rewrite frame_clearCurrentInterval; by ignore.
Qed.

Lemma frame_addSessionToHistory now s : V (addSessionToHistory now s) = V s.
Proof.
  unfold addSessionToHistory, saveSessions, setItem. cbv zeta.
  repeat case_match; by ignore.
Qed.

Lemma frame_endSession now s : V (endSession now s) = V s.
Proof.
  unfold endSession. cbv zeta. rewrite frame_addSessionToHistory. ignore.
  rewrite frame_clearCurrentInterval.
  case_match; [rewrite frame_clearTimeout|]; by rewrite frame_stopAllAudio.
Qed.

Lemma frame_updateTimer now s : V (updateTimer now s) = V s.
Proof.
  unfold updateTimer. cbv zeta. case_match; [rewrite frame_endSession|]; by ignore.
Qed.

Lemma frame_fire id now r s : V (fire id now r s) = V s.
Proof.
  unfold fire. destruct (pendingTask id s) as [[]|]; [| | | |done].
  - apply frame_updateTimer.
  - by rewrite frame_presentNextNumber, frame_clearTimeout.
  - by rewrite frame_deadlineCallback, frame_clearTimeout.
  - rewrite frame_afterSpeak. ignore. apply frame_clearTimeout.
Qed.

Lemma frame_startSession s : V (startSession s) = V s.
Proof.
  unfold startSession, setTimeout. cbv beta iota zeta. cbn [snd]. ignore.
  rewrite frame_clearCurrentInterval. ignore.
  case_match; ignore; apply frame_stopAllAudio.
Qed.

Lemma frame_updateStandardModeUI s : V (updateStandardModeUI s) = V s.
Proof. unfold updateStandardModeUI. cbv zeta. repeat case_match; by ignore. Qed.

Lemma frame_updateCustomModeUI s : V (updateCustomModeUI s) = V s.
Proof. unfold updateCustomModeUI. cbv zeta. by ignore. Qed.

Lemma frame_updateManualModeUI s : V (updateManualModeUI s) = V s.
Proof. unfold updateManualModeUI. cbv zeta. by ignore. Qed.

Lemma frame_loadSessions s : V (loadSessions s) = V s.
Proof. unfold loadSessions. repeat case_match; by ignore. Qed.

Lemma frame_loadCustomModeSettings s : V (loadCustomModeSettings s) = V s.
Proof.
  unfold loadCustomModeSettings. case_match; [|done]. cbv zeta.
  rewrite frame_updateCustomModeUI. by ignore.
Qed.

Lemma frame_loadManualModeSettings s : V (loadManualModeSettings s) = V s.
Proof. unfold loadManualModeSettings. case_match; by ignore. Qed.

Lemma frame_loadNbackSettings s : V (loadNbackSettings s) = V s.
Proof. unfold loadNbackSettings. case_match; by ignore. Qed.

Lemma frame_loadBeepSettings s : V (loadBeepSettings s) = V s.
Proof. unfold loadBeepSettings. case_match; by ignore. Qed.

Lemma frame_loadAudioSpeedSettings s : V (loadAudioSpeedSettings s) = V s.
Proof. unfold loadAudioSpeedSettings. case_match; by ignore. Qed.

Lemma frame_loadAll s : V (loadAll s) = V s.
Proof.
  unfold loadAll. cbv zeta. ignore.
  by rewrite frame_updateStandardModeUI, frame_loadAudioSpeedSettings,
    frame_loadBeepSettings, frame_loadNbackSettings, frame_loadManualModeSettings,
    frame_loadCustomModeSettings, frame_loadSessions.
Qed.

Lemma frame_clickStandardMode s : V (clickStandardMode s) = V s.
Proof. unfold clickStandardMode. cbv zeta. rewrite frame_updateStandardModeUI. by ignore. Qed.

Lemma frame_clickCustomMode s : V (clickCustomMode s) = V s.
Proof. unfold clickCustomMode. cbv zeta. rewrite frame_updateCustomModeUI. by ignore. Qed.

Lemma frame_clickManualMode s : V (clickManualMode s) = V s.
Proof.
  unfold clickManualMode. cbv zeta.
  case_match; ignore; rewrite frame_updateManualModeUI; by ignore.
Qed.

Lemma frame_clickIsiButton isiValue s : V (clickIsiButton isiValue s) = V s.
Proof.
  unfold clickIsiButton, saveCustomModeSettings, saveManualModeSettings, setItem.
  cbv zeta. repeat case_match; by ignore.
Qed.

Lemma frame_settings_event e s :
  match e with
  | InputDurationSlider _ | InputManualDurationSlider _ | InputNback _
  | ChangeUseErrorBeep _ | InputBeepVolumeSlider _ | InputAudioSpeedSlider _
  | ChangeUseNumberPad _ | SoundsLoaded => True
  | _ => False
  end →
  V (step e s) = V s.
Proof.
  destruct e; try done; intros _; cbn [step].
  - by ignore.
  - unfold inputDurationSlider, saveCustomModeSettings, setItem. cbv zeta. by ignore.
  - unfold inputManualDurationSlider, saveManualModeSettings, setItem. cbv zeta.
    by ignore.
  - unfold inputNback, saveNbackSettings, setItem. cbv zeta. case_match; by ignore.
  - unfold changeUseErrorBeep, saveBeepSettings, setItem. cbv zeta. by ignore.
  - unfold inputBeepVolumeSlider, saveBeepSettings, setItem. cbv zeta. by ignore.
  - unfold inputAudioSpeedSlider, saveAudioSpeedSettings, setItem. cbv zeta. by ignore.
  - unfold changeUseNumberPad. cbv zeta. repeat case_match; by ignore.
Qed.

End frames.

(** A view is not moved by a function when it ignores the globals that
    the function writes; for a view that is a tuple of fields this is seen
    on an opened state. *)
Ltac framed lemma := apply lemma; try done; by intros ? [].

(** ** A presentation that comes too early *)

Lemma presentNextNumber_stalled now r s :
  stalled s → presentNextNumber now r s = s.
Proof.
  unfold stalled, presentNextNumber. intros [-> | ->]; [|done].
  by destruct (negb (sessionActive s)).
Qed.

(** Once stalled, the presentation stays stalled and plays no digit, under
    every event but the start of a new session. *)
Lemma step_stalled e s :
  e ≠ ClickStartTraining →
  stalled s →
  stalled (step e s) ∧ numberSequence (step e s) = numberSequence s.
Proof.
  intros He Hs.
  assert (Hkeep : ∀ s', pace s' = pace s →
            stalled s' ∧ numberSequence s' = numberSequence s).
  { unfold pace, stalled. intros s' [= H1 H2 H3]. rewrite H1, H2, H3. done. }
  assert (Hend : ∀ now s0, numberSequence s0 = numberSequence s →
            stalled (endSession now s0)
            ∧ numberSequence (endSession now s0) = numberSequence s).
  { intros now s0 H0. split; [right; apply endSession_flags|].
    rewrite <- H0. framed (frame_endSession numberSequence). }
  destruct e.
  - apply Hkeep. framed (frame_loadAll pace).
  - apply Hkeep. by framed (frame_settings_event pace).
  - apply Hkeep. framed (frame_clickStandardMode pace).
  - apply Hkeep. framed (frame_clickCustomMode pace).
  - apply Hkeep. framed (frame_clickManualMode pace).
  - apply Hkeep. framed (frame_clickIsiButton pace).
  - apply Hkeep. by framed (frame_settings_event pace).
  - apply Hkeep. by framed (frame_settings_event pace).
  - apply Hkeep. by framed (frame_settings_event pace).
  - apply Hkeep. by framed (frame_settings_event pace).
  - apply Hkeep. by framed (frame_settings_event pace).
  - apply Hkeep. by framed (frame_settings_event pace).
  - apply Hkeep. by framed (frame_settings_event pace).
  - done.
  - by apply Hend.
  - cbn [step]. unfold fire. destruct (pendingTask id s) as [[]|]; [| | | |done].
    + unfold updateTimer. cbv zeta. case_match; [by apply Hend|by apply Hkeep].
    + rewrite presentNextNumber_stalled; [by apply Hkeep|].
      destruct Hs as [Hs | Hs]; [left|right]; by rewrite <- Hs.
    + apply Hkeep.
      rewrite (frame_deadlineCallback pace) by by intros ? [].
      framed (frame_clearTimeout pace).
    + apply Hkeep.
      rewrite (frame_afterSpeak pace) by by intros ? []. done.
  - apply Hkeep. by framed (frame_answer_event pace).
  - apply Hkeep. by framed (frame_answer_event pace).
  - apply Hkeep. by framed (frame_answer_event pace).
Qed.

Lemma run_stalled events s :
  ClickStartTraining ∉ events →
  stalled s →
  stalled (run events s) ∧ numberSequence (run events s) = numberSequence s.
Proof.
  revert s. induction events as [|e events IH]; intros s Hno Hs; [done|].
  change (run (e :: events) s) with (run events (step e s)).
  apply not_elem_of_cons in Hno as [He Hno].
  destruct (step_stalled e s) as [H1 H2]; [done|done|].
  destruct (IH (step e s) Hno H1) as [H3 H4]. split; [done|congruence].
Qed.

(** When [presentNextNumber] runs before the time it has set for itself
    (its timer fired early), it plays nothing and arms a new timer, but it
    leaves its guard flag set. The call made by that new timer returns at
    the guard: no digit is played any more, whatever events follow, until
    a new session is started. *)
Theorem early_presentation_stalls now r s :
  sessionActive s = true →
  nextNumberScheduled s = false →
  numberSequence s ≠ [] →
  forcePresentNextNumber s = false →
  now < nextPresentationTime s →
  let s1 := presentNextNumber now r s in
  numberSequence s1 = numberSequence s
  ∧ sessionHistory s1 = sessionHistory s
  ∧ nextNumberScheduled s1 = true
  ∧ currentIntervalId s1 = Some (timerSeq s)
  ∧ (timerSeq s, PresentTask) ∈ timers s1
  ∧ (∀ id now' r', pendingTask id s1 = Some PresentTask →
       fire id now' r' s1 = clearTimeout id s1)
  ∧ (∀ events, ClickStartTraining ∉ events →
       numberSequence (run events s1) = numberSequence s).
Proof.
  intros Hactive Hsched Hseq Hforce Hearly. cbv zeta.
  assert (E : presentNextNumber now r s =
    set_currentIntervalId (Some (timerSeq s))
      (setTimeout PresentTask
         (clearCurrentInterval
            (clearCurrentInterval (set_nextNumberScheduled true s)))).2).
  { unfold presentNextNumber. rewrite Hactive, Hsched. cbn [negb]. cbv zeta.
    match goal with |- context [if ?c then _ else _] =>
      assert (Hgate : c = true)
    end.
    { assert ((0 <? Z.of_nat (length (numberSequence s))) = true) as H1.
      { destruct (numberSequence s); [done|]. apply Z.ltb_lt. cbn [length]. lia. }
      assert ((0 <? nextPresentationTime s - now) = true) as H2
        by (apply Z.ltb_lt; lia).
      unfold clearCurrentInterval. open_state s; cbn in *.
      destruct currentIntervalId_; cbn; by rewrite H1, H2, Hforce. }
    rewrite Hgate. unfold clearCurrentInterval, setTimeout.
    open_state s; cbn. by destruct currentIntervalId_. }
  assert (Hst : stalled (presentNextNumber now r s)).
  { left. rewrite E. unfold clearCurrentInterval. open_state s.
    by destruct currentIntervalId_. }
  split; [rewrite E; unfold clearCurrentInterval; open_state s;
          by destruct currentIntervalId_|].
  split; [rewrite E; unfold clearCurrentInterval; open_state s;
          by destruct currentIntervalId_|].
  split; [rewrite E; unfold clearCurrentInterval; open_state s;
          by destruct currentIntervalId_|].
  split; [by rewrite E|].
  split.
  { rewrite E. unfold clearCurrentInterval, setTimeout. open_state s.
    destruct currentIntervalId_; cbn; apply elem_of_app; right; by left. }
  split.
  { intros id now' r' Hp. unfold fire. rewrite Hp.
    apply presentNextNumber_stalled.
    destruct Hst as [Hst | Hst]; [left|right]; rewrite <- Hst;
      unfold clearTimeout; by destruct (presentNextNumber now r s). }
  intros events Hno.
  destruct (run_stalled events _ Hno Hst) as [_ ->].
  rewrite E. unfold clearCurrentInterval. open_state s. by destruct currentIntervalId_.
Qed.

(** The presentation timer of [trial1_open], handle 6, is due at 8000 and
    fires at 7999: when the timer armed in its place, handle 8, fires two
    milliseconds later, the sequence still ends with the digit 7. *)
Lemma early_presentation_stalls_witness :
  nextPresentationTime trial1_open = 8000
  ∧ numberSequence trial1_open = [4; 7]
  ∧ numberSequence (run [Fire 6 7999 (1 # 8); Fire 8 8001 (1 # 8)] trial1_open) = [4; 7].
Proof.
  split; [vm_compute; reflexivity|]. split; [vm_compute; reflexivity|].
  destruct (early_presentation_stalls 7999 (1 # 8) (clearTimeout 6 trial1_open))
    as (_ & _ & _ & _ & _ & _ & H).
  - vm_compute. reflexivity.
  - vm_compute. reflexivity.
  - vm_compute. discriminate.
  - vm_compute. reflexivity.
  - vm_compute. reflexivity.
  - specialize (H [Fire 8 8001 (1 # 8)]).
    assert (Hrun : run [Fire 6 7999 (1 # 8); Fire 8 8001 (1 # 8)] trial1_open
                   = run [Fire 8 8001 (1 # 8)]
                       (presentNextNumber 7999 (1 # 8) (clearTimeout 6 trial1_open))).
    { vm_compute. reflexivity. }
    rewrite Hrun, H.
    + vm_compute. reflexivity.
    + intros Hin. apply list_elem_of_singleton in Hin. discriminate.
Defined.

(** ** The score *)

Lemma scoreMoves_refl a : scoreMoves a a.
Proof. by left. Qed.

Lemma processAnswer_score now userAnswer s s' :
  processAnswer now userAnswer s = (true, s') →
  scoreMoves (scoreboard s) (scoreboard s').
Proof.
  intros (x & ok & _ & _ & _ & _ & _ & ->)%processAnswer_success.
  unfold scoreMoves, scoreboard. cbn. destruct ok; [right; by right|right; by left].
Qed.

Lemma deadline_late_score trialId trialPresentationTime now s i x :
  answerProcessed s = false →
  processingAnswer s = false →
  list_find (λ y, Trial.trialId y = trialId) (sessionHistory s) = Some (i, x) →
  Trial.userAnswer x = Null →
  Z.of_nat i ≠ lastTrialIndex s →
  scoreMoves (scoreboard s)
    (scoreboard (deadlineCallback trialId trialPresentationTime now s)).
Proof.
  intros Ha Hp Hf Hu Hi.
  rewrite (deadline_late _ _ _ _ _ _ Ha Hp Hf Hu Hi).
  unfold scoreMoves, scoreboard. cbn. right; by left.
Qed.

Lemma startSession_score s : scoreboard (startSession s) = (0, 0).
Proof.
  unfold startSession, clearCurrentInterval, stopAllAudio.
  open_state s. destruct useNumberPad_, currentIntervalId_; vm_compute; reflexivity.
Qed.

Lemma step_score e s : scoreMoves (scoreboard s) (scoreboard (step e s))
                       ∨ scoreboard (step e s) = (0, 0).
Proof.
  assert (Hsame : ∀ s', scoreboard s' = scoreboard s →
            scoreMoves (scoreboard s) (scoreboard s') ∨ scoreboard s' = (0, 0)).
  { intros s' ->. left. apply scoreMoves_refl. }
  destruct e.
  - apply Hsame. framed (frame_loadAll scoreboard).
  - apply Hsame. by framed (frame_settings_event scoreboard).
  - apply Hsame. framed (frame_clickStandardMode scoreboard).
  - apply Hsame. framed (frame_clickCustomMode scoreboard).
  - apply Hsame. framed (frame_clickManualMode scoreboard).
  - apply Hsame. framed (frame_clickIsiButton scoreboard).
  - apply Hsame. by framed (frame_settings_event scoreboard).
  - apply Hsame. by framed (frame_settings_event scoreboard).
  - apply Hsame. by framed (frame_settings_event scoreboard).
  - apply Hsame. by framed (frame_settings_event scoreboard).
  - apply Hsame. by framed (frame_settings_event scoreboard).
  - apply Hsame. by framed (frame_settings_event scoreboard).
  - apply Hsame. by framed (frame_settings_event scoreboard).
  - right. apply startSession_score.
  - apply Hsame. framed (frame_endSession scoreboard).
  - cbn [step]. unfold fire. destruct (pendingTask id s) as [[]|];
      [| | | |by apply Hsame].
    + apply Hsame. framed (frame_updateTimer scoreboard).
    + apply Hsame. rewrite (frame_presentNextNumber scoreboard) by by intros ? [].
      done.
    + left. change (scoreboard s) with (scoreboard (clearTimeout id s)).
      apply (deadline_moves scoreboard scoreMoves scoreMoves_refl); try done.
      * apply processAnswer_score.
      * apply deadline_late_score.
    + apply Hsame. rewrite (frame_afterSpeak scoreboard) by by intros ? []. done.
  - left. cbn [step].
    apply (typeAnswer_moves scoreboard scoreMoves scoreMoves_refl); try done.
    apply processAnswer_score.
  - left. cbn [step].
    apply (onEnterKey_moves scoreboard scoreMoves scoreMoves_refl); try done.
    apply processAnswer_score.
  - left. cbn [step].
    apply (handleButtonInteraction_moves scoreboard scoreMoves scoreMoves_refl);
      try done.
    apply processAnswer_score.
Qed.

Lemma run_score events s :
  0 ≤ totalCorrect s ≤ totalAttempts s →
  0 ≤ totalCorrect (run events s) ≤ totalAttempts (run events s).
Proof.
  revert s. induction events as [|e events IH]; intros s Hs; [done|].
  change (run (e :: events) s) with (run events (step e s)).
  apply IH.
  destruct (step_score e s) as [[H | [H | H]] | H];
    unfold scoreboard in H; injection H as -> ->; cbn; lia.
Qed.

(** The score of a visit, whatever happens during it: the correct answers
    never outnumber the attempts, so the accuracy that [endSession] shows
    is a percentage between 0 and 100, and it is 0 while nothing has been
    attempted. *)
Theorem score_stays_consistent storage events :
  let s := run events (initial storage) in
  0 ≤ totalCorrect s ≤ totalAttempts s
  ∧ ResultsDisplay.correctCount (endSessionStats s) = totalCorrect s
  ∧ ResultsDisplay.totalCount (endSessionStats s) = totalAttempts s
  ∧ 0 ≤ ResultsDisplay.accuracyRate (endSessionStats s) ≤ 100
  ∧ (totalAttempts s = 0 → ResultsDisplay.accuracyRate (endSessionStats s) = 0)
  ∧ (0 < totalAttempts s → totalCorrect s = totalAttempts s →
     ResultsDisplay.accuracyRate (endSessionStats s) = 100).
Proof.
  cbv zeta.
  pose proof (run_score events (initial storage)) as H.
  set (s := run events (initial storage)) in *.
  assert (Hs : 0 ≤ totalCorrect s ≤ totalAttempts s) by (apply H; cbn; lia).
  clearbody s. clear H.
  unfold endSessionStats. cbv zeta.
  cbn [ResultsDisplay.correctCount ResultsDisplay.totalCount
       ResultsDisplay.accuracyRate].
  split; [done|]. split; [done|]. split; [done|].
  destruct (Z.ltb_spec 0 (totalAttempts s)) as [Hpos | Hzero].
  - destruct (rounded_percent_range (totalCorrect s) (totalAttempts s) Hs Hpos)
      as (Hrange & _ & Hall).
    split; [exact Hrange|]. split; [lia|]. intros _ E. by apply Hall.
  - split; [lia|]. split; [done|lia].
Qed.

(** ** The session log *)

(** What a call of [addSessionToHistory] does to the log: nothing, or one
    summary more, built from the counters, at the end of the list and in
    the stored copy. *)
Lemma addSessionToHistory_log now p s :
  summaryInputs p = summaryInputs s →
  sessionLog (addSessionToHistory now p) = sessionLog s
  ∨ (50 ≤ totalAttempts s
     ∧ ∃ sessionData,
         SessionData.totalAttempts sessionData = totalAttempts s
         ∧ SessionData.totalCorrect sessionData = totalCorrect s
         ∧ SessionData.accuracy sessionData
           = Math_round (Number_mul (Number_div (inject_Z (totalCorrect s))
                                                (inject_Z (totalAttempts s))) 100)
         ∧ sessionLog (addSessionToHistory now p)
           = (allSessions s ++ [sessionData],
              Some (SessionsDoc (allSessions s ++ [sessionData])))).
Proof.
  unfold summaryInputs. intros [= Hh Hc Ha Hd Hl Hs Hm Hn Hall Hst].
  unfold addSessionToHistory. cbv zeta.
  destruct (Z.of_nat (length (sessionHistory p)) =? 0).
  { left. unfold sessionLog, getItem. by rewrite Hall, Hst. }
  destruct (Z.ltb_spec (totalAttempts p) 50) as [Hlt | Hge].
  { left. unfold sessionLog, getItem. by rewrite Hall, Hst. }
  right. split; [lia|].
  assert ((0 <? totalAttempts p) = true) as -> by (apply Z.ltb_lt; lia).
  eexists. split; [|split; [|split]]; [| | |
    unfold sessionLog, saveSessions, setItem, getItem;
    match goal with |- context [set_allSessions ?l p] =>
      assert (Hl1 : allSessions (set_allSessions l p) = l) by (by destruct p);
      assert (Hl2 : localStorage (set_allSessions l p) = localStorage p)
        by (by destruct p)
    end;
    match goal with |- context [set_localStorage ?m ?q] =>
      assert (Hl3 : allSessions (set_localStorage m q) = allSessions q)
        by (by destruct q);
      assert (Hl4 : localStorage (set_localStorage m q) = m) by (by destruct q)
    end;
    rewrite Hl3, Hl4, Hl1, Storage_lookup_insert_sessions, Hall; reflexivity].
  - cbn. exact Ha.
  - cbn. exact Hc.
  - cbn [SessionData.accuracy]. by rewrite Hc, Ha.
Qed.

Lemma endSession_log_cases now s0 s :
  summaryInputs s0 = summaryInputs s →
  sessionLog (endSession now s0) = sessionLog s
  ∨ (50 ≤ totalAttempts s
     ∧ ∃ sessionData,
         SessionData.totalAttempts sessionData = totalAttempts s
         ∧ SessionData.totalCorrect sessionData = totalCorrect s
         ∧ SessionData.accuracy sessionData
           = Math_round (Number_mul (Number_div (inject_Z (totalCorrect s))
                                                (inject_Z (totalAttempts s))) 100)
         ∧ sessionLog (endSession now s0)
           = (allSessions s ++ [sessionData],
              Some (SessionsDoc (allSessions s ++ [sessionData])))).
Proof.
  intros H0. unfold endSession. cbv zeta.
  apply addSessionToHistory_log. rewrite <- H0.
  unfold clearCurrentInterval, stopAllAudio, clearTimeout.
  open_state s0. by destruct trainingTimerId_, currentIntervalId_.
Qed.

Lemma saved_settings_log key doc s :
  key ≠ "pasatSessions" → sessionLog (setItem key doc s) = sessionLog s.
Proof.
  intros Hk. unfold sessionLog, getItem, setItem.
  assert (allSessions (set_localStorage (<[key:=doc]> (localStorage s)) s)
          = allSessions s) as -> by (by destruct s).
  assert (localStorage (set_localStorage (<[key:=doc]> (localStorage s)) s)
          = <[key:=doc]> (localStorage s)) as -> by (by destruct s).
  by rewrite Storage_lookup_insert_ne.
Qed.

(** What an event does to the log: nothing; or, when the page is loaded,
    the list is read from its stored copy; or, when a session ends with at
    least 50 attempts, its summary is added to the list and to the copy. *)
Lemma step_log e s :
  sessionLog (step e s) = sessionLog s
  ∨ (e = DomContentLoaded
     ∧ sessionLog (step e s) = (allSessions (loadSessions s), getItem "pasatSessions" s))
  ∨ (50 ≤ totalAttempts s
     ∧ ∃ sessionData,
         SessionData.totalAttempts sessionData = totalAttempts s
         ∧ SessionData.totalCorrect sessionData = totalCorrect s
         ∧ SessionData.accuracy sessionData
           = Math_round (Number_mul (Number_div (inject_Z (totalCorrect s))
                                                (inject_Z (totalAttempts s))) 100)
         ∧ sessionLog (step e s)
           = (allSessions s ++ [sessionData],
              Some (SessionsDoc (allSessions s ++ [sessionData])))).
Proof.
  assert (Hset : ∀ (f : State → State) key doc,
            key ≠ "pasatSessions" →
            sessionLog (f s) = sessionLog s →
            sessionLog (setItem key doc (f s)) = sessionLog s).
  { intros f key doc Hk <-. by apply saved_settings_log. }
  destruct e.
  - right; left. split; [done|]. cbn [step]. unfold sessionLog, getItem. f_equal.
    + apply loadAll_allSessions.
    + f_equal. framed (frame_loadAll localStorage).
  - by left.
  - left. framed (frame_clickStandardMode sessionLog).
  - left. framed (frame_clickCustomMode sessionLog).
  - left. framed (frame_clickManualMode sessionLog).
  - left. cbn [step]. unfold clickIsiButton, saveCustomModeSettings,
      saveManualModeSettings. cbv zeta.
    assert (Hi : ∀ v s, sessionLog (set_currentISIValue v s) = sessionLog s)
      by (by intros ? []).
    repeat case_match; rewrite ?Hi, ?saved_settings_log by done; done.
  - left. cbn [step]. unfold inputDurationSlider, saveCustomModeSettings. cbv zeta.
    by rewrite saved_settings_log.
  - left. cbn [step]. unfold inputManualDurationSlider, saveManualModeSettings.
    cbv zeta. by rewrite saved_settings_log.
  - left. cbn [step]. unfold inputNback, saveNbackSettings. cbv zeta.
    rewrite saved_settings_log by done. by case_match.
  - left. cbn [step]. unfold changeUseErrorBeep, saveBeepSettings. cbv zeta.
    by rewrite saved_settings_log.
  - left. cbn [step]. unfold inputBeepVolumeSlider, saveBeepSettings. cbv zeta.
    by rewrite saved_settings_log.
  - left. cbn [step]. unfold inputAudioSpeedSlider, saveAudioSpeedSettings. cbv zeta.
    by rewrite saved_settings_log.
  - left. cbn [step]. unfold changeUseNumberPad. cbv zeta. by repeat case_match.
  - left. framed (frame_startSession sessionLog).
  - destruct (endSession_log_cases now s s eq_refl) as [H | H]; [by left|].
    right; by right.
  - cbn [step]. unfold fire. destruct (pendingTask id s) as [[]|]; [| | | |by left].
    + unfold updateTimer. cbv zeta. case_match; [|by left].
      destruct (endSession_log_cases now (set_remainingTime (remainingTime s - 1) s) s)
        as [Hlog | Hlog]; [by destruct s|by left|right; by right].
    + left. rewrite (frame_presentNextNumber sessionLog) by by intros ? []. done.
    + left. rewrite (frame_deadlineCallback sessionLog) by by intros ? []. done.
    + left. rewrite (frame_afterSpeak sessionLog) by by intros ? []. done.
  - left. by framed (frame_answer_event sessionLog).
  - left. by framed (frame_answer_event sessionLog).
  - left. by framed (frame_answer_event sessionLog).
Qed.

Lemma step_sound e s :
  0 ≤ totalCorrect s ≤ totalAttempts s →
  Forall soundSummary (allSessions s) →
  soundStorage (localStorage s) →
  0 ≤ totalCorrect (step e s) ≤ totalAttempts (step e s)
  ∧ Forall soundSummary (allSessions (step e s))
  ∧ soundStorage (localStorage (step e s)).
Proof.
  intros Hscore Hall Hst.
  split.
  { destruct (step_score e s) as [[H | [H | H]] | H];
      unfold scoreboard in H; injection H as -> ->; cbn; lia. }
  unfold soundStorage. change (localStorage (step e s) !! "pasatSessions")
    with (sessionLog (step e s)).2.
  change (allSessions (step e s)) with (sessionLog (step e s)).1.
  destruct (step_log e s) as [-> | [[-> ->] | (Hge & x & Ha & Hc & Hacc & ->)]];
    cbn [fst snd].
  - done.
  - split; [|exact Hst]. unfold loadSessions.
    destruct (Storage.pasatSessions (localStorage s)) as [sessions|] eqn:E; [|done].
    assert (∀ l t, allSessions (set_allSessions l t) = l) as -> by (by intros ? []).
    apply Hst. by rewrite Storage_lookup_sessions, E.
  - assert (Hx : soundSummary x).
    { unfold soundSummary. rewrite Ha, Hc, Hacc.
      split; [done|]. split; [done|]. apply rounded_percent_range; lia. }
    assert (Forall soundSummary (allSessions s ++ [x]))
      by (apply Forall_app; split; [done|by constructor]).
    split; [done|]. by intros sessions [= <-].
Qed.

Lemma run_sound events s :
  0 ≤ totalCorrect s ≤ totalAttempts s →
  Forall soundSummary (allSessions s) →
  soundStorage (localStorage s) →
  Forall soundSummary (allSessions (run events s))
  ∧ soundStorage (localStorage (run events s)).
Proof.
  revert s. induction events as [|e events IH]; intros s H1 H2 H3; [done|].
  change (run (e :: events) s) with (run events (step e s)).
  destruct (step_sound e s H1 H2 H3) as (? & ? & ?). by apply IH.
Qed.

Lemma sound_sessions_all_valid s :
  Forall soundSummary (allSessions s) → validSessions None s = allSessions s.
Proof.
  intros H. unfold validSessions. induction H as [|x l [Hx _] _ IH]; [done|].
  rewrite filter_cons, decide_True by done. by rewrite IH.
Qed.

(** Every summary in the session list was logged for a session of at
    least 50 attempts, with no more correct answers than attempts and an
    accuracy between 0 and 100, whatever the visitor does; and so is every
    summary of the stored copy, as long as the stored copy was sound when
    the page was opened. The filter of the progress screen then drops no
    session. *)
Theorem logged_sessions_are_sound storage events :
  soundStorage storage →
  let s := run events (initial storage) in
  Forall soundSummary (allSessions s)
  ∧ soundStorage (localStorage s)
  ∧ validSessions None s = allSessions s.
Proof.
  intros Hst. cbv zeta.
  destruct (run_sound events (initial storage)) as [H1 H2]; [cbn; lia|constructor|done|].
  split; [done|]. split; [done|]. by apply sound_sessions_all_valid.
Qed.

(** A visit in which a session of 50 unanswered trials is ended. *)
Lemma logged_sessions_are_sound_witness :
  let events :=
    [DomContentLoaded; SoundsLoaded; ClickStartTraining; Fire 2 1000 (3 # 8);
     Fire 3 1500 0; Fire 4 4500 (6 # 8); Fire 5 5000 0]
    ++ unattended 50 6 8000 ++ [ClickEndTraining 290000] in
  soundStorage ∅
  ∧ Forall soundSummary (allSessions (run events (initial ∅)))
  ∧ length (allSessions (run events (initial ∅))) = 1%nat.
Proof.
  intros events.
  assert (H0 : soundStorage ∅) by (intros l Hl; discriminate).
  split; [exact H0|].
  split; [|vm_compute; reflexivity].
  exact (proj1 (logged_sessions_are_sound ∅ events H0)).
Defined.

Lemma sound_totals (l : list SessionData.t) :
  Forall soundSummary l →
  0 ≤ sumZ (map SessionData.totalCorrect l) ≤ sumZ (map SessionData.totalAttempts l)
  ∧ 50 * Z.of_nat (length l) ≤ sumZ (map SessionData.totalAttempts l).
Proof.
  unfold sumZ. induction 1 as [|x l (H1 & H2 & _) _ IH]; cbn [map foldr length]; lia.
Qed.

(** The home screen and the progress screen without a mode filter agree:
    they count the same sessions and questions and name the same best
    accuracy, and the cumulative accuracy of the home screen is a
    percentage between 0 and 100. This holds after any events of a visit
    that started over a sound stored copy, in every time zone. *)
Theorem home_and_progress_screens_agree toDateString Date_parse now storage events :
  soundStorage storage →
  let s := run events (initial storage) in
  let home := updateCumulativeStats toDateString Date_parse now s in
  0 ≤ CumulativeStats.cumulativeAccuracy home ≤ 100
  ∧ 50 * CumulativeStats.cumulativeSessions home
    ≤ CumulativeStats.cumulativeQuestions home
  ∧ match updateProgressDisplay None s with
    | NoSessionsYet =>
      CumulativeStats.cumulativeSessions home = 0
      ∧ CumulativeStats.cumulativeQuestions home = 0
      ∧ CumulativeStats.cumulativeAccuracy home = 0
      ∧ CumulativeStats.bestSessionAccuracy home = 0
    | NoValidSessions => False
    | Progress d =>
      ProgressDisplay.totalSessions d = CumulativeStats.cumulativeSessions home
      ∧ ProgressDisplay.totalQuestions d = CumulativeStats.cumulativeQuestions home
      ∧ ProgressDisplay.bestAccuracy d = CumulativeStats.bestSessionAccuracy home
    end.
Proof.
  intros Hst. cbv zeta.
  destruct (run_sound events (initial storage)) as [Hall _];
    [cbn; lia|constructor|done|].
  set (s := run events (initial storage)) in *. clearbody s.
  pose proof (sound_sessions_all_valid s Hall) as Hvalid.
  destruct (sound_totals _ Hall) as [Hsum Hfifty].
  unfold updateCumulativeStats. cbv zeta.
  cbn [CumulativeStats.cumulativeSessions CumulativeStats.cumulativeQuestions
       CumulativeStats.cumulativeAccuracy CumulativeStats.bestSessionAccuracy].
  split.
  { destruct (Z.ltb_spec 0 (sumZ (map SessionData.totalAttempts (allSessions s))));
      [|lia].
    by apply rounded_percent_range. }
  split; [done|].
  destruct (updateProgressDisplay None s) as [| |d] eqn:E.
  - apply progress_empty_cases in E. rewrite E. cbn. by repeat split.
  - apply progress_empty_cases in E as [H1 H2]. by rewrite Hvalid in H2.
  - apply progress_inv in E as (Hne & Hn & Hq & _ & _ & Hb & _).
    rewrite Hvalid in *.
    rewrite Hn, Hq, Hb. split; [done|]. split; [done|].
    destruct (allSessions s); [done|]. cbn [length].
    by destruct (Z.ltb_spec 0 (Z.of_nat (S (length l)))); [|lia].
Qed.

(** A fresh profile, a session of 50 unanswered trials, and a calendar
    that names a day by its number. *)
Lemma home_and_progress_screens_agree_witness :
  let events :=
    [DomContentLoaded; SoundsLoaded; ClickStartTraining; Fire 2 1000 (3 # 8);
     Fire 3 1500 0; Fire 4 4500 (6 # 8); Fire 5 5000 0]
    ++ unattended 50 6 8000 ++ [ClickEndTraining 290000] in
  let home :=
    updateCumulativeStats (λ t, Number_toString (t / 86400000)) (λ _, 0) 300000
      (run events (initial ∅)) in
  soundStorage ∅
  ∧ 0 ≤ CumulativeStats.cumulativeAccuracy home ≤ 100
  ∧ CumulativeStats.cumulativeSessions home = 1.
Proof.
  intros events home.
  assert (H0 : soundStorage ∅) by (intros l Hl; discriminate).
  split; [exact H0|].
  split; [|vm_compute; reflexivity].
  exact (proj1 (home_and_progress_screens_agree
                  (λ t, Number_toString (t / 86400000)) (λ _, 0) 300000 ∅ events H0)).
Defined.

Lemma logInSync_iff s :
  logInSync s ↔
  match (sessionLog s).2 with Some (SessionsDoc l) => l | _ => [] end
    = (sessionLog s).1.
Proof.
  unfold logInSync, sessionLog, loadSessions, getItem. cbn [fst snd].
  change (localStorage (initial (localStorage s))) with (localStorage s).
  rewrite Storage_lookup_sessions.
  assert (∀ l t, allSessions (set_allSessions l t) = l) as Hset by (by intros ? []).
  by destruct (Storage.pasatSessions (localStorage s)); cbn [fmap option_fmap option_map];
    rewrite ?Hset.
Qed.

Lemma step_sync e s : logInSync s → logInSync (step e s).
Proof.
  rewrite !logInSync_iff. intros Hs.
  destruct (step_log e s) as [-> | [[-> ->] | (Hge & x & _ & _ & _ & ->)]];
    cbn [fst snd]; [done| |done].
  unfold loadSessions, sessionLog, getItem in *. cbn [fst snd] in Hs.
  rewrite Storage_lookup_sessions in *.
  assert (∀ l t, allSessions (set_allSessions l t) = l) as Hset by (by intros ? []).
  destruct (Storage.pasatSessions (localStorage s));
    cbn [fmap option_fmap option_map] in *; by rewrite ?Hset.
Qed.

Lemma loaded_is_in_sync storage : logInSync (step DomContentLoaded (initial storage)).
Proof.
  apply logInSync_iff. unfold sessionLog, getItem. cbn [fst snd step].
  rewrite loadAll_allSessions.
  rewrite (frame_loadAll localStorage) by by intros ? [].
  unfold loadSessions, getItem.
  change (localStorage (initial storage)) with storage.
  rewrite Storage_lookup_sessions.
  assert (∀ l t, allSessions (set_allSessions l t) = l) as Hset by (by intros ? []).
  by destruct (Storage.pasatSessions storage); cbn [fmap option_fmap option_map];
    rewrite ?Hset.
Qed.

Lemma run_cons e events s : run (e :: events) s = run events (step e s).
Proof. reflexivity. Qed.

(** The session list survives a reload. At any moment of a visit, however
    it went, the list that the next visit loads from [localStorage] is the
    list that this visit holds. *)
Theorem session_log_survives_reload storage events :
  let s := run (DomContentLoaded :: events) (initial storage) in
  allSessions (step DomContentLoaded (initial (localStorage s))) = allSessions s.
Proof.
  cbv zeta.
  rewrite run_cons.
  pose proof (loaded_is_in_sync storage) as H.
  revert H. generalize (step DomContentLoaded (initial storage)).
  induction events as [|e events IH]; intros s Hs.
  - cbn [step]. rewrite loadAll_allSessions. exact Hs.
  - rewrite run_cons. apply IH. by apply step_sync.
Qed.

(** ** The training mode *)

Lemma click_mode_flags s :
  modeFlags (clickStandardMode s) = (true, false, false)
  ∧ modeFlags (clickCustomMode s) = (false, true, false)
  ∧ modeFlags (clickManualMode s) = (false, false, true).
Proof.
  unfold clickStandardMode, clickCustomMode, clickManualMode. cbv zeta.
  rewrite (frame_updateStandardModeUI modeFlags) by by intros ? [].
  rewrite (frame_updateCustomModeUI modeFlags) by by intros ? [].
  split; [done|]. split; [done|].
  case_match.
  - assert (∀ v t, modeFlags (set_currentISIValue v t) = modeFlags t) as ->
      by (by intros ? []).
    by rewrite (frame_updateManualModeUI modeFlags) by by intros ? [].
  - by rewrite (frame_updateManualModeUI modeFlags) by by intros ? [].
Qed.

Lemma step_mode e s :
  modeFlags (step e s) =
    match e with
    | ClickStandardMode => (true, false, false)
    | ClickCustomMode => (false, true, false)
    | ClickManualMode => (false, false, true)
    | _ => modeFlags s
    end.
Proof.
  destruct e.
  - framed (frame_loadAll modeFlags).
  - by framed (frame_settings_event modeFlags).
  - apply click_mode_flags.
  - apply click_mode_flags.
  - apply click_mode_flags.
  - framed (frame_clickIsiButton modeFlags).
  - by framed (frame_settings_event modeFlags).
  - by framed (frame_settings_event modeFlags).
  - by framed (frame_settings_event modeFlags).
  - by framed (frame_settings_event modeFlags).
  - by framed (frame_settings_event modeFlags).
  - by framed (frame_settings_event modeFlags).
  - by framed (frame_settings_event modeFlags).
  - framed (frame_startSession modeFlags).
  - framed (frame_endSession modeFlags).
  - framed (frame_fire modeFlags).
  - by framed (frame_answer_event modeFlags).
  - by framed (frame_answer_event modeFlags).
  - by framed (frame_answer_event modeFlags).
Qed.

(** Exactly one of the three modes is on at any moment of a visit, and it
    is the mode of the button clicked last (the standard mode when none was
    clicked): nothing but the three mode buttons changes the mode, in
    particular no event of a running session does. The name logged for a
    session is the name of that mode. *)
Theorem one_mode_at_a_time storage events e :
  let s := run events (initial storage) in
  (modeFlags s = (true, false, false) ∧ modeName s = Standard
   ∨ modeFlags s = (false, true, false) ∧ modeName s = Custom
   ∨ modeFlags s = (false, false, true) ∧ modeName s = Manual)
  ∧ (e ≠ ClickStandardMode → e ≠ ClickCustomMode → e ≠ ClickManualMode →
     modeFlags (step e s) = modeFlags s)
  ∧ modeFlags (step ClickStandardMode s) = (true, false, false)
  ∧ modeFlags (step ClickCustomMode s) = (false, true, false)
  ∧ modeFlags (step ClickManualMode s) = (false, false, true).
Proof.
  cbv zeta. split; [|split; [|by rewrite !step_mode]].
  - assert (H : ∀ s, modeFlags s = (true, false, false)
                      ∨ modeFlags s = (false, true, false)
                      ∨ modeFlags s = (false, false, true) →
                let s' := run events s in
                modeFlags s' = (true, false, false)
                ∨ modeFlags s' = (false, true, false)
                ∨ modeFlags s' = (false, false, true)).
    { induction events as [|e' events IH]; intros s Hs; [done|].
      rewrite run_cons. apply IH. rewrite step_mode.
      destruct e'; try done; [by left|right; by left|right; by right]. }
    specialize (H (initial storage) (or_introl eq_refl)). cbv zeta in H.
    unfold modeFlags, modeName in *.
    destruct H as [[= -> -> ->] | [[= -> -> ->] | [= -> -> ->]]];
      [left|right; left|right; right]; done.
  - intros H1 H2 H3. rewrite step_mode. by destruct e.
Qed.

(** ** Answers and the playback *)

(** While a digit is being played no answer is scored. What is typed
    stays in the field, where the deadline will find it, and the Enter key
    does nothing; a press on the pad is dropped, and the pad is left with
    no button selected. *)
Theorem no_answer_while_playing e s :
  audioPlayInProgress s = true →
  isAnswerEvent e = true →
  leavesScores s (step e s)
  ∧ answerProcessed (step e s) = answerProcessed s
  ∧ match e with
    | TypeAnswer text _ => step e s = set_answerInput text s
    | PressPad _ _ => step e s = set_selectedButton None s
    | _ => step e s = s
    end.
Proof.
  intros Hplay He.
  assert (Hno : canProcessButtonClick s = false).
  { unfold canProcessButtonClick. rewrite Hplay. by repeat case_match. }
  destruct e; try discriminate; cbn [step].
  - unfold onAnswerInput.
    assert (canProcessButtonClick (set_answerInput text s) = false) as -> by exact Hno.
    done.
  - unfold onEnterKey. rewrite Hno, andb_false_r. by case_match.
  - unfold handleButtonInteraction. rewrite Hno. done.
Qed.

(** The digit 7 of [trial1_open] is still being played at 4800. *)
Lemma no_answer_while_playing_witness :
  let s := run [Fire 2 1000 (3 # 8); Fire 3 1500 0; Fire 4 4500 (6 # 8)] started in
  audioPlayInProgress s = true
  ∧ step (PressPad 11 4800) s = set_selectedButton None s.
Proof.
  cbv zeta. split; [vm_compute; reflexivity|].
  destruct (no_answer_while_playing (PressPad 11 4800)
              (run [Fire 2 1000 (3 # 8); Fire 3 1500 0; Fire 4 4500 (6 # 8)] started))
    as (_ & _ & H).
  - vm_compute. reflexivity.
  - reflexivity.
  - exact H.
Defined.

(** ** The start of a session *)

Lemma startSession_fields s :
  sessionHistory (startSession s) = []
  ∧ numberSequence (startSession s) = []
  ∧ consecutiveCorrect (startSession s) = 0
  ∧ consecutiveIncorrect (startSession s) = 0
  ∧ correctAnswer (startSession s) = Null
  ∧ currentTrialId (startSession s) = 0
  ∧ remainingTime (startSession s) = sessionDuration s * 60
  ∧ sessionActive (startSession s) = true
  ∧ nbackValue (startSession s) = Z.max 1 (Z.min 10 (or_default (nbackInput s) 1))
  ∧ nbackInput (startSession s) = Some (nbackValue (startSession s))
  ∧ trainingTimerId (startSession s) = Some (timerSeq s)
  ∧ answerInput (startSession s) = Empty
  ∧ selectedButton (startSession s) = None.
Proof.
  unfold startSession, clearCurrentInterval, stopAllAudio.
  open_state s. destruct useNumberPad_, currentIntervalId_; vm_compute; by split_and!.
Qed.

(** A session starts from scratch: no score, no trial, no digit and no
    streak is left from the session before; the time is the chosen number
    of minutes; the N-back depth is what the field holds, brought into the
    range from 1 to 10 (1 when the field is blank or 0) and written back
    into the field; the session log is not touched; and until the first
    trial is opened no answer event scores anything. *)
Theorem startSession_is_a_fresh_start s :
  let s' := startSession s in
  scoreboard s' = (0, 0)
  ∧ sessionHistory s' = [] ∧ numberSequence s' = []
  ∧ consecutiveCorrect s' = 0 ∧ consecutiveIncorrect s' = 0
  ∧ remainingTime s' = sessionDuration s * 60
  ∧ 1 ≤ nbackValue s' ≤ 10
  ∧ (∀ n, nbackInput s = Some n → 1 ≤ n ≤ 10 → nbackValue s' = n)
  ∧ (nbackInput s = None ∨ nbackInput s = Some 0 → nbackValue s' = 1)
  ∧ nbackInput s' = Some (nbackValue s')
  ∧ sessionLog s' = sessionLog s
  ∧ (∀ e, isAnswerEvent e = true →
       scoreboard (step e s') = (0, 0) ∧ sessionHistory (step e s') = []).
Proof.
  cbv zeta.
  destruct (startSession_fields s)
    as (Hh & Hn & Hc & Hi & Hca & _ & Hr & _ & Hnb & Hnbi & _).
  split; [apply startSession_score|].
  split; [done|]. split; [done|]. split; [done|]. split; [done|]. split; [done|].
  split; [rewrite Hnb; lia|].
  split.
  { intros n Hin Hrange. rewrite Hnb, Hin. unfold or_default.
    destruct (Z.eqb_spec n 0); lia. }
  split.
  { intros [Hin | Hin]; rewrite Hnb, Hin; reflexivity. }
  split; [done|].
  split; [framed (frame_startSession sessionLog)|].
  intros e He.
  assert (Hno : canProcessButtonClick (startSession s) = false).
  { unfold canProcessButtonClick. rewrite Hca. by case_match. }
  pose proof (startSession_score s) as Hsc.
  revert Hno Hsc Hh. generalize (startSession s). clear -He. intros s Hno Hsc Hh.
  assert (Hin : ∀ v t, canProcessButtonClick (set_answerInput v t)
                       = canProcessButtonClick t) by (by intros ? []).
  destruct e; try discriminate; cbn [step].
  - unfold onAnswerInput. by rewrite Hin, Hno.
  - unfold onEnterKey. rewrite Hno, andb_false_r. by case_match.
  - unfold handleButtonInteraction. by rewrite Hno.
Qed.

Lemma updateStandardModeUI_values s :
  selectedISI (updateStandardModeUI s) = 3000
  ∧ sessionDuration (updateStandardModeUI s) = 20
  ∧ standardModeSettings (updateStandardModeUI s) = ModeSettings.mk 3000 20.
Proof.
  unfold updateStandardModeUI. open_state s. destruct standardModeSettings_ as [i d].
  lazy -[Z.eqb].
  destruct (Z.eqb_spec i 3000) as [-> | ?], (Z.eqb_spec d 20) as [-> | ?];
    lazy; by repeat split.
Qed.

Lemma clickIsiButton_standard isiValue s :
  500 ≤ isiValue →
  modeFlags s = (true, false, false) →
  selectedISI (clickIsiButton isiValue s) = isiValue
  ∧ sessionDuration (clickIsiButton isiValue s) = sessionDuration s
  ∧ modeFlags (clickIsiButton isiValue s) = (true, false, false).
Proof.
  intros Hv Hm. unfold modeFlags in Hm. injection Hm as Hs Hc Hman.
  unfold clickIsiButton. cbv zeta.
  assert ((isiValue >=? 500) = true) as -> by lia.
  assert (Hc' : ∀ v, isCustomMode (set_selectedISI v s) = false) by (by destruct s).
  assert (Hm' : ∀ v, isManualMode (set_selectedISI v s) = false) by (by destruct s).
  rewrite Hc', Hm'. unfold modeFlags.
  replace (Z.max 500 isiValue) with isiValue by lia.
  destruct s; cbn in *. by subst.
Qed.

(** The start of a standard session. Started right after the standard
    button is clicked, whatever was selected before, or right after the
    page is loaded, whatever [localStorage] holds, a session runs at
    3000 ms with 1200 seconds on its timer. The interval is not part of
    the mode, though: the listener of the interval buttons does not look
    at the mode, and a button of 500 ms or more that is clicked between
    the standard button and the start gives the standard session its own
    interval. *)
Theorem standard_session_start s storage :
  let s1 := startSession (step ClickStandardMode s) in
  let s2 := startSession (step DomContentLoaded (initial storage)) in
  (currentISIValue s1 = 3000 ∧ lowestISI s1 = 3000 ∧ remainingTime s1 = 1200
   ∧ modeFlags s1 = (true, false, false))
  ∧ (currentISIValue s2 = 3000 ∧ lowestISI s2 = 3000 ∧ remainingTime s2 = 1200
     ∧ modeFlags s2 = (true, false, false))
  ∧ (∀ isiValue, 500 ≤ isiValue →
       let s3 := startSession (step (ClickIsiButton isiValue)
                                 (step ClickStandardMode s)) in
       currentISIValue s3 = isiValue ∧ lowestISI s3 = isiValue
       ∧ remainingTime s3 = 1200 ∧ modeFlags s3 = (true, false, false)).
Proof.
  cbv zeta.
  assert (H : ∀ t, 500 ≤ selectedISI t → sessionDuration t = 20 →
            currentISIValue (startSession t) = selectedISI t
            ∧ lowestISI (startSession t) = selectedISI t
            ∧ remainingTime (startSession t) = 1200
            ∧ modeFlags (startSession t) = modeFlags t).
  { intros t Hi Hd. destruct (startSession_interval t) as (-> & _ & -> & _).
    destruct (startSession_fields t) as (_ & _ & _ & _ & _ & _ & -> & _).
    rewrite Hd. split; [lia|]. split; [lia|]. split; [done|].
    framed (frame_startSession modeFlags). }
  assert (Hclick : selectedISI (step ClickStandardMode s) = 3000
                   ∧ sessionDuration (step ClickStandardMode s) = 20
                   ∧ modeFlags (step ClickStandardMode s) = (true, false, false)).
  { cbn [step]. unfold clickStandardMode. cbv zeta.
    match goal with |- context [updateStandardModeUI ?t] =>
      destruct (updateStandardModeUI_values t) as (Hi & Hd & _)
    end.
    split; [done|]. split; [done|].
    by rewrite (frame_updateStandardModeUI modeFlags) by by intros ? []. }
  destruct Hclick as (Hi & Hd & Hm).
  split; [|split].
  - revert Hi Hd Hm. generalize (step ClickStandardMode s). intros t Hi Hd Hm.
    destruct (H t) as (-> & -> & -> & ->); [lia|done|]. by rewrite Hi.
  - cbn [step]. unfold loadAll. cbv zeta.
    match goal with |- context [updateStandardModeUI ?t] =>
      destruct (updateStandardModeUI_values t) as (Hi' & Hd' & _);
      assert (Hm' : modeFlags (updateStandardModeUI t) = (true, false, false))
    end.
    { rewrite (frame_updateStandardModeUI modeFlags) by by intros ? [].
      rewrite (frame_loadAudioSpeedSettings modeFlags) by by intros ? [].
      rewrite (frame_loadBeepSettings modeFlags) by by intros ? [].
      rewrite (frame_loadNbackSettings modeFlags) by by intros ? [].
      rewrite (frame_loadManualModeSettings modeFlags) by by intros ? [].
      rewrite (frame_loadCustomModeSettings modeFlags) by by intros ? [].
      rewrite (frame_loadSessions modeFlags) by by intros ? [].
      reflexivity. }
    revert Hi' Hd' Hm'.
    match goal with |- context [updateStandardModeUI ?t] =>
      generalize (updateStandardModeUI t)
    end.
    intros u Hi' Hd' Hm'.
    destruct (H (set_nbackInput (Some (nbackSettings u)) u)) as (-> & -> & -> & ->);
      [by destruct u; cbn in *; lia|by destruct u|].
    split; [by destruct u|]. split; [by destruct u|]. split; [done|].
    rewrite <- Hm'. by destruct u.
  - intros isiValue Hv.
    revert Hi Hd Hm. generalize (step ClickStandardMode s). intros t Hi Hd Hm.
    cbn [step].
    destruct (clickIsiButton_standard isiValue t Hv Hm) as (Hi3 & Hd3 & Hm3).
    revert Hi3 Hd3 Hm3. generalize (clickIsiButton isiValue t). intros t3 Hi3 Hd3 Hm3.
    destruct (H t3) as (-> & -> & -> & ->); [lia|congruence|].
    by rewrite Hi3.
Qed.

(** ** The deadline of the open trial *)

(** When the deadline of the open trial fires, the candidate found on the
    answer surface in use is the answer that is recorded: the number in
    the field, or the selected pad button; nothing when the field is blank
    or holds no number, or when no button is selected. The trial is scored
    against the correct answer, the response time is counted from the end
    of the playback, the resolution is claimed, and the surface is
    cleared. *)
Theorem deadline_takes_the_candidate trialId trialPresentationTime now s :
  trialIsOpen trialId s = true →
  let candidate :=
    if useNumberPad s then
      match selectedButton s with Some value => Num value | None => Null end
    else
      match answerInput s with Digits z => Num z | _ => Null end in
  let verdict := strict_eq candidate (correctAnswer s) in
  let s' := deadlineCallback trialId trialPresentationTime now s in
  ∃ i x,
    sessionHistory s !! i = Some x
    ∧ Trial.trialId x = trialId
    ∧ sessionHistory s' =
        <[i := Trial.set_correct (Some verdict)
                 (Trial.set_userAnswer candidate
                    (Trial.set_responseTime
                       (Some (now - (nextPresentationTime s - currentISIValue s))) x))]>
          (sessionHistory s)
    ∧ totalAttempts s' = totalAttempts s + 1
    ∧ totalCorrect s' = (if verdict then totalCorrect s + 1 else totalCorrect s)
    ∧ answerProcessed s' = true
    ∧ (if useNumberPad s then selectedButton s' = None else answerInput s' = Empty).
Proof.
  intros (i & x & Hf & Hi & Hu & Hc & Hs & Ha & Hp)%trialIsOpen_facts. cbv zeta.
  exists i, x.
  pose proof Hf as (Hix & Hid & _)%list_find_Some.
  split; [done|]. split; [done|].
  unfold deadlineCallback. rewrite Ha, Hp, Hf, Hu, Hi, Z.eqb_refl.
  cbn [negb andb is_null].
  set (ua := if negb (is_null _) && negb (isNaN _) then _ else Null).
  assert (Hua : ua =
    if useNumberPad s then
      match selectedButton s with Some value => Num value | None => Null end
    else match answerInput s with Digits z => Num z | _ => Null end).
  { subst ua. destruct (useNumberPad s).
    - by destruct (selectedButton s).
    - by destruct (answerInput s). }
  rewrite <- Hua. clearbody ua. clear Hua.
  pose proof (found_last_is_last s trialId i x Hf Hi) as Hl.
  destruct (processAnswer_succeeds now ua (set_answerProcessed true s) x Hp Hc Hl Hu Hs)
    as [s1 H1].
  rewrite H1. cbn [negb].
  apply processAnswer_success in H1 as (x' & ok & Hl' & _ & _ & _ & Hok & ->).
  change (sessionHistory (set_answerProcessed true s)) with (sessionHistory s) in Hl'.
  assert (x' = x) as -> by congruence.
  change (correctAnswer (set_answerProcessed true s)) with (correctAnswer s) in Hok.
  subst ok.
  assert (Hidx : Z.to_nat (lastTrialIndex (set_answerProcessed true s)) = i).
  { unfold lastTrialIndex in *. cbn. lia. }
  change (useNumberPad (set_answerProcessed true s)) with (useNumberPad s).
  destruct (useNumberPad s) eqn:Hpad; rewrite Hidx; repeat split;
    destruct s; cbn in Hpad; subst; done.
Qed.

(** The trainee has typed 12, not the answer 11, when the deadline of
    trial 1 fires: trial 1 is recorded with the answer 12 and scored as
    incorrect. *)
Lemma deadline_takes_the_candidate_witness :
  let s := run [TypeAnswer (Digits 12) 6000] trial1_open in
  trialIsOpen 1 s = true
  ∧ sessionHistory (deadlineCallback 1 5000 8000 s)
    = [Trial.mk 1 7 (Some 4) (Num 11) (Num 12) (Some false) 3000 1 (Some 3000)].
Proof.
  cbv zeta. split; [vm_compute; reflexivity|].
  destruct (deadline_takes_the_candidate 1 5000 8000
              (run [TypeAnswer (Digits 12) 6000] trial1_open))
    as (i & x & _ & _ & H & _).
  - vm_compute. reflexivity.
  - vm_compute. reflexivity.
Defined.

(** ** A click on the number pad *)

Lemma processAnswer_fails_again now now' userAnswer userAnswer' s s' :
  processAnswer now userAnswer s = (false, s) →
  processingAnswer s' = processingAnswer s →
  correctAnswer s' = correctAnswer s →
  sessionHistory s' = sessionHistory s →
  processAnswer now' userAnswer' s' = (false, s').
Proof.
  intros Hfail Hp Hc Hh.
  destruct (processAnswer now' userAnswer' s') as [[] s''] eqn:H.
  - assert (Hn : is_null (correctAnswer s) = false).
    { rewrite <- Hc. destruct (is_null (correctAnswer s')) eqn:E; [|done].
      unfold processAnswer in H. rewrite E, orb_true_r in H. discriminate. }
    apply processAnswer_success in H as (x & ok & Hl & Hu & Hp' & Hs & _ & _).
    rewrite Hh in Hl. rewrite Hp in Hp'. rewrite Hc in Hs.
    destruct (processAnswer_succeeds now userAnswer s x Hp' Hn Hl Hu Hs) as [s1 H1].
    congruence.
  - by apply processAnswer_failure in H as ->.
Qed.

Lemma handleButtonInteraction_cases now value s :
  let s0 := set_selectedButton (Some value) s in
  let h := handleButtonInteraction now value s in
  (canProcessButtonClick s = false ∧ h = set_selectedButton None s)
  ∨ (canProcessButtonClick s = true
     ∧ shouldProcessAnswerImmediately (Num value) s0 = false ∧ h = s0)
  ∨ (canProcessButtonClick s = true
     ∧ shouldProcessAnswerImmediately (Num value) s0 = true
     ∧ processAnswer now (Num value) (set_answerProcessed true s0) = (true, h))
  ∨ (canProcessButtonClick s = true
     ∧ shouldProcessAnswerImmediately (Num value) s0 = true
     ∧ processAnswer now (Num value) (set_answerProcessed true s0)
       = (false, set_answerProcessed true s0)
     ∧ h = set_selectedButton None
             (set_answerProcessed false (set_answerProcessed true s0))).
Proof.
  cbv zeta. unfold handleButtonInteraction.
  destruct (canProcessButtonClick s); cbn [negb]; [|by left].
  destruct (shouldProcessAnswerImmediately _ _); [|right; by left].
  destruct (processAnswer now (Num value) _) as [[] sp] eqn:Hpa; cbn [negb].
  - right; right; by left.
  - apply processAnswer_failure in Hpa as Esp. subst sp.
    right; right; by right.
Qed.

(** A mouse click on a pad button runs the button handler twice, on
    [mousedown] and on [click]. The second run scores nothing: whatever
    the first run did, the counters and the history are the same after the
    second, so a click counts as one attempt at most. *)
Theorem pad_click_scores_once now1 now2 value s :
  let s1 := handleButtonInteraction now1 value s in
  let s2 := handleButtonInteraction now2 value s1 in
  leavesScores s1 s2
  ∧ (resolvesTrial s s1 ∨ leavesScores s s1)
  ∧ totalAttempts s ≤ totalAttempts s2 ≤ totalAttempts s + 1.
Proof.
  cbv zeta.
  assert (Hsel : ∀ v t, leavesScores t (set_selectedButton v t)).
  { intros v t. split; by destruct t. }
  assert (Hcan : ∀ v t, canProcessButtonClick (set_selectedButton v t)
                        = canProcessButtonClick t) by (by intros ? []).
  assert (Hmain :
    leavesScores (handleButtonInteraction now1 value s)
      (handleButtonInteraction now2 value (handleButtonInteraction now1 value s))
    ∧ (resolvesTrial s (handleButtonInteraction now1 value s)
       ∨ leavesScores s (handleButtonInteraction now1 value s))).
  { destruct (handleButtonInteraction_cases now1 value s)
      as [[Hc ->] | [(Hc & Hshould & ->) | [(Hc & Hshould & Hpa)
                                            | (Hc & Hshould & Hpa & ->)]]].
    - unfold handleButtonInteraction. rewrite Hcan, Hc. cbn [negb].
      split; [apply Hsel|right; apply Hsel].
    - unfold handleButtonInteraction. rewrite Hcan, Hc. cbn [negb].
      assert (shouldProcessAnswerImmediately (Num value)
                (set_selectedButton (Some value)
                   (set_selectedButton (Some value) s)) = false) as ->.
      { rewrite <- Hshould. by destruct s. }
      split; [apply Hsel|right; apply Hsel].
    - (* the first run scores *)
      revert Hpa. generalize (handleButtonInteraction now1 value s). intros sp Hpa.
      pose proof Hpa as (x & ok & _ & _ & _ & _ & _ & Esp)%processAnswer_success.
      assert (Hclaimed : answerProcessed sp = true) by (rewrite Esp; by destruct s).
      assert (Hno : canProcessButtonClick sp = false).
      { unfold canProcessButtonClick. rewrite Hclaimed. by repeat case_match. }
      unfold handleButtonInteraction. rewrite Hno. cbn [negb].
      split; [apply Hsel|]. left. unfold resolvesTrial. rewrite Esp. by destruct s.
    - (* the first run is turned down, and so is the second *)
      set (s0 := set_selectedButton (Some value) s) in *.
      set (s1 := set_selectedButton None
                   (set_answerProcessed false (set_answerProcessed true s0))).
      assert (Hleave : leavesScores s s1) by (split; by destruct s).
      split; [|by right].
      assert (E1 : canProcessButtonClick s1 = true).
      { rewrite <- Hc. unfold canProcessButtonClick in *. unfold s1, s0.
        destruct s; cbn in *. by repeat case_match. }
      assert (E2 : shouldProcessAnswerImmediately (Num value)
                     (set_selectedButton (Some value) s1) = true).
      { rewrite <- Hshould. unfold shouldProcessAnswerImmediately,
          canProcessAnswerImmediately, canProcessButtonClick in *.
        unfold s1, s0. destruct s; cbn in *. by repeat case_match. }
      unfold handleButtonInteraction. rewrite E1, E2. cbn [negb].
      rewrite (processAnswer_fails_again now1 now2 (Num value) (Num value)
                 (set_answerProcessed true s0)
                 (set_answerProcessed true (set_selectedButton (Some value) s1)));
        [| exact Hpa | by destruct s | by destruct s | by destruct s].
      cbn [negb]. split; unfold s1, s0; by destruct s. }
  destruct Hmain as [H2 H1]. split; [done|]. split; [done|].
  assert (totalAttempts (handleButtonInteraction now2 value
                           (handleButtonInteraction now1 value s))
          = totalAttempts (handleButtonInteraction now1 value s)) as ->.
  { destruct H2 as [H2 _]. unfold counters in H2. by injection H2. }
  destruct H1 as [H1 | [H1 _]].
  - unfold resolvesTrial in H1. lia.
  - unfold counters in H1. injection H1 as H1 _. lia.
Qed.

(** ** A deadline that finds the next trial claimed *)

(** The deadline of a trial backs off while [answerProcessed] or
    [processingAnswer] is set. These flags belong to the last trial. A
    trial that was given no answer, and whose deadline fires after the next
    trial has been presented and answered, is therefore passed over: it
    keeps [userAnswer = null] and [correct = null], no counter moves, and
    its deadline is spent. *)
Theorem deadline_passes_over_stale_trial trialId trialPresentationTime now handle s i x :
  pendingTask handle s = Some (DeadlineTask trialId trialPresentationTime) →
  list_find (λ y, Trial.trialId y = trialId) (sessionHistory s) = Some (i, x) →
  Z.of_nat i ≠ lastTrialIndex s →
  Trial.userAnswer x = Null →
  Trial.correct x = None →
  answerProcessed s = true ∨ processingAnswer s = true →
  let s' := step (Fire handle now 0) s in
  sessionHistory s' = sessionHistory s
  ∧ counters s' = counters s
  ∧ trialIsScored trialId s' = false
  ∧ pendingTask handle s' = None.
Proof.
  intros Hpending Hf Hi Hu Hcorrect Hflag. cbv zeta. cbn [step]. unfold fire.
  rewrite Hpending.
  assert (Hflag' : answerProcessed (clearTimeout handle s) = true
                   ∨ processingAnswer (clearTimeout handle s) = true)
    by (by destruct s).
  rewrite (deadline_backs_off _ _ _ _ Hflag').
  split; [by destruct s|]. split; [by destruct s|]. split.
  - unfold trialIsScored.
    assert (sessionHistory (clearTimeout handle s) = sessionHistory s) as ->
      by (by destruct s).
    by rewrite Hf, Hcorrect.
  - apply clearTimeout_pending.
Qed.

(** Trial 1 is given no answer; the digit 2 is presented and played, and
    trial 2 is answered with 9 before the deadline of trial 1, handle 7,
    fires. *)
Lemma deadline_passes_over_stale_trial_witness :
  let s := run [Fire 6 8000 (1 # 8); Fire 8 8500 0; TypeAnswer (Digits 9) 8600]
             trial1_open in
  sessionHistory (step (Fire 7 8700 0) s)
  = [Trial.mk 1 7 (Some 4) (Num 11) Null None 3000 1 None;
     Trial.mk 1 2 (Some 7) (Num 9) (Num 9) (Some true) 3000 2 (Some 100)]
  ∧ totalAttempts (step (Fire 7 8700 0) s) = 1.
Proof.
  cbv zeta.
  destruct (deadline_passes_over_stale_trial 1 5000 8700 7
              (run [Fire 6 8000 (1 # 8); Fire 8 8500 0; TypeAnswer (Digits 9) 8600]
                 trial1_open)
              0%nat (Trial.mk 1 7 (Some 4) (Num 11) Null None 3000 1 None))
    as (Hh & Hc & _).
  - vm_compute. reflexivity.
  - vm_compute. reflexivity.
  - vm_compute. discriminate.
  - reflexivity.
  - reflexivity.
  - left. vm_compute. reflexivity.
  - rewrite Hh. apply counters_totalAttempts in Hc. rewrite Hc.
    split; vm_compute; reflexivity.
Defined.
